(** * Terminal prompt engine of [pulse] (the TTY utilities of src/lib)

    A shallow embedding of the key decoder [readKey] and of the four prompt
    widgets [select], [input], [rating] and [confirm], together with the
    properties the specification states about them.

    Conventions of the embedding:
    - a JavaScript string is the list of its UTF-16 code units;
    - a JavaScript number is an integer of [Z] (indices, ratings and the
      results of [parseInt] on a key are all small integers);
    - a byte is a [Byte.byte];
    - the terminal is a record holding the process-wide raw-mode flag and the
      chronological list of the effects performed on it;
    - standard input is given by the finite list of the results of the next
      calls of [Deno.stdin.read]; a prompt loop that has consumed all of them
      is suspended on its next read, which is the outcome [Blocked];
    - the functions of the platform the code calls ([parseInt], [trim],
      [toLowerCase], [TextDecoder.decode], [prompt], [Deno.exit]) are not
      code of the repository; they are modelled as ECMAScript, the Encoding
      Standard and Deno define them, within the limits stated at each. *)

From Stdlib Require Import ZArith NArith List Bool String Ascii Lia.
From Stdlib.Strings Require Import Byte.
From Stdlib Require Import DecimalString.
Import ListNotations.

Local Open Scope Z_scope.

(* ------------------------------------------------------------------ *)
(** ** JavaScript strings *)

Definition code_unit := N.
Definition jsstring := list code_unit.

(** An ASCII literal as a JavaScript string. *)
Definition lit (s : string) : jsstring :=
  map N_of_ascii (list_ascii_of_string s).

Definition jsstring_eqb (a b : jsstring) : bool :=
  if list_eq_dec N.eq_dec a b then true else false.

(** Template-literal rendering of an integer, [`${n}`]. *)
Definition Number_toString (n : Z) : jsstring :=
  lit (NilZero.string_of_int (Z.to_int n)).

(** [WhiteSpace] and [LineTerminator] code units of ECMAScript, the ones
    [String.prototype.trim] and [parseInt] strip. *)
Definition isWhiteSpace (c : code_unit) : bool :=
  (existsb (N.eqb c)
     [9; 10; 11; 12; 13; 32; 160; 5760; 8232; 8233; 8239; 8287; 12288; 65279]
   || ((8192 <=? c) && (c <=? 8202)))%N.

Fixpoint trimStart (s : jsstring) : jsstring :=
  match s with
  | c :: r => if isWhiteSpace c then trimStart r else s
  | [] => []
  end.

Definition trimEnd (s : jsstring) : jsstring := rev (trimStart (rev s)).

Definition trim (s : jsstring) : jsstring := trimEnd (trimStart s).

(** [String.prototype.toLowerCase], modelled on the Basic Latin block: the
    letters [A]..[Z] are mapped to [a]..[z], every other code unit is kept. *)
Definition toLowerCase (s : jsstring) : jsstring :=
  map (fun c => if (65 <=? c) && (c <=? 90) then c + 32 else c)%N s.

(** [s.slice(0, -1)]: all code units but the last. *)
Definition slice_0_m1 (s : jsstring) : jsstring := removelast s.

(** Truthiness of a string: the empty string is the only falsy one. *)
Definition truthy (s : jsstring) : bool :=
  match s with [] => false | _ => true end.

Definition digitValue (c : code_unit) : option Z :=
  if ((48 <=? c) && (c <=? 57))%N then Some (Z.of_N c - 48) else None.

(** Longest prefix of decimal digits, read as an integer; [None] when that
    prefix is empty. *)
Fixpoint parseDigits (acc : option Z) (s : jsstring) : option Z :=
  match s with
  | [] => acc
  | c :: r =>
      match digitValue c with
      | Some d =>
          parseDigits (Some (10 * match acc with Some a => a | None => 0 end + d)) r
      | None => acc
      end
  end.

(** [parseInt(s, 10)]: leading white space is skipped, a sign is accepted,
    the longest prefix of decimal digits is read and the rest is ignored;
    [None] stands for [NaN]. *)
Definition parseInt (s : jsstring) : option Z :=
  match trimStart s with
  | 45%N :: r => option_map Z.opp (parseDigits None r)
  | 43%N :: r => parseDigits None r
  | r => parseDigits None r
  end.

(* ------------------------------------------------------------------ *)
(** ** [TextDecoder.decode]: UTF-8 bytes to a JavaScript string

    The UTF-8 decoder of the Encoding Standard as [new TextDecoder()] runs
    it: an ill-formed sequence gives U+FFFD and the byte that broke it is
    decoded again, a sequence cut by the end of the input gives U+FFFD, and
    a leading byte order mark is dropped. *)

Module TextDecoder.

(** A multi-byte sequence in progress: the code point so far, the number of
    continuation bytes still expected and the range allowed for the next
    one. *)
Record pending := mkPending
  { code_point : N; bytes_left : nat; lower : N; upper : N }.

Definition REPLACEMENT : N := 65533.

(** A byte met when no sequence is in progress. *)
Definition lead (b : N) : list N * option pending :=
  (if b <=? 127 then ([b], None)
   else if (194 <=? b) && (b <=? 223)
   then ([], Some (mkPending (N.land b 31) 1 128 191))
   else if (224 <=? b) && (b <=? 239)
   then ([], Some (mkPending (N.land b 15) 2
                     (if b =? 224 then 160 else 128)
                     (if b =? 237 then 159 else 191)))
   else if (240 <=? b) && (b <=? 244)
   then ([], Some (mkPending (N.land b 7) 3
                     (if b =? 240 then 144 else 128)
                     (if b =? 244 then 143 else 191)))
   else ([REPLACEMENT], None))%N.

Fixpoint code_points (st : option pending) (bs : list N) : list N :=
  match bs with
  | [] => match st with None => [] | Some _ => [REPLACEMENT] end
  | b :: rest =>
      match st with
      | None => let (out, st') := lead b in out ++ code_points st' rest
      | Some p =>
          if ((lower p <=? b) && (b <=? upper p))%N
          then
            let cp := N.lor (N.shiftl (code_point p) 6) (N.land b 63) in
            match bytes_left p with
            | S (S k) => code_points (Some (mkPending cp (S k) 128 191)) rest
            | _ => cp :: code_points None rest
            end
          else
            let (out, st') := lead b in
            REPLACEMENT :: out ++ code_points st' rest
      end
  end.

(** A code point as one UTF-16 code unit or a surrogate pair. *)
Definition utf16 (cp : N) : list code_unit :=
  (if cp <? 65536 then [cp]
   else [55296 + N.shiftr (cp - 65536) 10; 56320 + N.land (cp - 65536) 1023])%N.

Definition stripBOM (cps : list N) : list N :=
  match cps with
  | 65279%N :: r => r
  | _ => cps
  end.

Definition decode (bs : list byte) : jsstring :=
  flat_map utf16 (stripBOM (code_points None (map Byte.to_N bs))).

End TextDecoder.

(* ------------------------------------------------------------------ *)
(** ** ANSI escape codes *)

Definition ESC : jsstring := [27%N].
Definition CSI : jsstring := ESC ++ lit "[".

Module ansi.
Definition hideCursor : jsstring := CSI ++ lit "?25l".
Definition showCursor : jsstring := CSI ++ lit "?25h".
Definition cursorUp (n : Z) : jsstring := CSI ++ Number_toString n ++ lit "A".
Definition clearLine : jsstring := CSI ++ lit "2K".
Definition reset : jsstring := CSI ++ lit "0m".
Definition bold : jsstring := CSI ++ lit "1m".
Definition dim : jsstring := CSI ++ lit "2m".
Definition cyan : jsstring := CSI ++ lit "36m".
End ansi.

Definition CR : jsstring := [13%N].
Definition LF : jsstring := [10%N].

(* ------------------------------------------------------------------ *)
(** ** Key codes and the key decoder *)

Definition CTRL_C : byte := x03.
Definition ENTER : byte := x0d.
Definition ESCAPE : byte := x1b.
Definition BACKSPACE : byte := x7f.
Definition DEL : byte := x08.

Inductive Key : Type :=
| KChar (char : jsstring)
| KEnter
| KEscape
| KBackspace
| KUp
| KDown
| KLeft
| KRight
| KCtrlC
| KUnknown.

(** The body of [readKey] after the read has resolved. [None] is the [null]
    of an end of stream; [Some bs] is a read of [length bs] bytes into the
    fresh zero-filled buffer, so that [buf[i]] is [nth i bs x00]. *)
Definition decodeKey (chunk : option (list byte)) : Key :=
  match chunk with
  | None => KUnknown
  | Some bs =>
      let n := List.length bs in
      let buf i := nth i bs x00 in
      if Nat.eqb n 0 then KUnknown
      else
        let first := buf 0%nat in
        if Byte.eqb first CTRL_C then KCtrlC
        else if Byte.eqb first ENTER then KEnter
        else if Byte.eqb first BACKSPACE || Byte.eqb first DEL then KBackspace
        else if Byte.eqb first ESCAPE then
          if Nat.eqb n 1 then KEscape
          else if Byte.eqb (buf 1%nat) x5b then
            match buf 2%nat with
            | x41 => KUp
            | x42 => KDown
            | x43 => KRight
            | x44 => KLeft
            | _ => KUnknown
            end
          else KUnknown
        else KChar (TextDecoder.decode bs)
  end.

(* ------------------------------------------------------------------ *)
(** ** The terminal, standard input and the monad of prompt code *)

(** What one call of [Deno.stdin.read] resolves to: [null] at the end of the
    stream, the bytes it delivered, or a rejection. *)
Inductive ReadResult : Type :=
| ReadNull
| ReadBytes (bs : list byte)
| ReadFails.

Inductive Event : Type :=
| EvSetRaw (on : bool)          (* Deno.stdin.setRaw(on) *)
| EvWrite (text : jsstring)     (* one Deno.stdout.writeSync *)
| EvLog (text : jsstring)       (* console.log(text) *)
| EvPrompt (message : jsstring) (* prompt(message) *)
| EvRead (r : ReadResult)       (* one Deno.stdin.read *)
| EvExit (code : Z).            (* Deno.exit(code) *)

Record Term : Type := mkTerm
  { rawMode : bool;            (* the process-wide raw-mode flag *)
    effects : list Event }.    (* everything done so far, oldest first *)

Record Stdin : Type := mkStdin
  { isTerminal : bool;
    reads : list ReadResult;   (* results of the coming raw reads *)
    line : option jsstring }.  (* the line standing on standard input *)

Inductive Outcome (A : Type) : Type :=
| Returned (a : A)   (* the call returned [a] *)
| Exited (code : Z)  (* the process ended with status [code] *)
| Threw              (* an exception propagates to the caller *)
| Blocked.           (* suspended on a read that has not resolved *)

Arguments Returned {A} a.
Arguments Exited {A} code.
Arguments Threw {A}.
Arguments Blocked {A}.

Definition M (A : Type) : Type := Term -> Outcome A * Term.

Definition ret {A} (a : A) : M A := fun t => (Returned a, t).

Definition bind {A B} (m : M A) (k : A -> M B) : M B :=
  fun t =>
    match m t with
    | (Returned a, t') => k a t'
    | (Exited c, t') => (Exited c, t')
    | (Threw, t') => (Threw, t')
    | (Blocked, t') => (Blocked, t')
    end.

Notation "x <- m ;; k" := (bind m (fun x => k))
  (at level 61, m at next level, right associativity).
Notation "m ;; k" := (bind m (fun _ => k))
  (at level 61, right associativity).

Definition emit (e : Event) (t : Term) : Term :=
  mkTerm (rawMode t) (effects t ++ [e]).

Definition setRaw (on : bool) : M unit :=
  fun t => (Returned tt, mkTerm on (effects t ++ [EvSetRaw on])).

Definition write (text : jsstring) : M unit :=
  fun t => (Returned tt, emit (EvWrite text) t).

Definition console_log (text : jsstring) : M unit :=
  fun t => (Returned tt, emit (EvLog text) t).

(** [prompt(message)] of Deno: when standard input is not a terminal it
    reads nothing and returns [null], whatever stands on standard input;
    on a terminal it returns the line that was typed. The event records the
    call. *)
Definition prompt (stdin : Stdin) (message : jsstring) : M (option jsstring) :=
  fun t =>
    (Returned (if isTerminal stdin then line stdin else None),
     emit (EvPrompt message) t).

Definition exit {A} (code : Z) : M A :=
  fun t => (Exited code, emit (EvExit code) t).

Definition blocked {A} : M A := fun t => (Blocked, t).

(** [try { body } finally { fin }]: the handler runs when the body returns or
    throws; it does not run when the body ended the process, nor while the
    body is still suspended. *)
Definition try_finally {A} (body : M A) (fin : M unit) : M A :=
  fun t =>
    match body t with
    | (Returned a, t') => (fin ;; ret a) t'
    | (Threw, t') => (fin ;; (fun t'' => (Threw, t''))) t'
    | (Exited c, t') => (Exited c, t')
    | (Blocked, t') => (Blocked, t')
    end.

Definition when (c : bool) (m : M unit) : M unit := if c then m else ret tt.

(** [xs.forEach((x, i) => f(x, i))], also the [for] loop over the indices of
    [xs], started at index [i]. *)
Fixpoint forEach_from {A} (i : Z) (xs : list A) (f : A -> Z -> M unit) : M unit :=
  match xs with
  | [] => ret tt
  | x :: r => f x i ;; forEach_from (i + 1) r f
  end.

Definition forEach {A} (xs : list A) (f : A -> Z -> M unit) : M unit :=
  forEach_from 0 xs f.

(** [await Deno.stdin.read(buf)] resolving to [r]. *)
Definition stdin_read (r : ReadResult) : M (option (list byte)) :=
  fun t =>
    match r with
    | ReadNull => (Returned None, emit (EvRead r) t)
    | ReadBytes bs => (Returned (Some bs), emit (EvRead r) t)
    | ReadFails => (Threw, emit (EvRead r) t)
    end.

Definition readKey (r : ReadResult) : M Key :=
  chunk <- stdin_read r ;;
  ret (decodeKey chunk).

Definition Key_type (key : Key) : string :=
  match key with
  | KChar _ => "char"
  | KEnter => "enter"
  | KEscape => "escape"
  | KBackspace => "backspace"
  | KUp => "up"
  | KDown => "down"
  | KLeft => "left"
  | KRight => "right"
  | KCtrlC => "ctrl-c"
  | KUnknown => "unknown"
  end.

(** [key.type === ty] *)
Definition has_type (key : Key) (ty : string) : bool :=
  String.eqb (Key_type key) ty.

(** How one iteration of a prompt loop ends: [break], or fall through (or
    [continue]) to the next read, each with the loop variable's new value. *)
Inductive Ctl (S : Type) : Type :=
| Continue (s : S)
| Break (s : S).

Arguments Continue {S} s.
Arguments Break {S} s.

(** [while (true) { const key = await readKey(); body }] over the coming
    reads; [s] is the widget's mutable local. *)
Fixpoint readKey_loop {S} (body : Key -> S -> M (Ctl S))
    (rs : list ReadResult) (s : S) : M S :=
  match rs with
  | [] => blocked
  | r :: rest =>
      key <- readKey r ;;
      c <- body key s ;;
      match c with
      | Break s' => ret s'
      | Continue s' => readKey_loop body rest s'
      end
  end.

(* ------------------------------------------------------------------ *)
(** ** Select *)

Definition select_render (question : jsstring) (options : list jsstring)
    (selected : Z) : M unit :=
  write (CR ++ ansi.clearLine) ;;
  write (question ++ LF) ;;
  forEach options (fun opt i =>
    write ansi.clearLine ;;
    if i =? selected
    then write (ansi.cyan ++ [10095%N] ++ lit " " ++ opt ++ ansi.reset ++ LF)
    else write (lit "  " ++ ansi.dim ++ opt ++ ansi.reset ++ LF)).

Definition select_moveUp (options : list jsstring) : M unit :=
  write (ansi.cursorUp (Z.of_nat (List.length options) + 1)).

(** The body of the loop of [select], after the key has been read. *)
Definition select_onKey (question : jsstring) (options : list jsstring)
    (key : Key) (selected : Z) : M (Ctl Z) :=
  let len := Z.of_nat (List.length options) in
  when (has_type key "ctrl-c")
    (write ansi.showCursor ;; setRaw false ;; exit 130) ;;
  if has_type key "enter" then ret (Break selected)
  else
    selected <-
      (if has_type key "up" && (selected >? 0)
       then
         let selected := selected - 1 in
         select_moveUp options ;; select_render question options selected ;;
         ret selected
       else ret selected) ;;
    selected <-
      (if has_type key "down" && (selected <? len - 1)
       then
         let selected := selected + 1 in
         select_moveUp options ;; select_render question options selected ;;
         ret selected
       else ret selected) ;;
    selected <-
      (match key with
       | KChar char =>
           match parseInt char with
           | Some num =>
               if (num >=? 1) && (num <=? len)
               then
                 let selected := num - 1 in
                 select_moveUp options ;;
                 select_render question options selected ;;
                 ret selected
               else ret selected
           | None => ret selected
           end
       | _ => ret selected
       end) ;;
    ret (Continue selected).

Definition select (stdin : Stdin) (question : jsstring)
    (options : list jsstring) (defaultIndex : Z) : M Z :=
  let len := Z.of_nat (List.length options) in
  if len =? 0 then ret (-1)
  else if negb (isTerminal stdin) then
    console_log question ;;
    forEach options (fun opt i =>
      let marker := if i =? defaultIndex then lit ">" else lit " " in
      console_log (lit "  " ++ marker ++ lit " " ++ Number_toString (i + 1)
                     ++ lit ". " ++ opt)) ;;
    result <- prompt stdin
                (lit "Choice [" ++ Number_toString (defaultIndex + 1) ++ lit "]:") ;;
    match result with
    | None => ret defaultIndex
    | Some result =>
        if jsstring_eqb (trim result) (lit "") then ret defaultIndex
        else
          match parseInt (trim result) with
          | Some num =>
              if (num >=? 1) && (num <=? len) then ret (num - 1)
              else ret defaultIndex
          | None => ret defaultIndex
          end
    end
  else
    try_finally
      (setRaw true ;;
       write ansi.hideCursor ;;
       select_render question options defaultIndex ;;
       readKey_loop (select_onKey question options) (reads stdin) defaultIndex)
      (setRaw false ;;
       write ansi.showCursor).

(* ------------------------------------------------------------------ *)
(** ** Input *)

Definition input_render (question defaultValue value : jsstring) : M unit :=
  write (CR ++ ansi.clearLine) ;;
  if truthy value then write (question ++ lit ": " ++ value)
  else if truthy defaultValue
  then write (question ++ lit ": " ++ ansi.dim ++ defaultValue ++ ansi.reset)
  else write (question ++ lit ": ").

Definition input_onKey (question defaultValue : jsstring)
    (key : Key) (value : jsstring) : M (Ctl jsstring) :=
  when (has_type key "ctrl-c") (setRaw false ;; exit 130) ;;
  if has_type key "enter" then write LF ;; ret (Break value)
  else if has_type key "backspace" then
    if Z.of_nat (List.length value) >? 0
    then
      let value := slice_0_m1 value in
      input_render question defaultValue value ;;
      ret (Continue value)
    else ret (Continue value)
  else
    match key with
    | KChar char =>
        let value := value ++ char in
        input_render question defaultValue value ;;
        ret (Continue value)
    | _ => ret (Continue value)
    end.

Definition input (stdin : Stdin) (question defaultValue : jsstring) : M jsstring :=
  if negb (isTerminal stdin) then
    let suffix :=
      if truthy defaultValue then lit " [" ++ defaultValue ++ lit "]" else lit "" in
    result <- prompt stdin (question ++ suffix ++ lit ":") ;;
    match result with
    | None => ret defaultValue
    | Some result =>
        if jsstring_eqb (trim result) (lit "") then ret defaultValue
        else ret (trim result)
    end
  else
    value <-
      try_finally
        (setRaw true ;;
         input_render question defaultValue (lit "") ;;
         readKey_loop (input_onKey question defaultValue) (reads stdin) (lit ""))
        (setRaw false) ;;
    ret (if truthy value then value else defaultValue).

(* ------------------------------------------------------------------ *)
(** ** Rating *)

(** The [for (let i = min; i <= max; i++)] of [renderScale]. *)
Definition renderScale (min max value : Z) : jsstring :=
  flat_map
    (fun k =>
       let i := min + Z.of_nat k in
       if i =? value
       then ansi.cyan ++ ansi.bold ++ Number_toString i ++ ansi.reset ++ lit " "
       else ansi.dim ++ Number_toString i ++ ansi.reset ++ lit " ")
    (seq 0 (Z.to_nat (max - min + 1))).

Definition rating_render (question : jsstring) (min max value : Z) : M unit :=
  write (CR ++ ansi.clearLine) ;;
  write (question ++ lit ": " ++ renderScale min max value).

Definition rating_onKey (question : jsstring) (min max : Z)
    (key : Key) (value : Z) : M (Ctl Z) :=
  when (has_type key "ctrl-c") (setRaw false ;; exit 130) ;;
  if has_type key "enter" then write LF ;; ret (Break value)
  else
    value <-
      (if (has_type key "left" || has_type key "down") && (value >? min)
       then
         let value := value - 1 in
         rating_render question min max value ;; ret value
       else ret value) ;;
    value <-
      (if (has_type key "right" || has_type key "up") && (value <? max)
       then
         let value := value + 1 in
         rating_render question min max value ;; ret value
       else ret value) ;;
    value <-
      (match key with
       | KChar char =>
           match parseInt char with
           | Some num =>
               if (num >=? min) && (num <=? max)
               then rating_render question min max num ;; ret num
               else ret value
           | None => ret value
           end
       | _ => ret value
       end) ;;
    ret (Continue value).

Definition rating (stdin : Stdin) (question : jsstring)
    (min max defaultValue : Z) : M Z :=
  if negb (isTerminal stdin) then
    result <- prompt stdin
                (question ++ lit " (" ++ Number_toString min ++ lit "-"
                   ++ Number_toString max ++ lit ") ["
                   ++ Number_toString defaultValue ++ lit "]:") ;;
    match result with
    | None => ret defaultValue
    | Some result =>
        if jsstring_eqb (trim result) (lit "") then ret defaultValue
        else
          match parseInt (trim result) with
          | Some num =>
              if (num >=? min) && (num <=? max) then ret num
              else ret defaultValue
          | None => ret defaultValue
          end
    end
  else
    try_finally
      (setRaw true ;;
       rating_render question min max defaultValue ;;
       readKey_loop (rating_onKey question min max) (reads stdin) defaultValue)
      (setRaw false).

(* ------------------------------------------------------------------ *)
(** ** Confirm *)

Definition confirm_render (question : jsstring) (value : bool) : M unit :=
  write (CR ++ ansi.clearLine) ;;
  let yes :=
    if value then ansi.cyan ++ ansi.bold ++ lit "Yes" ++ ansi.reset
    else ansi.dim ++ lit "Yes" ++ ansi.reset in
  let no :=
    if negb value then ansi.cyan ++ ansi.bold ++ lit "No" ++ ansi.reset
    else ansi.dim ++ lit "No" ++ ansi.reset in
  write (question ++ lit " " ++ yes ++ lit " / " ++ no).

Definition confirm_onKey (question : jsstring)
    (key : Key) (value : bool) : M (Ctl bool) :=
  when (has_type key "ctrl-c") (setRaw false ;; exit 130) ;;
  if has_type key "enter" then write LF ;; ret (Break value)
  else
    value <-
      (if has_type key "left" || has_type key "right" || has_type key "up"
          || has_type key "down"
       then
         let value := negb value in
         confirm_render question value ;; ret value
       else ret value) ;;
    value <-
      (match key with
       | KChar char =>
           if jsstring_eqb (toLowerCase char) (lit "y")
           then confirm_render question true ;; ret true
           else if jsstring_eqb (toLowerCase char) (lit "n")
           then confirm_render question false ;; ret false
           else ret value
       | _ => ret value
       end) ;;
    ret (Continue value).

Definition confirm (stdin : Stdin) (question : jsstring)
    (defaultValue : bool) : M bool :=
  if negb (isTerminal stdin) then
    let hint := if defaultValue then lit "[Y/n]" else lit "[y/N]" in
    result <- prompt stdin (question ++ lit " " ++ hint ++ lit ":") ;;
    match result with
    | None => ret defaultValue
    | Some result =>
        if jsstring_eqb (trim result) (lit "") then ret defaultValue
        else
          let lower := toLowerCase (trim result) in
          ret (jsstring_eqb lower (lit "y") || jsstring_eqb lower (lit "yes"))
    end
  else
    try_finally
      (setRaw true ;;
       confirm_render question defaultValue ;;
       readKey_loop (confirm_onKey question) (reads stdin) defaultValue)
      (setRaw false).

(* ------------------------------------------------------------------ *)
(** ** The decoding rules of the specification *)

(** The rules of the key decoder as the specification lists them, in priority
    order, on the bytes of one non-empty read. *)
Definition key_rules (chunk : list byte) : Key :=
  match chunk with
  | x03 :: _ => KCtrlC
  | x0d :: _ => KEnter
  | x7f :: _ => KBackspace
  | x08 :: _ => KBackspace
  | [x1b] => KEscape
  | x1b :: x5b :: x41 :: _ => KUp
  | x1b :: x5b :: x42 :: _ => KDown
  | x1b :: x5b :: x43 :: _ => KRight
  | x1b :: x5b :: x44 :: _ => KLeft
  | x1b :: _ => KUnknown
  | _ => KChar (TextDecoder.decode chunk)
  end.

(* ------------------------------------------------------------------ *)
(** ** Reasoning about prompt code *)

(** The terminal [t] after the further effects [evs], raw mode untouched. *)
Definition after (t : Term) (evs : list Event) : Term :=
  mkTerm (rawMode t) (effects t ++ evs).

(** [m] returns [a] after exactly [n] writes to standard output and nothing
    else. *)
Definition writer {A} (m : M A) (a : A) (n : nat) : Prop :=
  exists ws, List.length ws = n /\
             forall t, m t = (Returned a, after t (map EvWrite ws)).

Definition count_writes (evs : list Event) : nat :=
  List.length (filter (fun e => match e with EvWrite _ => true | _ => false end) evs).

(** The key a resolved read decodes to; a rejected read gives none. *)
Definition keyOf (r : ReadResult) : option Key :=
  match r with
  | ReadNull => Some (decodeKey None)
  | ReadBytes bs => Some (decodeKey (Some bs))
  | ReadFails => None
  end.

(** The same standard input, delivering the reads [rs] after its own. *)
Definition more (stdin : Stdin) (rs : list ReadResult) : Stdin :=
  mkStdin (isTerminal stdin) (reads stdin ++ rs) (line stdin).

Definition is_io (e : Event) : Prop :=
  match e with EvWrite _ | EvRead _ => True | _ => False end.

Definition is_write (e : Event) : Prop :=
  match e with EvWrite _ => True | _ => False end.

(** The effects of a call that holds raw mode for the time of its prompt loop
    and no longer: raw mode is engaged first, the loop only reads and writes,
    and whatever ends the loop disengages raw mode, after which standard
    output may still be written and, on an interrupt, the process ends with
    status 130. While the call is suspended on a read the loop is running. *)
Inductive raw_scoped {A} : Outcome A -> list Event -> Prop :=
| scoped_awaiting : forall loop,
    Forall is_io loop ->
    raw_scoped Blocked (EvSetRaw true :: loop)
| scoped_return : forall a loop rest,
    Forall is_io loop -> Forall is_write rest ->
    raw_scoped (Returned a) (EvSetRaw true :: loop ++ EvSetRaw false :: rest)
| scoped_throw : forall loop rest,
    Forall is_io loop -> Forall is_write rest ->
    raw_scoped Threw (EvSetRaw true :: loop ++ EvSetRaw false :: rest)
| scoped_interrupt : forall loop,
    Forall is_io loop ->
    raw_scoped (Exited 130) (EvSetRaw true :: loop ++ [EvSetRaw false; EvExit 130]).

Definition holds_raw_for_its_loop {A} (m : M A) : Prop :=
  forall t,
    exists evs,
      effects (snd (m t)) = effects t ++ evs /\
      raw_scoped (fst (m t)) evs /\
      rawMode (snd (m t)) = match fst (m t) with Blocked => true | _ => false end.

(** What a loop body must do for the lemmas on [readKey_loop]: on the
    interrupt key write [restore], leave raw mode and exit with 130; on enter
    break with the loop variable unchanged; on any other key only write and
    go on. *)
Record body_ok {S} (body : Key -> S -> M (Ctl S)) (restore : list jsstring)
    (next : Key -> S -> S) : Prop :=
  { on_interrupt : forall s t,
      body KCtrlC s t =
      (Exited 130,
       mkTerm false (effects t ++ map EvWrite restore ++ [EvSetRaw false; EvExit 130]));
    on_enter : forall s, exists n, writer (body KEnter s) (Break s) n;
    on_other : forall key s,
      key <> KCtrlC -> key <> KEnter ->
      exists n, writer (body key s) (Continue (next key s)) n }.

(* ------------------------------------------------------------------ *)
(** ** The loop variable after one key *)

(** The value of the loop variable at the end of one iteration, for a key
    that neither interrupts nor submits. *)
Definition select_next (options : list jsstring) (key : Key) (selected : Z) : Z :=
  let len := Z.of_nat (List.length options) in
  match key with
  | KUp => if selected >? 0 then selected - 1 else selected
  | KDown => if selected <? len - 1 then selected + 1 else selected
  | KChar char =>
      match parseInt char with
      | Some num => if (num >=? 1) && (num <=? len) then num - 1 else selected
      | None => selected
      end
  | _ => selected
  end.

Definition input_next (key : Key) (value : jsstring) : jsstring :=
  match key with
  | KBackspace =>
      if Z.of_nat (List.length value) >? 0 then slice_0_m1 value else value
  | KChar char => value ++ char
  | _ => value
  end.

Definition rating_next (min max : Z) (key : Key) (value : Z) : Z :=
  match key with
  | KLeft | KDown => if value >? min then value - 1 else value
  | KRight | KUp => if value <? max then value + 1 else value
  | KChar char =>
      match parseInt char with
      | Some num => if (num >=? min) && (num <=? max) then num else value
      | None => value
      end
  | _ => value
  end.

Definition confirm_next (key : Key) (value : bool) : bool :=
  match key with
  | KUp | KDown | KLeft | KRight => negb value
  | KChar char =>
      if jsstring_eqb (toLowerCase char) (lit "y") then true
      else if jsstring_eqb (toLowerCase char) (lit "n") then false
      else value
  | _ => value
  end.

(* ------------------------------------------------------------------ *)
(** ** The [try] and [finally] blocks of the interactive paths *)

Definition select_try (question : jsstring) (options : list jsstring)
    (defaultIndex : Z) (rs : list ReadResult) : M Z :=
  setRaw true ;;
  write ansi.hideCursor ;;
  select_render question options defaultIndex ;;
  readKey_loop (select_onKey question options) rs defaultIndex.

Definition select_finally : M unit := setRaw false ;; write ansi.showCursor.

Definition input_try (question defaultValue : jsstring) (rs : list ReadResult)
  : M jsstring :=
  setRaw true ;;
  input_render question defaultValue (lit "") ;;
  readKey_loop (input_onKey question defaultValue) rs (lit "").

Definition rating_try (question : jsstring) (min max defaultValue : Z)
    (rs : list ReadResult) : M Z :=
  setRaw true ;;
  rating_render question min max defaultValue ;;
  readKey_loop (rating_onKey question min max) rs defaultValue.

Definition confirm_try (question : jsstring) (defaultValue : bool)
    (rs : list ReadResult) : M bool :=
  setRaw true ;;
  confirm_render question defaultValue ;;
  readKey_loop (confirm_onKey question) rs defaultValue.

(** A computation followed by a pure adjustment of its result. *)
Definition Outcome_map {A B} (f : A -> B) (o : Outcome A) : Outcome B :=
  match o with
  | Returned a => Returned (f a)
  | Exited c => Exited c
  | Threw => Threw
  | Blocked => Blocked
  end.

(** Single key presses, as the reads a terminal in raw mode delivers. *)
Definition press_enter : ReadResult := ReadBytes [x0d].
Definition press_backspace : ReadResult := ReadBytes [x7f].
Definition press_up : ReadResult := ReadBytes [x1b; x5b; x41].
Definition press_down : ReadResult := ReadBytes [x1b; x5b; x42].
Definition press_right : ReadResult := ReadBytes [x1b; x5b; x43].
Definition press_left : ReadResult := ReadBytes [x1b; x5b; x44].
Definition press_ctrl_c : ReadResult := ReadBytes [x03].
Definition type_text (s : string) : ReadResult := ReadBytes (list_byte_of_string s).

(** An interactive terminal that delivers the reads [rs]. *)
Definition tty (rs : list ReadResult) : Stdin := mkStdin true rs None.

(* ------------------------------------------------------------------ *)
(** ** Runs of keys *)

(** The loop variable after the keys [keys], taken one after the other. *)
Definition run_keys {S} (next : Key -> S -> S) (keys : list Key) (s : S) : S :=
  fold_left (fun s key => next key s) keys s.

(** [r] is a read of the key [key], which neither interrupts nor submits. *)
Definition reads_key (r : ReadResult) (key : Key) : Prop :=
  keyOf r = Some key /\ key <> KCtrlC /\ key <> KEnter.

(** [r] is a read that ends a prompt loop: a rejected read, the interrupt
    key or enter. *)
Definition ends_loop (r : ReadResult) : Prop :=
  keyOf r = None \/ keyOf r = Some KCtrlC \/ keyOf r = Some KEnter.

(** The interactive path in one shape: raw mode is engaged and the first
    frame written, the loop runs from [s0] on the reads [rs], and the
    [finally] block leaves raw mode and writes [last_writes]. *)
Definition prompt_run {S} (body : Key -> S -> M (Ctl S))
    (first_frame last_writes : list jsstring) (s0 : S) (rs : list ReadResult) : M S :=
  try_finally
    (fun t =>
       readKey_loop body rs s0
         (mkTerm true (effects t ++ EvSetRaw true :: map EvWrite first_frame)))
    (fun t =>
       (Returned tt,
        mkTerm false (effects t ++ EvSetRaw false :: map EvWrite last_writes))).

(** On a terminal, [call] is the prompt of the loop body [body], whose loop
    variable starts at [s0], moves by [next] and is turned into the result
    by [finish]. *)
Definition prompt_of {S R} (call : Stdin -> M R) (body : Key -> S -> M (Ctl S))
    (restore : list jsstring) (next : Key -> S -> S) (s0 : S) (finish : S -> R)
    (last_writes : list jsstring) : Prop :=
  body_ok body restore next /\
  exists first_frame,
    forall stdin t,
      isTerminal stdin = true ->
      call stdin t =
      (v <- prompt_run body first_frame last_writes s0 (reads stdin) ;;
       ret (finish v)) t.

(** The read [r], arriving while [call] waits for a key after the reads of
    [stdin], is passed over: the call goes on waiting, the read is the only
    new effect, and whatever comes next has the outcome it would have had
    without [r]. *)
Definition passes_over {R} (call : Stdin -> M R) (stdin : Stdin)
    (r : ReadResult) (t : Term) : Prop :=
  call (more stdin [r]) t = (Blocked, after (snd (call stdin t)) [EvRead r]) /\
  forall rest,
    fst (call (more stdin (r :: rest)) t) = fst (call (more stdin rest) t).

(** The number of line feeds written to standard output by the effects
    [evs]. *)
Definition line_feeds (evs : list Event) : nat :=
  fold_right
    (fun e n =>
       match e with
       | EvWrite text => (count_occ N.eq_dec text 10%N + n)%nat
       | _ => n
       end)
    0%nat evs.

(** [m] returns after effects that write [n] line feeds. *)
Definition feeds (m : M unit) (n : nat) : Prop :=
  exists evs, line_feeds evs = n /\ forall t, m t = (Returned tt, after t evs).

(** The effects of drawing a frame, on their own. *)
Definition frame_of (render : M unit) : list Event :=
  effects (snd (render (mkTerm false []))).

Definition is_read (e : Event) : Prop :=
  match e with EvRead _ => True | _ => False end.

(** A byte of printable ASCII, space to tilde. *)
Definition printable (b : byte) : bool :=
  ((32 <=? Byte.to_N b) && (Byte.to_N b <=? 126))%N.

(** The events a call appends in its fallback path: lines on the console
    and the question of [prompt]. *)
Definition is_console (e : Event) : Prop :=
  match e with EvLog _ | EvPrompt _ => True | _ => False end.

(** [m] returns [a] after [n] effects that are all console lines or the
    question of [prompt], and nothing else. *)
Definition logger {A} (m : M A) (a : A) (n : nat) : Prop :=
  exists evs, List.length evs = n /\ Forall is_console evs /\
              forall t, m t = (Returned a, after t evs).

(** While [call] waits for a key on [stdin], the read [r] is followed by
    the effects [drawn] and by nothing else, and the call waits again. *)
Definition goes_on_with {R} (call : Stdin -> M R) (stdin : Stdin)
    (r : ReadResult) (t : Term) (drawn : list Event) : Prop :=
  call (more stdin [r]) t
  = (Blocked, after (snd (call stdin t)) (EvRead r :: drawn)).

(** A character as a reader counts them, a code point: a high surrogate
    followed by a low one is one character of two code units.
    [drop_last_character] is a text without its last character in that
    sense, to compare with what backspace leaves of the buffer. *)
Definition is_surrogate_pair (high low : code_unit) : bool :=
  ((55296 <=? high) && (high <=? 56319) && (56320 <=? low) && (low <=? 57343))%N.

Fixpoint drop_last_character (s : jsstring) : jsstring :=
  match s with
  | [] => []
  | c :: rest =>
      match rest with
      | [] => []
      | [low] => if is_surrogate_pair c low then [] else [c]
      | _ => c :: drop_last_character rest
      end
  end.

(* ------------------------------------------------------------------ *)
(** ** The models of the platform functions on examples *)

Example decode_ascii : TextDecoder.decode [x78; x79] = lit "xy".
Proof. reflexivity. Qed.

Example decode_heavy_angle : TextDecoder.decode [xe2; x9d; xaf] = [10095%N].
Proof. reflexivity. Qed.

Example decode_emoji : TextDecoder.decode [xf0; x9f; x98; x80] = [55357%N; 56832%N].
Proof. reflexivity. Qed.

Example parseInt_examples :
  parseInt (lit "42") = Some 42 /\ parseInt (lit " -7x") = Some (-7) /\
  parseInt (lit "x1") = None /\ parseInt (lit "") = None /\
  Number_toString 12 = lit "12" /\ Number_toString (-3) = lit "-3" /\
  Number_toString 0 = lit "0".
Proof. repeat split; reflexivity. Qed.

Example confirm_trace :
  confirm (tty [press_left; press_enter]) (lit "Sure") false (mkTerm false []) =
  (Returned true,
   mkTerm false
     [EvSetRaw true;
      EvWrite (CR ++ ansi.clearLine);
      EvWrite (lit "Sure " ++ ansi.dim ++ lit "Yes" ++ ansi.reset ++ lit " / "
                 ++ ansi.cyan ++ ansi.bold ++ lit "No" ++ ansi.reset);
      EvRead press_left;
      EvWrite (CR ++ ansi.clearLine);
      EvWrite (lit "Sure " ++ ansi.cyan ++ ansi.bold ++ lit "Yes" ++ ansi.reset
                 ++ lit " / " ++ ansi.dim ++ lit "No" ++ ansi.reset);
      EvRead press_enter;
      EvWrite LF;
      EvSetRaw false]).
Proof. reflexivity. Qed.

Example select_interrupt_trace :
  select (tty [press_ctrl_c; press_enter]) (lit "Pick") [lit "a"] 0 (mkTerm false []) =
  (Exited 130,
   mkTerm false
     [EvSetRaw true;
      EvWrite ansi.hideCursor;
      EvWrite (CR ++ ansi.clearLine);
      EvWrite (lit "Pick" ++ LF);
      EvWrite ansi.clearLine;
      EvWrite (ansi.cyan ++ [10095%N] ++ lit " a" ++ ansi.reset ++ LF);
      EvRead press_ctrl_c;
      EvWrite ansi.showCursor;
      EvSetRaw false;
      EvExit 130]).
Proof. reflexivity. Qed.

Example select_fallback_trace :
  select (mkStdin false [] (Some (lit " 2 "))) (lit "Pick") [lit "a"; lit "b"] 0
    (mkTerm false []) =
  (Returned 0,
   mkTerm false
     [EvLog (lit "Pick");
      EvLog (lit "  > 1. a");
      EvLog (lit "    2. b");
      EvPrompt (lit "Choice [1]:")]).
Proof. reflexivity. Qed.

Example read_failure_trace :
  rating (tty [ReadFails]) (lit "Rate") 1 2 1 (mkTerm false []) =
  (Threw,
   mkTerm false
     [EvSetRaw true;
      EvWrite (CR ++ ansi.clearLine);
      EvWrite (lit "Rate: " ++ ansi.cyan ++ ansi.bold ++ lit "1" ++ ansi.reset ++ lit " "
                 ++ ansi.dim ++ lit "2" ++ ansi.reset ++ lit " ");
      EvRead ReadFails;
      EvSetRaw false]).
Proof. reflexivity. Qed.

(* ------------------------------------------------------------------ *)
(** ** Writers *)

Section Writers.

Lemma after_nil t : after t [] = t.
Proof. destruct t; unfold after; simpl. now rewrite app_nil_r. Qed.

Lemma after_after t e1 e2 : after (after t e1) e2 = after t (e1 ++ e2).
Proof. unfold after; simpl. now rewrite app_assoc. Qed.

Lemma writer_ret {A} (a : A) : writer (ret a) a 0.
Proof. exists []. split; [reflexivity|]. intro t. unfold ret. now rewrite after_nil. Qed.

Lemma writer_write text : writer (write text) tt 1.
Proof. exists [text]. split; [reflexivity|]. intro t. reflexivity. Qed.

Lemma writer_bind {A B} (m : M A) (k : A -> M B) a b n1 n2 n :
  writer m a n1 -> writer (k a) b n2 -> n = (n1 + n2)%nat ->
  writer (bind m k) b n.
Proof.
  intros (w1 & L1 & E1) (w2 & L2 & E2) ->.
  exists (w1 ++ w2). split.
  - rewrite length_app. congruence.
  - intro t. unfold bind. rewrite E1, E2, after_after, map_app. reflexivity.
Qed.

Lemma bind_ret_l {A B} (a : A) (k : A -> M B) : bind (ret a) k = k a.
Proof. reflexivity. Qed.

Lemma writer_run {A} (m : M A) a n t :
  writer m a n ->
  exists ws, List.length ws = n /\ m t = (Returned a, after t (map EvWrite ws)).
Proof. intros (ws & L & E). exists ws. auto. Qed.

Lemma writer_fst {A} (m : M A) a n t : writer m a n -> fst (m t) = Returned a.
Proof. intros (ws & _ & E). now rewrite E. Qed.

Lemma count_writes_app e1 e2 :
  count_writes (e1 ++ e2) = (count_writes e1 + count_writes e2)%nat.
Proof. unfold count_writes. now rewrite filter_app, length_app. Qed.

Lemma count_writes_map ws : count_writes (map EvWrite ws) = List.length ws.
Proof.
  unfold count_writes. induction ws as [|w ws IH]; simpl; [reflexivity|].
  now rewrite IH.
Qed.

Lemma writer_count {A} (m : M A) a n t :
  writer m a n ->
  count_writes (effects (snd (m t))) = (count_writes (effects t) + n)%nat.
Proof.
  intros (ws & L & E). rewrite E. simpl.
  now rewrite count_writes_app, count_writes_map, L.
Qed.

Lemma Forall_is_write_map ws : Forall is_write (map EvWrite ws).
Proof. induction ws; simpl; constructor; simpl; auto. Qed.

Lemma Forall_is_io_map ws : Forall is_io (map EvWrite ws).
Proof. induction ws; simpl; constructor; simpl; auto. Qed.

End Writers.

Create HintDb writers.

(** Solves [writer m ?a ?n] for a straight-line [m] built from [ret],
    [write], [bind] and the computations of the hint database. *)
Ltac writers :=
  lazymatch goal with
  | |- writer (ret _) _ _ => apply writer_ret
  | |- writer (write _) _ _ => apply writer_write
  | |- writer (bind _ _) _ _ =>
      eapply writer_bind; [ writers | cbv beta; writers | try reflexivity ]
  | |- _ => solve [ auto with writers ]
  end.

(** Equality of two lists of effects up to the bracketing of [++]. *)
Ltac same_effects :=
  simpl; rewrite <- ?app_assoc; simpl; rewrite <- ?app_assoc; reflexivity.

(* ------------------------------------------------------------------ *)
(** ** The prompt loop *)

Lemma readKey_eq r t :
  readKey r t =
  match keyOf r with
  | Some key => (Returned key, after t [EvRead r])
  | None => (Threw, after t [EvRead r])
  end.
Proof. destruct r; reflexivity. Qed.

Lemma Key_cases (key : Key) :
  key = KCtrlC \/ key = KEnter \/ (key <> KCtrlC /\ key <> KEnter).
Proof. destruct key; auto; right; right; split; discriminate. Qed.

Section Loop.

Context {S : Type} (body : Key -> S -> M (Ctl S)).
Context (restore : list jsstring) (next : Key -> S -> S).
Hypothesis body_spec : body_ok body restore next.

Lemma loop_fails r rest s t :
  keyOf r = None ->
  readKey_loop body (r :: rest) s t = (Threw, after t [EvRead r]).
Proof.
  intro K. simpl. unfold bind. rewrite readKey_eq, K. reflexivity.
Qed.

Lemma loop_interrupt r rest s t :
  keyOf r = Some KCtrlC ->
  readKey_loop body (r :: rest) s t =
  (Exited 130,
   mkTerm false
     (effects t ++ EvRead r :: map EvWrite restore ++ [EvSetRaw false; EvExit 130])).
Proof.
  intro K. simpl. unfold bind. rewrite readKey_eq, K.
  rewrite (on_interrupt _ _ _ body_spec). simpl.
  now rewrite <- app_assoc.
Qed.

Lemma loop_enter r rest s t :
  keyOf r = Some KEnter ->
  exists ws,
    readKey_loop body (r :: rest) s t =
    (Returned s, after t (EvRead r :: map EvWrite ws)).
Proof.
  intro K. destruct (on_enter _ _ _ body_spec s) as (n & ws & _ & E).
  exists ws. simpl. unfold bind. rewrite readKey_eq, K, E, after_after.
  reflexivity.
Qed.

Lemma loop_other r key rest s t :
  keyOf r = Some key -> key <> KCtrlC -> key <> KEnter ->
  exists ws,
    readKey_loop body (r :: rest) s t =
    readKey_loop body rest (next key s) (after t (EvRead r :: map EvWrite ws)).
Proof.
  intros K N1 N2.
  destruct (on_other _ _ _ body_spec key s N1 N2) as (n & ws & _ & E).
  exists ws. simpl. unfold bind. rewrite readKey_eq, K, E, after_after.
  reflexivity.
Qed.

(** The effects of the loop: reads and writes only, then, when it is the
    interrupt key that ended it, the leaving of raw mode and the exit. *)
Lemma loop_trace rs : forall s t,
  exists evs,
    Forall is_io evs /\
    match fst (readKey_loop body rs s t) with
    | Exited c =>
        c = 130 /\
        snd (readKey_loop body rs s t) =
        mkTerm false (effects t ++ evs ++ [EvSetRaw false; EvExit 130])
    | _ => snd (readKey_loop body rs s t) = after t evs
    end.
Proof.
  induction rs as [|r rest IH]; intros s t.
  - exists []. split; [constructor|]. simpl. now rewrite after_nil.
  - destruct (keyOf r) as [key|] eqn:K.
    + destruct (Key_cases key) as [-> | [-> | [N1 N2]]].
      * rewrite (loop_interrupt _ _ _ _ K). simpl.
        exists (EvRead r :: map EvWrite restore). split.
        { constructor; [exact I | apply Forall_is_io_map]. }
        split; reflexivity.
      * destruct (loop_enter r rest s t K) as (ws & E). rewrite E. simpl.
        exists (EvRead r :: map EvWrite ws). split; [|reflexivity].
        constructor; [exact I | apply Forall_is_io_map].
      * destruct (loop_other r key rest s t K N1 N2) as (ws & E). rewrite E.
        destruct (IH (next key s) (after t (EvRead r :: map EvWrite ws)))
          as (evs & F & H).
        exists ((EvRead r :: map EvWrite ws) ++ evs). split.
        { apply Forall_app. split; [|exact F].
          constructor; [exact I | apply Forall_is_io_map]. }
        destruct (fst (readKey_loop body rest (next key s) _));
          try (rewrite H, after_after; reflexivity).
        destruct H as [-> H]. split; [reflexivity|].
        rewrite H. simpl. now rewrite <- !app_assoc.
    + rewrite (loop_fails _ _ _ _ K). simpl.
      exists [EvRead r]. split; [|reflexivity]. constructor; [exact I|constructor].
Qed.

(** A loop that is suspended after the reads [rs] goes on, when further
    reads arrive, from the state and the terminal it was suspended in. *)
Lemma loop_resume (Inv : S -> Prop) rs :
  (forall key s, Inv s -> Inv (next key s)) ->
  forall s t,
    Inv s ->
    fst (readKey_loop body rs s t) = Blocked ->
    exists s',
      Inv s' /\
      forall rest,
        readKey_loop body (rs ++ rest) s t =
        readKey_loop body rest s' (snd (readKey_loop body rs s t)).
Proof.
  intros Hinv. induction rs as [|r rs' IH]; intros s t I0 B.
  - exists s. split; [exact I0|]. intro rest. reflexivity.
  - destruct (keyOf r) as [key|] eqn:K.
    + destruct (Key_cases key) as [-> | [-> | [N1 N2]]].
      * rewrite (loop_interrupt _ _ _ _ K) in B. discriminate.
      * destruct (loop_enter r rs' s t K) as (ws & E). rewrite E in B.
        discriminate.
      * destruct (on_other _ _ _ body_spec key s N1 N2) as (n & ws & _ & E).
        assert (step : forall rest,
                   readKey_loop body (r :: rest) s t =
                   readKey_loop body rest (next key s)
                     (after t (EvRead r :: map EvWrite ws))).
        { intro rest. simpl. unfold bind.
          rewrite readKey_eq, K, E, after_after. reflexivity. }
        rewrite step in B.
        destruct (IH (next key s) _ (Hinv key s I0) B) as (s' & I' & R).
        exists s'. split; [exact I'|]. intro rest.
        rewrite <- app_comm_cons, !step. apply R.
    + rewrite (loop_fails _ _ _ _ K) in B. discriminate.
Qed.

Lemma loop_blocked_raw rs s t :
  fst (readKey_loop body rs s t) = Blocked ->
  rawMode (snd (readKey_loop body rs s t)) = rawMode t.
Proof.
  intro B. destruct (loop_trace rs s t) as (evs & _ & H).
  rewrite B in H. now rewrite H.
Qed.

(** *** A whole interactive call

    [prog rs] is the [try] block of a widget on the coming reads [rs]: it
    engages raw mode, draws the first frame and runs the loop from [s0];
    [fin] is its [finally] block. *)
Context (prog : list ReadResult -> M S) (fin : M unit) (s0 : S).
Context (first_frame last_writes : list jsstring).

Hypothesis prog_spec : forall rs t,
  prog rs t =
  readKey_loop body rs s0
    (mkTerm true (effects t ++ EvSetRaw true :: map EvWrite first_frame)).

Hypothesis fin_spec : forall t,
  fin t =
  (Returned tt, mkTerm false (effects t ++ EvSetRaw false :: map EvWrite last_writes)).

Lemma call_scoped rs : holds_raw_for_its_loop (try_finally (prog rs) fin).
Proof.
  intro t. unfold try_finally. rewrite prog_spec.
  set (t1 := mkTerm true (effects t ++ EvSetRaw true :: map EvWrite first_frame)).
  destruct (loop_trace rs s0 t1) as (evs & F & H).
  assert (F1 : Forall is_io (map EvWrite first_frame ++ evs)).
  { apply Forall_app. split; [apply Forall_is_io_map | exact F]. }
  destruct (readKey_loop body rs s0 t1) as [[s'|c| |] t'] eqn:E; simpl in H.
  - subst t'. unfold bind. rewrite fin_spec. simpl.
    exists (EvSetRaw true :: (map EvWrite first_frame ++ evs)
              ++ EvSetRaw false :: map EvWrite last_writes).
    split; [|split; [|reflexivity]].
    + same_effects.
    + constructor; [exact F1 | apply Forall_is_write_map].
  - destruct H as [-> ->]. simpl.
    exists (EvSetRaw true :: (map EvWrite first_frame ++ evs)
              ++ [EvSetRaw false; EvExit 130]).
    split; [|split; [|reflexivity]].
    + same_effects.
    + constructor. exact F1.
  - subst t'. unfold bind. rewrite fin_spec. simpl.
    exists (EvSetRaw true :: (map EvWrite first_frame ++ evs)
              ++ EvSetRaw false :: map EvWrite last_writes).
    split; [|split; [|reflexivity]].
    + same_effects.
    + constructor; [exact F1 | apply Forall_is_write_map].
  - subst t'. simpl.
    exists (EvSetRaw true :: (map EvWrite first_frame ++ evs)).
    split; [|split; [|reflexivity]].
    + same_effects.
    + constructor. exact F1.
Qed.

Lemma call_blocked rs t :
  fst (try_finally (prog rs) fin t) = Blocked ->
  fst (prog rs t) = Blocked /\ try_finally (prog rs) fin t = prog rs t.
Proof.
  unfold try_finally, bind. destruct (prog rs t) as [[s'|c| |] t'] eqn:E;
    try rewrite fin_spec; simpl; try discriminate. auto.
Qed.

(** What a call suspended after the reads [rs] does with the next keys. *)
Lemma call_next (Inv : S -> Prop) rs t :
  (forall key s, Inv s -> Inv (next key s)) ->
  Inv s0 ->
  fst (try_finally (prog rs) fin t) = Blocked ->
  exists s,
    Inv s /\
    (forall e rest,
        keyOf e = Some KEnter ->
        fst (try_finally (prog (rs ++ e :: rest)) fin t) = Returned s) /\
    (forall r key e rest,
        keyOf r = Some key -> key <> KCtrlC -> key <> KEnter ->
        keyOf e = Some KEnter ->
        fst (try_finally (prog (rs ++ r :: e :: rest)) fin t) =
        Returned (next key s)) /\
    (forall r rest,
        keyOf r = Some KCtrlC ->
        try_finally (prog (rs ++ r :: rest)) fin t =
        (Exited 130,
         mkTerm false
           (effects (snd (try_finally (prog rs) fin t))
              ++ EvRead r :: map EvWrite restore ++ [EvSetRaw false; EvExit 130]))).
Proof.
  intros Hinv I0 B. destruct (call_blocked rs t B) as [B1 E1].
  rewrite E1. rewrite prog_spec in B1 |- *.
  destruct (loop_resume Inv rs Hinv s0 _ I0 B1) as (s & Is & R).
  exists s. split; [exact Is|]. repeat split.
  - intros e rest K. unfold try_finally. rewrite prog_spec, R.
    match goal with
    | |- context [readKey_loop body (e :: rest) ?s1 ?t1] =>
        destruct (loop_enter e rest s1 t1 K) as (ws & ->)
    end.
    unfold bind. now rewrite fin_spec.
  - intros r key e rest K N1 N2 Ke. unfold try_finally. rewrite prog_spec, R.
    match goal with
    | |- context [readKey_loop body (r :: e :: rest) ?s1 ?t1] =>
        destruct (loop_other r key (e :: rest) s1 t1 K N1 N2) as (ws & ->)
    end.
    match goal with
    | |- context [readKey_loop body (e :: rest) ?s1 ?t1] =>
        destruct (loop_enter e rest s1 t1 Ke) as (ws' & ->)
    end.
    unfold bind. now rewrite fin_spec.
  - intros r rest K. unfold try_finally. rewrite prog_spec, R.
    now rewrite (loop_interrupt _ _ _ _ K).
Qed.

(** Enter as the very first key returns the initial state. *)
Lemma call_enter_first e rest t :
  keyOf e = Some KEnter ->
  fst (try_finally (prog (e :: rest)) fin t) = Returned s0.
Proof.
  intro K. unfold try_finally. rewrite prog_spec.
  match goal with
  | |- context [readKey_loop body (e :: rest) ?s1 ?t1] =>
      destruct (loop_enter e rest s1 t1 K) as (ws & ->)
  end.
  unfold bind. now rewrite fin_spec.
Qed.

Lemma call_awaits_first_key t :
  fst (try_finally (prog []) fin t) = Blocked.
Proof. unfold try_finally. rewrite prog_spec. reflexivity. Qed.

End Loop.

(* ------------------------------------------------------------------ *)
(** ** The frames and the loop bodies of the four widgets *)

Lemma forEach_from_writer {A} (f : A -> Z -> M unit) k xs :
  (forall x i, writer (f x i) tt k) ->
  forall i, writer (forEach_from i xs f) tt (k * List.length xs).
Proof.
  intros Hf. induction xs as [|x xs IH]; intro i; simpl.
  - rewrite Nat.mul_0_r. apply writer_ret.
  - eapply writer_bind; [apply Hf | apply IH | lia].
Qed.

Lemma select_render_writer question options selected :
  writer (select_render question options selected) tt
    (2 + 2 * List.length options).
Proof.
  unfold select_render, forEach.
  eapply writer_bind; [apply writer_write | | reflexivity].
  eapply writer_bind; [apply writer_write | | reflexivity].
  apply forEach_from_writer. intros opt i.
  destruct (i =? selected); writers.
Qed.

Lemma select_moveUp_writer options : writer (select_moveUp options) tt 1.
Proof. apply writer_write. Qed.

#[local] Hint Resolve select_render_writer select_moveUp_writer : writers.

Lemma input_render_writer question defaultValue value :
  writer (input_render question defaultValue value) tt 2.
Proof.
  unfold input_render.
  destruct (truthy value); [|destruct (truthy defaultValue)]; writers.
Qed.

Lemma rating_render_writer question min max value :
  writer (rating_render question min max value) tt 2.
Proof. unfold rating_render. writers. Qed.

Lemma confirm_render_writer question value :
  writer (confirm_render question value) tt 2.
Proof. unfold confirm_render. writers. Qed.

#[local] Hint Resolve input_render_writer rating_render_writer
  confirm_render_writer : writers.

Ltac body_interrupt :=
  intros s t; cbv [bind when has_type Key_type String.eqb Ascii.eqb Bool.eqb
                     write setRaw exit emit rawMode effects];
  f_equal; f_equal; same_effects.

(** One iteration on a given key: decide the tests of the body, then count
    its writes. *)
Ltac body_writes :=
  simpl;
  repeat (rewrite bind_ret_l; cbv beta);
  repeat match goal with
         | |- context [if ?c then _ else _] => destruct c
         | |- context [match ?o with Some _ => _ | None => _ end] => destruct o
         end;
  eexists; writers.

Lemma select_body_ok question options :
  body_ok (select_onKey question options) [ansi.showCursor] (select_next options).
Proof.
  constructor.
  - unfold select_onKey. body_interrupt.
  - intro s. unfold select_onKey. body_writes.
  - intros key s N1 N2. unfold select_onKey, select_next.
    destruct key; try congruence; body_writes.
Qed.

Lemma input_body_ok question defaultValue :
  body_ok (input_onKey question defaultValue) [] input_next.
Proof.
  constructor.
  - unfold input_onKey. body_interrupt.
  - intro s. unfold input_onKey. body_writes.
  - intros key s N1 N2. unfold input_onKey, input_next.
    destruct key; try congruence; body_writes.
Qed.

Lemma rating_body_ok question min max :
  body_ok (rating_onKey question min max) [] (rating_next min max).
Proof.
  constructor.
  - unfold rating_onKey. body_interrupt.
  - intro s. unfold rating_onKey. body_writes.
  - intros key s N1 N2. unfold rating_onKey, rating_next.
    destruct key; try congruence; body_writes.
Qed.

Lemma confirm_body_ok question :
  body_ok (confirm_onKey question) [] confirm_next.
Proof.
  constructor.
  - unfold confirm_onKey. body_interrupt.
  - intro s. unfold confirm_onKey. body_writes.
  - intros key s N1 N2. unfold confirm_onKey, confirm_next.
    destruct key; try congruence; body_writes.
Qed.

(** Each widget's interactive path is its [try] block under its [finally]
    block. *)
Lemma select_interactive stdin question options defaultIndex :
  isTerminal stdin = true -> options <> [] ->
  select stdin question options defaultIndex =
  try_finally (select_try question options defaultIndex (reads stdin)) select_finally.
Proof.
  intros T N. unfold select. rewrite T.
  destruct options as [|o os]; [congruence|]. reflexivity.
Qed.

Lemma input_interactive stdin question defaultValue :
  isTerminal stdin = true ->
  input stdin question defaultValue =
  (value <- try_finally (input_try question defaultValue (reads stdin)) (setRaw false) ;;
   ret (if truthy value then value else defaultValue)).
Proof. intros T. unfold input. rewrite T. reflexivity. Qed.

Lemma rating_interactive stdin question min max defaultValue :
  isTerminal stdin = true ->
  rating stdin question min max defaultValue =
  try_finally (rating_try question min max defaultValue (reads stdin)) (setRaw false).
Proof. intros T. unfold rating. rewrite T. reflexivity. Qed.

Lemma confirm_interactive stdin question defaultValue :
  isTerminal stdin = true ->
  confirm stdin question defaultValue =
  try_finally (confirm_try question defaultValue (reads stdin)) (setRaw false).
Proof. intros T. unfold confirm. rewrite T. reflexivity. Qed.

(** Each [try] block engages raw mode, writes its first frame and enters the
    loop. *)
Lemma select_try_spec question options defaultIndex :
  exists first_frame,
    forall rs t,
      select_try question options defaultIndex rs t =
      readKey_loop (select_onKey question options) rs defaultIndex
        (mkTerm true (effects t ++ EvSetRaw true :: map EvWrite first_frame)).
Proof.
  destruct (select_render_writer question options defaultIndex) as (ws & _ & E).
  exists (ansi.hideCursor :: ws). intros rs t.
  unfold select_try, bind at 1 2 3. simpl. rewrite E.
  unfold after. simpl. f_equal. f_equal. same_effects.
Qed.

Lemma input_try_spec question defaultValue :
  exists first_frame,
    forall rs t,
      input_try question defaultValue rs t =
      readKey_loop (input_onKey question defaultValue) rs (lit "")
        (mkTerm true (effects t ++ EvSetRaw true :: map EvWrite first_frame)).
Proof.
  destruct (input_render_writer question defaultValue (lit "")) as (ws & _ & E).
  exists ws. intros rs t.
  unfold input_try, bind at 1 2, setRaw. cbv beta iota. rewrite E.
  unfold after. simpl. f_equal. f_equal. same_effects.
Qed.

Lemma rating_try_spec question min max defaultValue :
  exists first_frame,
    forall rs t,
      rating_try question min max defaultValue rs t =
      readKey_loop (rating_onKey question min max) rs defaultValue
        (mkTerm true (effects t ++ EvSetRaw true :: map EvWrite first_frame)).
Proof.
  destruct (rating_render_writer question min max defaultValue) as (ws & _ & E).
  exists ws. intros rs t.
  unfold rating_try, bind at 1 2, setRaw. cbv beta iota. rewrite E.
  unfold after. simpl. f_equal. f_equal. same_effects.
Qed.

Lemma confirm_try_spec question defaultValue :
  exists first_frame,
    forall rs t,
      confirm_try question defaultValue rs t =
      readKey_loop (confirm_onKey question) rs defaultValue
        (mkTerm true (effects t ++ EvSetRaw true :: map EvWrite first_frame)).
Proof.
  destruct (confirm_render_writer question defaultValue) as (ws & _ & E).
  exists ws. intros rs t.
  unfold confirm_try, bind at 1 2, setRaw. cbv beta iota. rewrite E.
  unfold after. simpl. f_equal. f_equal. same_effects.
Qed.

Lemma select_finally_spec t :
  select_finally t =
  (Returned tt,
   mkTerm false (effects t ++ EvSetRaw false :: map EvWrite [ansi.showCursor])).
Proof.
  unfold select_finally, bind, setRaw, write, emit. simpl.
  f_equal. f_equal. same_effects.
Qed.

Lemma setRaw_false_spec t :
  setRaw false t =
  (Returned tt, mkTerm false (effects t ++ EvSetRaw false :: map EvWrite [])).
Proof. reflexivity. Qed.

Lemma bind_ret_map {A B} (m : M A) (f : A -> B) t :
  (a <- m ;; ret (f a)) t = (Outcome_map f (fst (m t)), snd (m t)).
Proof. unfold bind, ret. destruct (m t) as [[a|c| |] t']; reflexivity. Qed.

Lemma holds_raw_map {A B} (m : M A) (f : A -> B) :
  holds_raw_for_its_loop m -> holds_raw_for_its_loop (a <- m ;; ret (f a)).
Proof.
  intros H t. destruct (H t) as (evs & E & Sc & R).
  exists evs. rewrite bind_ret_map. simpl.
  split; [exact E|]. destruct (fst (m t)); simpl in *; split; auto;
    inversion Sc; subst; constructor; auto.
Qed.

Lemma parseInt_digit n :
  0 <= n <= 9 -> parseInt (Number_toString n) = Some n.
Proof.
  intro H.
  assert (All : forallb
                  (fun k =>
                     match parseInt (Number_toString (Z.of_nat k)) with
                     | Some m => m =? Z.of_nat k
                     | None => false
                     end)
                  (seq 0 10) = true) by reflexivity.
  rewrite forallb_forall in All.
  specialize (All (Z.to_nat n)). rewrite Z2Nat.id in All by lia.
  destruct (parseInt (Number_toString n)) as [m|].
  - f_equal. apply Z.eqb_eq. apply All. apply in_seq. lia.
  - assert (false = true) by (apply All; apply in_seq; lia). discriminate.
Qed.

Lemma reads_more stdin rs : reads (more stdin rs) = reads stdin ++ rs.
Proof. reflexivity. Qed.

Lemma isTerminal_more stdin rs : isTerminal (more stdin rs) = isTerminal stdin.
Proof. reflexivity. Qed.

(* ------------------------------------------------------------------ *)
(** ** Properties *)

(** C2. On every non-empty chunk of bytes delivered by one read, [readKey]
    returns one key, the one the rules of the specification choose in their
    priority order: first byte 0x03 is the interrupt, 13 is enter, 127 and 8
    are backspace, 27 alone is escape, 27 0x5B followed by 0x41..0x44 is
    up, down, right, left, anything else after 27 is unknown, and any other
    leading byte gives [char] with the whole chunk decoded as text. *)
Theorem readKey_follows_the_decoding_rules :
  (forall first rest t,
      fst (readKey (ReadBytes (first :: rest)) t)
      = Returned (key_rules (first :: rest))) /\
  decodeKey (Some [x1b; x5b; x41]) = KUp /\
  decodeKey (Some [x1b; x5b; x42]) = KDown /\
  decodeKey (Some [x1b; x5b; x43]) = KRight /\
  decodeKey (Some [x1b; x5b; x44]) = KLeft /\
  decodeKey (Some [x1b]) = KEscape.
Proof.
  split; [|repeat split].
  intros first rest t. rewrite readKey_eq. simpl. f_equal.
  destruct first; try reflexivity.
  destruct rest as [|c1 rest]; [reflexivity|].
  destruct c1; try reflexivity.
  destruct rest as [|c2 rest]; [reflexivity|].
  destruct c2; reflexivity.
Qed.

(** C10. For an empty option list [select] returns -1 at once, whether
    standard input is a terminal or not: nothing is read, raw mode is not
    touched and nothing is written, the terminal is as it was. *)
Theorem select_of_no_options_returns_minus_one :
  forall stdin question defaultIndex t,
    select stdin question [] defaultIndex t = (Returned (-1), t).
Proof. reflexivity. Qed.




(* ------------------------------------------------------------------ *)
(** ** A suspended call and its next keys *)

Lemma select_blocked_has_options stdin question options defaultIndex t :
  fst (select stdin question options defaultIndex t) = Blocked -> options <> [].
Proof. intros B ->. discriminate B. Qed.

Lemma select_after_keys (Inv : Z -> Prop) stdin question options defaultIndex t :
  isTerminal stdin = true ->
  (forall key s, Inv s -> Inv (select_next options key s)) ->
  Inv defaultIndex ->
  fst (select stdin question options defaultIndex t) = Blocked ->
  exists selected,
    Inv selected /\
    (forall e rest,
        keyOf e = Some KEnter ->
        fst (select (more stdin (e :: rest)) question options defaultIndex t)
        = Returned selected) /\
    (forall r key e rest,
        keyOf r = Some key -> key <> KCtrlC -> key <> KEnter ->
        keyOf e = Some KEnter ->
        fst (select (more stdin (r :: e :: rest)) question options defaultIndex t)
        = Returned (select_next options key selected)) /\
    (forall r rest,
        keyOf r = Some KCtrlC ->
        select (more stdin (r :: rest)) question options defaultIndex t =
        (Exited 130,
         mkTerm false
           (effects (snd (select stdin question options defaultIndex t))
              ++ [EvRead r; EvWrite ansi.showCursor; EvSetRaw false; EvExit 130]))).
Proof.
  intros T Hinv I0 B.
  pose proof (select_blocked_has_options _ _ _ _ _ B) as N.
  destruct (select_try_spec question options defaultIndex) as (ff & P).
  rewrite (select_interactive _ _ _ _ T N) in B |- *.
  destruct (call_next _ _ _ (select_body_ok question options)
              (select_try question options defaultIndex) select_finally
              defaultIndex ff [ansi.showCursor] P select_finally_spec
              Inv (reads stdin) t Hinv I0 B) as (s & Is & He & Hk & Hi).
  exists s. split; [exact Is|].
  repeat split; intros;
    rewrite (select_interactive (more stdin _) _ _ _ T N), reads_more; eauto.
Qed.

Lemma input_after_keys stdin question defaultValue t :
  isTerminal stdin = true ->
  fst (input stdin question defaultValue t) = Blocked ->
  exists buffer,
    (forall e rest,
        keyOf e = Some KEnter ->
        fst (input (more stdin (e :: rest)) question defaultValue t)
        = Returned (if truthy buffer then buffer else defaultValue)) /\
    (forall r key e rest,
        keyOf r = Some key -> key <> KCtrlC -> key <> KEnter ->
        keyOf e = Some KEnter ->
        fst (input (more stdin (r :: e :: rest)) question defaultValue t)
        = Returned (if truthy (input_next key buffer) then input_next key buffer
                    else defaultValue)) /\
    (forall r rest,
        keyOf r = Some KCtrlC ->
        input (more stdin (r :: rest)) question defaultValue t =
        (Exited 130,
         mkTerm false
           (effects (snd (input stdin question defaultValue t))
              ++ [EvRead r; EvSetRaw false; EvExit 130]))).
Proof.
  intros T B.
  destruct (input_try_spec question defaultValue) as (ff & P).
  rewrite (input_interactive _ _ _ T), bind_ret_map in B |- *. simpl in B |- *.
  assert (B' : fst (try_finally (input_try question defaultValue (reads stdin))
                      (setRaw false) t) = Blocked).
  { destruct (fst (try_finally _ _ t)); simpl in B; congruence. }
  destruct (call_next _ _ _ (input_body_ok question defaultValue)
              (input_try question defaultValue) (setRaw false)
              (lit "") ff [] P setRaw_false_spec
              (fun _ => True) (reads stdin) t (fun _ _ _ => I) I B')
    as (s & _ & He & Hk & Hi).
  exists s.
  repeat split; intros;
    rewrite (input_interactive (more stdin _) _ _ T), bind_ret_map, reads_more.
  - simpl. now rewrite (He e rest).
  - simpl. now rewrite (Hk r key e rest).
  - now rewrite (Hi r rest).
Qed.

Lemma rating_after_keys (Inv : Z -> Prop) stdin question min max defaultValue t :
  isTerminal stdin = true ->
  (forall key s, Inv s -> Inv (rating_next min max key s)) ->
  Inv defaultValue ->
  fst (rating stdin question min max defaultValue t) = Blocked ->
  exists value,
    Inv value /\
    (forall e rest,
        keyOf e = Some KEnter ->
        fst (rating (more stdin (e :: rest)) question min max defaultValue t)
        = Returned value) /\
    (forall r key e rest,
        keyOf r = Some key -> key <> KCtrlC -> key <> KEnter ->
        keyOf e = Some KEnter ->
        fst (rating (more stdin (r :: e :: rest)) question min max defaultValue t)
        = Returned (rating_next min max key value)) /\
    (forall r rest,
        keyOf r = Some KCtrlC ->
        rating (more stdin (r :: rest)) question min max defaultValue t =
        (Exited 130,
         mkTerm false
           (effects (snd (rating stdin question min max defaultValue t))
              ++ [EvRead r; EvSetRaw false; EvExit 130]))).
Proof.
  intros T Hinv I0 B.
  destruct (rating_try_spec question min max defaultValue) as (ff & P).
  rewrite (rating_interactive _ _ _ _ _ T) in B |- *.
  destruct (call_next _ _ _ (rating_body_ok question min max)
              (rating_try question min max defaultValue) (setRaw false)
              defaultValue ff [] P setRaw_false_spec
              Inv (reads stdin) t Hinv I0 B) as (s & Is & He & Hk & Hi).
  exists s. split; [exact Is|].
  repeat split; intros;
    rewrite (rating_interactive (more stdin _) _ _ _ _ T), reads_more; eauto.
Qed.

Lemma confirm_after_keys stdin question defaultValue t :
  isTerminal stdin = true ->
  fst (confirm stdin question defaultValue t) = Blocked ->
  exists value,
    (forall e rest,
        keyOf e = Some KEnter ->
        fst (confirm (more stdin (e :: rest)) question defaultValue t)
        = Returned value) /\
    (forall r key e rest,
        keyOf r = Some key -> key <> KCtrlC -> key <> KEnter ->
        keyOf e = Some KEnter ->
        fst (confirm (more stdin (r :: e :: rest)) question defaultValue t)
        = Returned (confirm_next key value)) /\
    (forall r rest,
        keyOf r = Some KCtrlC ->
        confirm (more stdin (r :: rest)) question defaultValue t =
        (Exited 130,
         mkTerm false
           (effects (snd (confirm stdin question defaultValue t))
              ++ [EvRead r; EvSetRaw false; EvExit 130]))).
Proof.
  intros T B.
  destruct (confirm_try_spec question defaultValue) as (ff & P).
  rewrite (confirm_interactive _ _ _ T) in B |- *.
  destruct (call_next _ _ _ (confirm_body_ok question)
              (confirm_try question defaultValue) (setRaw false)
              defaultValue ff [] P setRaw_false_spec
              (fun _ => True) (reads stdin) t (fun _ _ _ => I) I B)
    as (s & _ & He & Hk & Hi).
  exists s.
  repeat split; intros;
    rewrite (confirm_interactive (more stdin _) _ _ T), reads_more; eauto.
Qed.

(** C1. On an interactive terminal every widget call holds raw mode for the
    time of its prompt loop and no longer: its effects start with the
    engaging of raw mode, the loop only reads and writes, and every way out
    of the loop (enter, the interrupt key, a failing read) disengages raw
    mode before the call returns, throws or ends the process; the flag reads
    as engaged only while the call is still waiting for a key. *)
Theorem raw_mode_is_held_only_by_the_prompt_loop :
  forall stdin question options defaultIndex defaultText min max defaultRate
         defaultAnswer,
    isTerminal stdin = true ->
    (options <> [] ->
     holds_raw_for_its_loop (select stdin question options defaultIndex)) /\
    holds_raw_for_its_loop (input stdin question defaultText) /\
    holds_raw_for_its_loop (rating stdin question min max defaultRate) /\
    holds_raw_for_its_loop (confirm stdin question defaultAnswer).
Proof.
  intros stdin question options defaultIndex defaultText min max defaultRate
         defaultAnswer T.
  split; [|split; [|split]].
  - intro N. rewrite (select_interactive _ _ _ _ T N).
    destruct (select_try_spec question options defaultIndex) as (ff & P).
    exact (call_scoped _ _ _ (select_body_ok question options) _ _ _ ff _ P
             select_finally_spec (reads stdin)).
  - rewrite (input_interactive _ _ _ T). apply holds_raw_map.
    destruct (input_try_spec question defaultText) as (ff & P).
    exact (call_scoped _ _ _ (input_body_ok question defaultText) _ _ _ ff _ P
             setRaw_false_spec (reads stdin)).
  - rewrite (rating_interactive _ _ _ _ _ T).
    destruct (rating_try_spec question min max defaultRate) as (ff & P).
    exact (call_scoped _ _ _ (rating_body_ok question min max) _ _ _ ff _ P
             setRaw_false_spec (reads stdin)).
  - rewrite (confirm_interactive _ _ _ T).
    destruct (confirm_try_spec question defaultAnswer) as (ff & P).
    exact (call_scoped _ _ _ (confirm_body_ok question) _ _ _ ff _ P
             setRaw_false_spec (reads stdin)).
Qed.

Lemma raw_mode_is_held_only_by_the_prompt_loop_witness :
  isTerminal (tty [press_down; press_enter]) = true /\
  [lit "a"; lit "b"] <> [] /\
  holds_raw_for_its_loop
    (select (tty [press_down; press_enter]) (lit "Pick") [lit "a"; lit "b"] 0) /\
  holds_raw_for_its_loop (input (tty [press_down; press_enter]) (lit "Pick") (lit "x")) /\
  holds_raw_for_its_loop (rating (tty [press_down; press_enter]) (lit "Pick") 1 5 3) /\
  holds_raw_for_its_loop (confirm (tty [press_down; press_enter]) (lit "Pick") true).
Proof.
  split; [reflexivity|]. split; [discriminate|].
  destruct (raw_mode_is_held_only_by_the_prompt_loop
              (tty [press_down; press_enter]) (lit "Pick") [lit "a"; lit "b"] 0
              (lit "x") 1 5 3 true eq_refl) as (Hs & Hi & Hr & Hc).
  split; [apply Hs; discriminate|]. split; [exact Hi|]. split; [exact Hr|exact Hc].
Defined.

(** C3. In the interactive path of every widget, when the call is waiting
    for a key and the next read decodes to the interrupt key, the call does
    not return: it leaves raw mode ([select], which hid the cursor, first
    shows it again) and then ends the process with status 130, and these are
    the only effects after the read. *)
Theorem interrupt_restores_the_terminal_then_exits :
  forall stdin question options defaultIndex defaultText min max defaultRate
         defaultAnswer r rest t,
    isTerminal stdin = true ->
    keyOf r = Some KCtrlC ->
    (fst (select stdin question options defaultIndex t) = Blocked ->
     select (more stdin (r :: rest)) question options defaultIndex t =
     (Exited 130,
      mkTerm false
        (effects (snd (select stdin question options defaultIndex t))
           ++ [EvRead r; EvWrite ansi.showCursor; EvSetRaw false; EvExit 130]))) /\
    (fst (input stdin question defaultText t) = Blocked ->
     input (more stdin (r :: rest)) question defaultText t =
     (Exited 130,
      mkTerm false
        (effects (snd (input stdin question defaultText t))
           ++ [EvRead r; EvSetRaw false; EvExit 130]))) /\
    (fst (rating stdin question min max defaultRate t) = Blocked ->
     rating (more stdin (r :: rest)) question min max defaultRate t =
     (Exited 130,
      mkTerm false
        (effects (snd (rating stdin question min max defaultRate t))
           ++ [EvRead r; EvSetRaw false; EvExit 130]))) /\
    (fst (confirm stdin question defaultAnswer t) = Blocked ->
     confirm (more stdin (r :: rest)) question defaultAnswer t =
     (Exited 130,
      mkTerm false
        (effects (snd (confirm stdin question defaultAnswer t))
           ++ [EvRead r; EvSetRaw false; EvExit 130]))).
Proof.
  intros stdin question options defaultIndex defaultText min max defaultRate
         defaultAnswer r rest t T K.
  split; [|split; [|split]]; intro B.
  - destruct (select_after_keys (fun _ => True) _ _ _ _ _ T (fun _ _ _ => I) I B)
      as (s & _ & _ & _ & Hi). now apply Hi.
  - destruct (input_after_keys _ _ _ _ T B) as (s & _ & _ & Hi). now apply Hi.
  - destruct (rating_after_keys (fun _ => True) _ _ _ _ _ _ T (fun _ _ _ => I) I B)
      as (s & _ & _ & _ & Hi). now apply Hi.
  - destruct (confirm_after_keys _ _ _ _ T B) as (s & _ & _ & Hi). now apply Hi.
Qed.

Lemma interrupt_restores_the_terminal_then_exits_witness :
  isTerminal (tty [press_down]) = true /\
  keyOf press_ctrl_c = Some KCtrlC /\
  fst (select (tty [press_down]) (lit "Pick") [lit "a"; lit "b"] 0 (mkTerm false []))
  = Blocked /\
  fst (select (tty [press_down; press_ctrl_c; press_enter]) (lit "Pick")
         [lit "a"; lit "b"] 0 (mkTerm false []))
  = Exited 130 /\
  fst (input (tty [press_down]) (lit "Name") (lit "x") (mkTerm false [])) = Blocked /\
  fst (input (tty [press_down; press_ctrl_c; press_enter]) (lit "Name") (lit "x")
         (mkTerm false []))
  = Exited 130 /\
  fst (rating (tty [press_down]) (lit "Rate") 1 5 3 (mkTerm false [])) = Blocked /\
  fst (rating (tty [press_down; press_ctrl_c; press_enter]) (lit "Rate") 1 5 3
         (mkTerm false []))
  = Exited 130 /\
  fst (confirm (tty [press_down]) (lit "Sure") true (mkTerm false [])) = Blocked /\
  fst (confirm (tty [press_down; press_ctrl_c; press_enter]) (lit "Sure") true
         (mkTerm false []))
  = Exited 130.
Proof.
  destruct (interrupt_restores_the_terminal_then_exits
              (tty [press_down]) (lit "Pick") [lit "a"; lit "b"] 0 (lit "x")
              1 5 3 true press_ctrl_c [press_enter] (mkTerm false [])
              eq_refl eq_refl) as (Hs & _).
  destruct (interrupt_restores_the_terminal_then_exits
              (tty [press_down]) (lit "Name") [] 0 (lit "x")
              1 5 3 true press_ctrl_c [press_enter] (mkTerm false [])
              eq_refl eq_refl) as (_ & Hi & _).
  destruct (interrupt_restores_the_terminal_then_exits
              (tty [press_down]) (lit "Rate") [] 0 (lit "x")
              1 5 3 true press_ctrl_c [press_enter] (mkTerm false [])
              eq_refl eq_refl) as (_ & _ & Hr & _).
  destruct (interrupt_restores_the_terminal_then_exits
              (tty [press_down]) (lit "Sure") [] 0 (lit "x")
              1 5 3 true press_ctrl_c [press_enter] (mkTerm false [])
              eq_refl eq_refl) as (_ & _ & _ & Hc).
  split; [reflexivity|]. split; [reflexivity|].
  split; [reflexivity|]. split; [exact (f_equal fst (Hs eq_refl))|].
  split; [reflexivity|]. split; [exact (f_equal fst (Hi eq_refl))|].
  split; [reflexivity|]. split; [exact (f_equal fst (Hr eq_refl))|].
  split; [reflexivity|]. exact (f_equal fst (Hc eq_refl)).
Defined.

Lemma select_next_in_range options key s :
  0 <= s <= Z.of_nat (List.length options) - 1 ->
  0 <= select_next options key s <= Z.of_nat (List.length options) - 1.
Proof.
  intro H. unfold select_next. destruct key; try exact H.
  - destruct (parseInt char) as [num|]; [|exact H].
    destruct (Z.geb_spec num 1); simpl; [|exact H].
    destruct (Z.leb_spec num (Z.of_nat (List.length options))); [lia|exact H].
  - destruct (Z.gtb_spec s 0); lia.
  - destruct (Z.ltb_spec s (Z.of_nat (List.length options) - 1)); lia.
Qed.

Lemma rating_next_in_range min max key s :
  min <= s <= max -> min <= rating_next min max key s <= max.
Proof.
  intro H. unfold rating_next. destruct key; try exact H.
  - destruct (parseInt char) as [num|]; [|exact H].
    destruct (Z.geb_spec num min); simpl; [|exact H].
    destruct (Z.leb_spec num max); [lia|exact H].
  - destruct (Z.ltb_spec s max); lia.
  - destruct (Z.gtb_spec s min); lia.
  - destruct (Z.gtb_spec s min); lia.
  - destruct (Z.ltb_spec s max); lia.
Qed.

(** C4. The transition table of the interactive [select]. When the call is
    waiting for a key with the index [selected] highlighted: enter returns
    [selected]; up, then enter, returns [selected - 1] and down, then enter,
    [selected + 1], both clamped to [0, len - 1]; a digit key [1..len], then
    enter, returns the digit minus one. In particular enter alone returns
    the default index, and with five options four downs from index 0 and
    enter return 4, as do five downs and enter. *)
Theorem select_transition_table :
  (forall stdin question options defaultIndex t,
      isTerminal stdin = true ->
      0 <= defaultIndex <= Z.of_nat (List.length options) - 1 ->
      fst (select stdin question options defaultIndex t) = Blocked ->
      exists selected,
        0 <= selected <= Z.of_nat (List.length options) - 1 /\
        (forall e rest,
            keyOf e = Some KEnter ->
            fst (select (more stdin (e :: rest)) question options defaultIndex t)
            = Returned selected) /\
        (forall r e rest,
            keyOf r = Some KUp -> keyOf e = Some KEnter ->
            fst (select (more stdin (r :: e :: rest)) question options defaultIndex t)
            = Returned (Z.max 0 (selected - 1))) /\
        (forall r e rest,
            keyOf r = Some KDown -> keyOf e = Some KEnter ->
            fst (select (more stdin (r :: e :: rest)) question options defaultIndex t)
            = Returned (Z.min (Z.of_nat (List.length options) - 1) (selected + 1))) /\
        (forall digit r e rest,
            1 <= digit <= 9 -> digit <= Z.of_nat (List.length options) ->
            keyOf r = Some (KChar (Number_toString digit)) ->
            keyOf e = Some KEnter ->
            fst (select (more stdin (r :: e :: rest)) question options defaultIndex t)
            = Returned (digit - 1))) /\
  (forall stdin question options defaultIndex t e rest,
      isTerminal stdin = true ->
      0 <= defaultIndex <= Z.of_nat (List.length options) - 1 ->
      reads stdin = e :: rest -> keyOf e = Some KEnter ->
      fst (select stdin question options defaultIndex t) = Returned defaultIndex) /\
  (forall question o1 o2 o3 o4 o5 t,
      fst (select (tty [press_down; press_down; press_down; press_down; press_enter])
             question [o1; o2; o3; o4; o5] 0 t) = Returned 4 /\
      fst (select (tty [press_down; press_down; press_down; press_down; press_down;
                        press_enter])
             question [o1; o2; o3; o4; o5] 0 t) = Returned 4).
Proof.
  split; [|split].
  - intros stdin question options defaultIndex t T D B.
    destruct (select_after_keys
                (fun s => 0 <= s <= Z.of_nat (List.length options) - 1)
                _ _ _ _ _ T (select_next_in_range options) D B)
      as (s & Is & He & Hk & _).
    exists s. split; [exact Is|]. split; [exact He|]. split; [|split].
    + intros r e rest Kr Ke.
      rewrite (Hk r KUp e rest Kr) by (discriminate || assumption).
      f_equal. simpl. destruct (Z.gtb_spec s 0); lia.
    + intros r e rest Kr Ke.
      rewrite (Hk r KDown e rest Kr) by (discriminate || assumption).
      f_equal. simpl.
      destruct (Z.ltb_spec s (Z.of_nat (List.length options) - 1)); lia.
    + intros digit r e rest D1 D2 Kr Ke.
      rewrite (Hk r _ e rest Kr) by (discriminate || assumption).
      f_equal. simpl. rewrite parseInt_digit by lia.
      destruct (Z.geb_spec digit 1); [|lia].
      destruct (Z.leb_spec digit (Z.of_nat (List.length options))); [|lia].
      reflexivity.
  - intros stdin question options defaultIndex t e rest T D R K.
    assert (N : options <> []) by (intros ->; simpl in D; lia).
    rewrite (select_interactive _ _ _ _ T N), R.
    destruct (select_try_spec question options defaultIndex) as (ff & P).
    exact (call_enter_first _ _ _ (select_body_ok question options) _ _ _ ff _ P
             select_finally_spec e rest t K).
  - intros question o1 o2 o3 o4 o5 t. split; reflexivity.
Qed.

Lemma select_transition_table_witness :
  (isTerminal (tty [press_down]) = true /\
   0 <= 0 <= Z.of_nat (List.length [lit "a"; lit "b"; lit "c"]) - 1 /\
   fst (select (tty [press_down]) (lit "Pick") [lit "a"; lit "b"; lit "c"] 0
          (mkTerm false [])) = Blocked /\
   exists selected,
     fst (select (tty [press_down; press_enter]) (lit "Pick")
            [lit "a"; lit "b"; lit "c"] 0 (mkTerm false [])) = Returned selected /\
     fst (select (tty [press_down; press_up; press_enter]) (lit "Pick")
            [lit "a"; lit "b"; lit "c"] 0 (mkTerm false []))
     = Returned (Z.max 0 (selected - 1)) /\
     fst (select (tty [press_down; press_down; press_enter]) (lit "Pick")
            [lit "a"; lit "b"; lit "c"] 0 (mkTerm false []))
     = Returned (Z.min (Z.of_nat (List.length [lit "a"; lit "b"; lit "c"]) - 1)
                   (selected + 1)) /\
     fst (select (tty [press_down; type_text "3"; press_enter]) (lit "Pick")
            [lit "a"; lit "b"; lit "c"] 0 (mkTerm false []))
     = Returned (3 - 1)) /\
  (isTerminal (tty [press_enter]) = true /\
   0 <= 1 <= Z.of_nat (List.length [lit "a"; lit "b"; lit "c"]) - 1 /\
   reads (tty [press_enter]) = [press_enter] /\
   keyOf press_enter = Some KEnter /\
   fst (select (tty [press_enter]) (lit "Pick") [lit "a"; lit "b"; lit "c"] 1
          (mkTerm false [])) = Returned 1).
Proof.
  destruct select_transition_table as (Table & Enter & _).
  split.
  - split; [reflexivity|]. split; [simpl; lia|]. split; [reflexivity|].
    destruct (Table (tty [press_down]) (lit "Pick") [lit "a"; lit "b"; lit "c"] 0
                (mkTerm false []) eq_refl ltac:(simpl; lia) eq_refl)
      as (selected & _ & He & Hu & Hdn & Hd).
    exists selected. split; [|split; [|split]].
    + exact (He press_enter [] eq_refl).
    + exact (Hu press_up press_enter [] eq_refl eq_refl).
    + exact (Hdn press_down press_enter [] eq_refl eq_refl).
    + exact (Hd 3 (type_text "3") press_enter [] ltac:(lia) ltac:(simpl; lia)
               eq_refl eq_refl).
  - split; [reflexivity|]. split; [simpl; lia|]. split; [reflexivity|].
    split; [reflexivity|].
    exact (Enter (tty [press_enter]) (lit "Pick") [lit "a"; lit "b"; lit "c"] 1
             (mkTerm false []) press_enter [] eq_refl ltac:(simpl; lia)
             eq_refl eq_refl).
Defined.

(** C5, as the code has it. The transition table of the interactive
    [input]. When the call is waiting for a key with [buffer] typed so far:
    enter returns the buffer when it is not empty and the default otherwise;
    a key [char(text)] appends [text] to the buffer; backspace drops the
    last UTF-16 code unit of a non-empty buffer, which is half of a
    character outside the Basic Multilingual Plane, and leaves an empty
    buffer as it is. In particular, with the default [my-experiment], enter
    alone returns [my-experiment], and typing x, y, z, backspace, enter
    returns [xy]. *)
Theorem input_transition_table :
  (forall stdin question defaultValue t,
      isTerminal stdin = true ->
      fst (input stdin question defaultValue t) = Blocked ->
      exists buffer,
        let submit (value : jsstring) :=
          Returned (match value with [] => defaultValue | _ => value end) in
        (forall e rest,
            keyOf e = Some KEnter ->
            fst (input (more stdin (e :: rest)) question defaultValue t)
            = submit buffer) /\
        (forall text r e rest,
            keyOf r = Some (KChar text) -> keyOf e = Some KEnter ->
            fst (input (more stdin (r :: e :: rest)) question defaultValue t)
            = submit (buffer ++ text)) /\
        (forall r e rest,
            keyOf r = Some KBackspace -> keyOf e = Some KEnter ->
            fst (input (more stdin (r :: e :: rest)) question defaultValue t)
            = submit (match buffer with [] => [] | _ => removelast buffer end))) /\
  (forall question t,
      fst (input (tty [press_enter]) question (lit "my-experiment") t)
      = Returned (lit "my-experiment")) /\
  (forall question defaultValue t,
      fst (input (tty [type_text "x"; type_text "y"; type_text "z";
                       press_backspace; press_enter])
             question defaultValue t)
      = Returned (lit "xy")).
Proof.
  split; [|split].
  - intros stdin question defaultValue t T B.
    destruct (input_after_keys _ _ _ _ T B) as (buffer & He & Hk & _).
    exists buffer. cbv zeta. split; [|split].
    + intros e rest Ke. rewrite (He e rest Ke). now destruct buffer.
    + intros text r e rest Kr Ke.
      rewrite (Hk r _ e rest Kr) by (discriminate || assumption).
      simpl. now destruct (buffer ++ text).
    + intros r e rest Kr Ke.
      rewrite (Hk r _ e rest Kr) by (discriminate || assumption).
      unfold input_next, slice_0_m1.
      destruct buffer as [|c b]; [reflexivity|].
      replace (Z.of_nat (List.length (c :: b)) >? 0) with true
        by (symmetry; apply Z.gtb_lt; simpl List.length; lia).
      now destruct (removelast (c :: b)).
  - intros question t. reflexivity.
  - intros question defaultValue t. destruct defaultValue; reflexivity.
Qed.

Lemma input_transition_table_witness :
  isTerminal (tty [type_text "a"]) = true /\
  fst (input (tty [type_text "a"]) (lit "Name") (lit "d") (mkTerm false [])) = Blocked /\
  exists buffer,
    fst (input (tty [type_text "a"; press_enter]) (lit "Name") (lit "d")
           (mkTerm false []))
    = Returned (match buffer with [] => lit "d" | _ => buffer end) /\
    fst (input (tty [type_text "a"; type_text "b"; press_enter]) (lit "Name") (lit "d")
           (mkTerm false []))
    = Returned (match buffer ++ lit "b" with [] => lit "d" | _ => buffer ++ lit "b" end) /\
    fst (input (tty [type_text "a"; press_backspace; press_enter]) (lit "Name") (lit "d")
           (mkTerm false []))
    = Returned (match match buffer with [] => [] | _ => removelast buffer end with
                | [] => lit "d"
                | _ => match buffer with [] => [] | _ => removelast buffer end
                end).
Proof.
  split; [reflexivity|]. split; [reflexivity|].
  destruct (proj1 input_transition_table (tty [type_text "a"]) (lit "Name") (lit "d")
              (mkTerm false []) eq_refl eq_refl) as (buffer & He & Hc & Hb).
  exists buffer. split; [|split].
  - exact (He press_enter [] eq_refl).
  - exact (Hc (lit "b") (type_text "b") press_enter [] eq_refl eq_refl).
  - exact (Hb press_backspace press_enter [] eq_refl eq_refl).
Defined.

(** C5 as stated fails: backspace does not always drop the last character.
    The four bytes of U+1F600 arrive in one read and are one character of
    the buffer; after one backspace the buffer is not empty, as it would be
    without that character, but holds the lone high surrogate, and enter
    returns it instead of the default. *)
Lemma input_backspace_leaves_half_a_character :
  keyOf (ReadBytes [xf0; x9f; x98; x80]) = Some (KChar [55357%N; 56832%N]) /\
  drop_last_character [55357%N; 56832%N] = [] /\
  fst (input (tty [ReadBytes [xf0; x9f; x98; x80]; press_enter])
         (lit "Name") (lit "d") (mkTerm false []))
  = Returned [55357%N; 56832%N] /\
  fst (input (tty [ReadBytes [xf0; x9f; x98; x80]; press_backspace; press_enter])
         (lit "Name") (lit "d") (mkTerm false []))
  = Returned [55357%N] /\
  fst (input (tty [ReadBytes [xf0; x9f; x98; x80]; press_backspace; press_enter])
         (lit "Name") (lit "d") (mkTerm false []))
  <> Returned (lit "d").
Proof.
  split; [reflexivity|]. split; [reflexivity|]. split; [reflexivity|].
  split; [reflexivity|]. vm_compute. discriminate.
Qed.

(** C6. The transition table of the interactive [rating]. When the call is
    waiting for a key with [value] current: enter returns [value]; left or
    down, then enter, returns [value - 1] clamped to [min]; right or up,
    then enter, returns [value + 1] clamped to [max]; a digit key within
    [min, max], then enter, returns that digit. In particular, with min 1,
    max 5 and default 3, left, left, enter returns 1, and so does a third
    left before the enter. *)
Theorem rating_transition_table :
  (forall stdin question min max defaultValue t,
      isTerminal stdin = true ->
      min <= defaultValue <= max ->
      fst (rating stdin question min max defaultValue t) = Blocked ->
      exists value,
        min <= value <= max /\
        (forall e rest,
            keyOf e = Some KEnter ->
            fst (rating (more stdin (e :: rest)) question min max defaultValue t)
            = Returned value) /\
        (forall r e rest,
            keyOf r = Some KLeft \/ keyOf r = Some KDown -> keyOf e = Some KEnter ->
            fst (rating (more stdin (r :: e :: rest)) question min max defaultValue t)
            = Returned (Z.max min (value - 1))) /\
        (forall r e rest,
            keyOf r = Some KRight \/ keyOf r = Some KUp -> keyOf e = Some KEnter ->
            fst (rating (more stdin (r :: e :: rest)) question min max defaultValue t)
            = Returned (Z.min max (value + 1))) /\
        (forall digit r e rest,
            0 <= digit <= 9 -> min <= digit <= max ->
            keyOf r = Some (KChar (Number_toString digit)) ->
            keyOf e = Some KEnter ->
            fst (rating (more stdin (r :: e :: rest)) question min max defaultValue t)
            = Returned digit)) /\
  (forall question t,
      fst (rating (tty [press_left; press_left; press_enter]) question 1 5 3 t)
      = Returned 1 /\
      fst (rating (tty [press_left; press_left; press_left; press_enter])
             question 1 5 3 t)
      = Returned 1).
Proof.
  split.
  - intros stdin question min max defaultValue t T D B.
    destruct (rating_after_keys (fun s => min <= s <= max)
                _ _ _ _ _ _ T (rating_next_in_range min max) D B)
      as (s & Is & He & Hk & _).
    exists s. split; [exact Is|]. split; [exact He|]. split; [|split].
    + intros r e rest [Kr|Kr] Ke;
        rewrite (Hk r _ e rest Kr) by (discriminate || assumption);
        f_equal; simpl; destruct (Z.gtb_spec s min); lia.
    + intros r e rest [Kr|Kr] Ke;
        rewrite (Hk r _ e rest Kr) by (discriminate || assumption);
        f_equal; simpl; destruct (Z.ltb_spec s max); lia.
    + intros digit r e rest D1 D2 Kr Ke.
      rewrite (Hk r _ e rest Kr) by (discriminate || assumption).
      f_equal. simpl. rewrite parseInt_digit by lia.
      destruct (Z.geb_spec digit min); [|lia].
      destruct (Z.leb_spec digit max); [|lia].
      reflexivity.
  - intros question t. split; reflexivity.
Qed.

Lemma rating_transition_table_witness :
  isTerminal (tty [press_right]) = true /\
  1 <= 3 <= 5 /\
  fst (rating (tty [press_right]) (lit "Energy") 1 5 3 (mkTerm false [])) = Blocked /\
  exists value,
    fst (rating (tty [press_right; press_enter]) (lit "Energy") 1 5 3 (mkTerm false []))
    = Returned value /\
    fst (rating (tty [press_right; press_down; press_enter]) (lit "Energy") 1 5 3
           (mkTerm false []))
    = Returned (Z.max 1 (value - 1)) /\
    fst (rating (tty [press_right; press_up; press_enter]) (lit "Energy") 1 5 3
           (mkTerm false []))
    = Returned (Z.min 5 (value + 1)) /\
    fst (rating (tty [press_right; type_text "2"; press_enter]) (lit "Energy") 1 5 3
           (mkTerm false []))
    = Returned 2.
Proof.
  split; [reflexivity|]. split; [lia|]. split; [reflexivity|].
  destruct (proj1 rating_transition_table (tty [press_right]) (lit "Energy") 1 5 3
              (mkTerm false []) eq_refl ltac:(lia) eq_refl)
    as (value & _ & He & Hl & Hr & Hd).
  exists value. split; [|split; [|split]].
  - exact (He press_enter [] eq_refl).
  - exact (Hl press_down press_enter [] (or_intror eq_refl) eq_refl).
  - exact (Hr press_up press_enter [] (or_intror eq_refl) eq_refl).
  - exact (Hd 2 (type_text "2") press_enter [] ltac:(lia) ltac:(lia) eq_refl eq_refl).
Defined.

(** C7. The transition table of the interactive [confirm]. When the call is
    waiting for a key with [value] current: enter returns [value]; any
    arrow key, then enter, returns its negation; the key [y] or [Y], then
    enter, returns true and the key [n] or [N] false. In particular, with
    the default false, y and enter return true; with the default true, n
    and enter return false; and enter alone returns the default. *)
Theorem confirm_transition_table :
  (forall stdin question defaultValue t,
      isTerminal stdin = true ->
      fst (confirm stdin question defaultValue t) = Blocked ->
      exists value,
        (forall e rest,
            keyOf e = Some KEnter ->
            fst (confirm (more stdin (e :: rest)) question defaultValue t)
            = Returned value) /\
        (forall r e rest,
            In (keyOf r) [Some KUp; Some KDown; Some KLeft; Some KRight] ->
            keyOf e = Some KEnter ->
            fst (confirm (more stdin (r :: e :: rest)) question defaultValue t)
            = Returned (negb value)) /\
        (forall r e rest,
            keyOf r = Some (KChar (lit "y")) \/ keyOf r = Some (KChar (lit "Y")) ->
            keyOf e = Some KEnter ->
            fst (confirm (more stdin (r :: e :: rest)) question defaultValue t)
            = Returned true) /\
        (forall r e rest,
            keyOf r = Some (KChar (lit "n")) \/ keyOf r = Some (KChar (lit "N")) ->
            keyOf e = Some KEnter ->
            fst (confirm (more stdin (r :: e :: rest)) question defaultValue t)
            = Returned false)) /\
  (forall question t,
      fst (confirm (tty [type_text "y"; press_enter]) question false t)
      = Returned true /\
      fst (confirm (tty [type_text "n"; press_enter]) question true t)
      = Returned false /\
      fst (confirm (tty [press_enter]) question false t) = Returned false /\
      fst (confirm (tty [press_enter]) question true t) = Returned true).
Proof.
  split.
  - intros stdin question defaultValue t T B.
    destruct (confirm_after_keys _ _ _ _ T B) as (value & He & Hk & _).
    exists value. split; [exact He|]. split; [|split].
    + intros r e rest [Kr|[Kr|[Kr|[Kr|[]]]]] Ke; symmetry in Kr;
        now rewrite (Hk r _ e rest Kr) by (discriminate || assumption).
    + intros r e rest [Kr|Kr] Ke;
        now rewrite (Hk r _ e rest Kr) by (discriminate || assumption).
    + intros r e rest [Kr|Kr] Ke;
        now rewrite (Hk r _ e rest Kr) by (discriminate || assumption).
  - intros question t. repeat split; reflexivity.
Qed.

Lemma confirm_transition_table_witness :
  isTerminal (tty [press_left]) = true /\
  fst (confirm (tty [press_left]) (lit "Sure") false (mkTerm false [])) = Blocked /\
  exists value,
    fst (confirm (tty [press_left; press_enter]) (lit "Sure") false (mkTerm false []))
    = Returned value /\
    fst (confirm (tty [press_left; press_up; press_enter]) (lit "Sure") false
           (mkTerm false []))
    = Returned (negb value) /\
    fst (confirm (tty [press_left; type_text "Y"; press_enter]) (lit "Sure") false
           (mkTerm false []))
    = Returned true /\
    fst (confirm (tty [press_left; type_text "N"; press_enter]) (lit "Sure") false
           (mkTerm false []))
    = Returned false.
Proof.
  split; [reflexivity|]. split; [reflexivity|].
  destruct (proj1 confirm_transition_table (tty [press_left]) (lit "Sure") false
              (mkTerm false []) eq_refl eq_refl) as (value & He & Ha & Hy & Hn).
  exists value. split; [|split; [|split]].
  - exact (He press_enter [] eq_refl).
  - exact (Ha press_up press_enter [] (or_introl eq_refl) eq_refl).
  - exact (Hy (type_text "Y") press_enter [] (or_intror eq_refl) eq_refl).
  - exact (Hn (type_text "N") press_enter [] (or_intror eq_refl) eq_refl).
Defined.

(* ------------------------------------------------------------------ *)
(** ** Runs of keys through a prompt loop *)

Section Runs.

Context {S : Type} (body : Key -> S -> M (Ctl S)).
Context (restore : list jsstring) (next : Key -> S -> S).
Hypothesis body_spec : body_ok body restore next.

Lemma loop_step r key s t :
  reads_key r key ->
  exists ws,
    forall rest,
      readKey_loop body (r :: rest) s t =
      readKey_loop body rest (next key s) (after t (EvRead r :: map EvWrite ws)).
Proof.
  intros (K & N1 & N2).
  destruct (on_other _ _ _ body_spec key s N1 N2) as (n & ws & _ & E).
  exists ws. intro rest. simpl. unfold bind.
  rewrite readKey_eq, K, E, after_after. reflexivity.
Qed.

Lemma loop_keys rs keys :
  Forall2 reads_key rs keys ->
  forall s t,
    exists t',
      rawMode t' = rawMode t /\
      forall rest,
        readKey_loop body (rs ++ rest) s t =
        readKey_loop body rest (run_keys next keys s) t'.
Proof.
  induction 1 as [|r key rs keys K _ IH]; intros s t.
  - exists t. split; reflexivity.
  - destruct (loop_step r key s t K) as (ws & E).
    destruct (IH (next key s) (after t (EvRead r :: map EvWrite ws)))
      as (t' & R & E').
    exists t'. split; [exact R|]. intro rest.
    rewrite <- app_comm_cons, E. apply E'.
Qed.

(** The outcome of the loop does not depend on what the terminal has seen. *)
Lemma loop_fst_indep rs : forall s t1 t2,
  fst (readKey_loop body rs s t1) = fst (readKey_loop body rs s t2).
Proof.
  induction rs as [|r rest IH]; intros s t1 t2; [reflexivity|].
  destruct (keyOf r) as [key|] eqn:K.
  - destruct (Key_cases key) as [-> | [-> | [N1 N2]]].
    + now rewrite !(loop_interrupt _ _ _ body_spec _ _ _ _ K).
    + destruct (loop_enter _ _ _ body_spec r rest s t1 K) as (w1 & ->).
      destruct (loop_enter _ _ _ body_spec r rest s t2 K) as (w2 & ->).
      reflexivity.
    + destruct (loop_step r key s t1 (conj K (conj N1 N2))) as (w1 & ->).
      destruct (loop_step r key s t2 (conj K (conj N1 N2))) as (w2 & ->).
      apply IH.
  - now rewrite !(loop_fails body _ _ _ _ K).
Qed.

Lemma loop_returns_inv (Inv : S -> Prop) rs :
  (forall key s, Inv s -> Inv (next key s)) ->
  forall s t v,
    Inv s -> fst (readKey_loop body rs s t) = Returned v -> Inv v.
Proof.
  intro Hinv. induction rs as [|r rest IH]; intros s t v I0 R; [discriminate R|].
  destruct (keyOf r) as [key|] eqn:K.
  - destruct (Key_cases key) as [-> | [-> | [N1 N2]]].
    + rewrite (loop_interrupt _ _ _ body_spec _ _ _ _ K) in R. discriminate.
    + destruct (loop_enter _ _ _ body_spec r rest s t K) as (ws & E).
      rewrite E in R. simpl in R. congruence.
    + destruct (loop_step r key s t (conj K (conj N1 N2))) as (ws & E).
      rewrite E in R. exact (IH _ _ _ (Hinv key s I0) R).
  - rewrite (loop_fails body _ _ _ _ K) in R. discriminate.
Qed.

(** The read that ends the loop is the last one the loop looks at. *)
Lemma loop_ends r rest s t :
  ends_loop r ->
  readKey_loop body (r :: rest) s t = readKey_loop body [r] s t.
Proof.
  intros [K|[K|K]].
  - now rewrite !(loop_fails body _ _ _ _ K).
  - now rewrite !(loop_interrupt _ _ _ body_spec _ _ _ _ K).
  - destruct (on_enter _ _ _ body_spec s) as (n & ws & _ & E).
    simpl. unfold bind. rewrite readKey_eq, K, E. reflexivity.
Qed.

Context (first_frame last_writes : list jsstring) (s0 : S).

Let run := prompt_run body first_frame last_writes s0.

Lemma run_fst rs t :
  fst (run rs t) =
  fst (readKey_loop body rs s0
         (mkTerm true (effects t ++ EvSetRaw true :: map EvWrite first_frame))).
Proof.
  unfold run, prompt_run, try_finally, bind, ret.
  destruct (readKey_loop body rs s0 _) as [[v|c| |] t']; reflexivity.
Qed.

Lemma run_blocked rs t :
  fst (run rs t) = Blocked ->
  run rs t =
  readKey_loop body rs s0
    (mkTerm true (effects t ++ EvSetRaw true :: map EvWrite first_frame)).
Proof.
  unfold run, prompt_run, try_finally, bind, ret.
  destruct (readKey_loop body rs s0 _) as [[v|c| |] t']; simpl;
    intro; try discriminate; reflexivity.
Qed.

(** The state in which a suspended call waits. *)
Lemma run_resume (Inv : S -> Prop) rs t :
  (forall key s, Inv s -> Inv (next key s)) ->
  Inv s0 ->
  fst (run rs t) = Blocked ->
  exists s,
    Inv s /\
    rawMode (snd (run rs t)) = true /\
    forall rest,
      readKey_loop body (rs ++ rest) s0
        (mkTerm true (effects t ++ EvSetRaw true :: map EvWrite first_frame))
      = readKey_loop body rest s (snd (run rs t)).
Proof.
  intros Hinv I0 B. rewrite (run_blocked rs t B). rewrite run_fst in B.
  destruct (loop_resume _ _ _ body_spec Inv rs Hinv s0 _ I0 B) as (s & Is & R).
  exists s. split; [exact Is|]. split; [|exact R].
  now rewrite (loop_blocked_raw _ _ _ body_spec rs s0 _ B).
Qed.

Lemma run_keys_enter rs keys e rest t :
  Forall2 reads_key rs keys ->
  keyOf e = Some KEnter ->
  fst (run (rs ++ e :: rest) t) = Returned (run_keys next keys s0).
Proof.
  intros F K. rewrite run_fst.
  destruct (loop_keys rs keys F s0
              (mkTerm true (effects t ++ EvSetRaw true :: map EvWrite first_frame)))
    as (t' & _ & E).
  rewrite E.
  destruct (loop_enter _ _ _ body_spec e rest (run_keys next keys s0) t' K)
    as (ws & ->).
  reflexivity.
Qed.

Lemma run_returns_inv (Inv : S -> Prop) rs t v :
  (forall key s, Inv s -> Inv (next key s)) ->
  Inv s0 ->
  fst (run rs t) = Returned v -> Inv v.
Proof.
  intros Hinv I0 R. rewrite run_fst in R.
  exact (loop_returns_inv Inv rs Hinv _ _ _ I0 R).
Qed.

Lemma run_ends rs r rest t :
  fst (run rs t) = Blocked ->
  ends_loop r ->
  run (rs ++ r :: rest) t = run (rs ++ [r]) t.
Proof.
  intros B E.
  destruct (run_resume (fun _ => True) rs t (fun _ _ _ => I) I B) as (s & _ & _ & R).
  unfold run, prompt_run, try_finally. rewrite !R.
  now rewrite (loop_ends r rest s _ E).
Qed.

Lemma run_fails rs r rest t :
  fst (run rs t) = Blocked ->
  keyOf r = None ->
  run (rs ++ r :: rest) t =
  (Threw,
   mkTerm false
     (effects (snd (run rs t))
        ++ EvRead r :: EvSetRaw false :: map EvWrite last_writes)).
Proof.
  intros B K.
  destruct (run_resume (fun _ => True) rs t (fun _ _ _ => I) I B) as (s & _ & _ & R).
  unfold run at 1. unfold prompt_run, try_finally. rewrite R.
  rewrite (loop_fails body _ _ _ _ K). unfold bind. simpl.
  f_equal. f_equal. same_effects.
Qed.

(** Two runs of keys that take the waiting state to the same state cannot
    be told apart by what follows. *)
Lemma run_same_state (Inv : S -> Prop) rs t :
  (forall key s, Inv s -> Inv (next key s)) ->
  Inv s0 ->
  fst (run rs t) = Blocked ->
  exists s,
    Inv s /\
    forall rs1 keys1 rs2 keys2 rest,
      Forall2 reads_key rs1 keys1 ->
      Forall2 reads_key rs2 keys2 ->
      run_keys next keys1 s = run_keys next keys2 s ->
      fst (run (rs ++ rs1 ++ rest) t) = fst (run (rs ++ rs2 ++ rest) t).
Proof.
  intros Hinv I0 B.
  destruct (run_resume Inv rs t Hinv I0 B) as (s & Is & _ & R).
  exists s. split; [exact Is|].
  intros rs1 keys1 rs2 keys2 rest F1 F2 E.
  rewrite !run_fst, !R.
  destruct (loop_keys rs1 keys1 F1 s (snd (run rs t))) as (t1 & _ & E1).
  destruct (loop_keys rs2 keys2 F2 s (snd (run rs t))) as (t2 & _ & E2).
  rewrite E1, E2, E. apply loop_fst_indep.
Qed.

(** A key whose iteration does nothing adds its read to the effects and
    nothing else. *)
Lemma run_idle_key rs r key t :
  fst (run rs t) = Blocked ->
  reads_key r key ->
  (forall s t', body key s t' = (Returned (Continue s), t')) ->
  run (rs ++ [r]) t = (Blocked, after (snd (run rs t)) [EvRead r]).
Proof.
  intros B (K & N1 & N2) Idle.
  destruct (run_resume (fun _ => True) rs t (fun _ _ _ => I) I B) as (s & _ & _ & R).
  unfold run at 1. unfold prompt_run, try_finally. rewrite R.
  simpl. unfold bind. rewrite readKey_eq, K, Idle. reflexivity.
Qed.

End Runs.

(* ------------------------------------------------------------------ *)
(** ** The four widgets as prompts *)

Lemma select_prompt question options defaultIndex :
  options <> [] ->
  prompt_of (fun stdin => select stdin question options defaultIndex)
    (select_onKey question options) [ansi.showCursor] (select_next options)
    defaultIndex (fun v => v) [ansi.showCursor].
Proof.
  intro N. split; [apply select_body_ok|].
  destruct (select_try_spec question options defaultIndex) as (ff & P).
  exists ff. intros stdin t T. rewrite (select_interactive _ _ _ _ T N).
  unfold prompt_run, try_finally, bind, ret. rewrite P.
  destruct (readKey_loop _ _ _ _) as [[v|c| |] t']; try reflexivity;
    rewrite select_finally_spec; reflexivity.
Qed.

Lemma input_prompt question defaultValue :
  prompt_of (fun stdin => input stdin question defaultValue)
    (input_onKey question defaultValue) [] input_next (lit "")
    (fun value => if truthy value then value else defaultValue) [].
Proof.
  split; [apply input_body_ok|].
  destruct (input_try_spec question defaultValue) as (ff & P).
  exists ff. intros stdin t T. rewrite (input_interactive _ _ _ T).
  unfold prompt_run, try_finally, bind, ret. rewrite P.
  destruct (readKey_loop _ _ _ _) as [[v|c| |] t']; reflexivity.
Qed.

Lemma rating_prompt question min max defaultValue :
  prompt_of (fun stdin => rating stdin question min max defaultValue)
    (rating_onKey question min max) [] (rating_next min max)
    defaultValue (fun v => v) [].
Proof.
  split; [apply rating_body_ok|].
  destruct (rating_try_spec question min max defaultValue) as (ff & P).
  exists ff. intros stdin t T. rewrite (rating_interactive _ _ _ _ _ T).
  unfold prompt_run, try_finally, bind, ret. rewrite P.
  destruct (readKey_loop _ _ _ _) as [[v|c| |] t']; reflexivity.
Qed.

Lemma confirm_prompt question defaultValue :
  prompt_of (fun stdin => confirm stdin question defaultValue)
    (confirm_onKey question) [] confirm_next defaultValue (fun v => v) [].
Proof.
  split; [apply confirm_body_ok|].
  destruct (confirm_try_spec question defaultValue) as (ff & P).
  exists ff. intros stdin t T. rewrite (confirm_interactive _ _ _ T).
  unfold prompt_run, try_finally, bind, ret. rewrite P.
  destruct (readKey_loop _ _ _ _) as [[v|c| |] t']; reflexivity.
Qed.

Section Prompts.

Context {S R : Type} (call : Stdin -> M R) (body : Key -> S -> M (Ctl S)).
Context (restore : list jsstring) (next : Key -> S -> S) (s0 : S).
Context (finish : S -> R) (last_writes : list jsstring).
Hypothesis call_spec : prompt_of call body restore next s0 finish last_writes.

Lemma prompt_keys_enter stdin rs keys e rest t :
  isTerminal stdin = true ->
  reads stdin = rs ++ e :: rest ->
  Forall2 reads_key rs keys ->
  keyOf e = Some KEnter ->
  fst (call stdin t) = Returned (finish (run_keys next keys s0)).
Proof.
  intros T E F K. destruct call_spec as (B & ff & C).
  rewrite (C stdin t T), bind_ret_map, E. simpl.
  now rewrite (run_keys_enter _ _ _ B ff last_writes s0 rs keys e rest t F K).
Qed.

Lemma prompt_returns_inv (Inv : S -> Prop) stdin t v :
  (forall key s, Inv s -> Inv (next key s)) ->
  Inv s0 ->
  isTerminal stdin = true ->
  fst (call stdin t) = Returned v ->
  exists s, Inv s /\ v = finish s.
Proof.
  intros Hinv I0 T Rv. destruct call_spec as (B & ff & C).
  rewrite (C stdin t T), bind_ret_map in Rv. simpl in Rv.
  destruct (fst (prompt_run body ff last_writes s0 (reads stdin) t)) as [s|c| |] eqn:E;
    try discriminate.
  exists s. split; [|simpl in Rv; congruence].
  exact (run_returns_inv _ _ _ B ff last_writes s0 Inv _ t s Hinv I0 E).
Qed.

Lemma prompt_ends stdin r rest t :
  isTerminal stdin = true ->
  fst (call stdin t) = Blocked ->
  ends_loop r ->
  call (more stdin (r :: rest)) t = call (more stdin [r]) t.
Proof.
  intros T Bl E. destruct call_spec as (B & ff & C).
  rewrite (C stdin t T), bind_ret_map in Bl. simpl in Bl.
  assert (Bl' : fst (prompt_run body ff last_writes s0 (reads stdin) t) = Blocked).
  { destruct (fst (prompt_run _ _ _ _ _ _)); simpl in Bl; congruence. }
  rewrite !(C (more stdin _) t T). unfold bind. rewrite !reads_more.
  now rewrite (run_ends _ _ _ B ff last_writes s0 _ r rest t Bl' E).
Qed.

Lemma prompt_fails stdin r rest t :
  isTerminal stdin = true ->
  fst (call stdin t) = Blocked ->
  keyOf r = None ->
  call (more stdin (r :: rest)) t =
  (Threw,
   mkTerm false
     (effects (snd (call stdin t))
        ++ EvRead r :: EvSetRaw false :: map EvWrite last_writes)).
Proof.
  intros T Bl K. destruct call_spec as (B & ff & C).
  rewrite (C stdin t T), bind_ret_map in Bl |- *. simpl in Bl |- *.
  assert (Bl' : fst (prompt_run body ff last_writes s0 (reads stdin) t) = Blocked).
  { destruct (fst (prompt_run _ _ _ _ _ _)); simpl in Bl; congruence. }
  rewrite (C (more stdin _) t T), bind_ret_map, reads_more.
  now rewrite (run_fails _ _ _ B ff last_writes s0 _ r rest t Bl' K).
Qed.

Lemma prompt_same_state (Inv : S -> Prop) stdin t :
  (forall key s, Inv s -> Inv (next key s)) ->
  Inv s0 ->
  isTerminal stdin = true ->
  fst (call stdin t) = Blocked ->
  exists s,
    Inv s /\
    forall rs1 keys1 rs2 keys2 rest,
      Forall2 reads_key rs1 keys1 ->
      Forall2 reads_key rs2 keys2 ->
      run_keys next keys1 s = run_keys next keys2 s ->
      fst (call (more stdin (rs1 ++ rest)) t) = fst (call (more stdin (rs2 ++ rest)) t).
Proof.
  intros Hinv I0 T Bl. destruct call_spec as (B & ff & C).
  rewrite (C stdin t T), bind_ret_map in Bl. simpl in Bl.
  assert (Bl' : fst (prompt_run body ff last_writes s0 (reads stdin) t) = Blocked).
  { destruct (fst (prompt_run _ _ _ _ _ _)); simpl in Bl; congruence. }
  destruct (run_same_state _ _ _ B ff last_writes s0 Inv _ t Hinv I0 Bl')
    as (s & Is & Same).
  exists s. split; [exact Is|].
  intros rs1 keys1 rs2 keys2 rest F1 F2 E.
  rewrite !(C (more stdin _) t T), !bind_ret_map, !reads_more. simpl.
  now rewrite (Same rs1 keys1 rs2 keys2 rest F1 F2 E).
Qed.

Lemma prompt_idle_key stdin r key t :
  isTerminal stdin = true ->
  fst (call stdin t) = Blocked ->
  reads_key r key ->
  (forall s t', body key s t' = (Returned (Continue s), t')) ->
  call (more stdin [r]) t = (Blocked, after (snd (call stdin t)) [EvRead r]).
Proof.
  intros T Bl K Idle. destruct call_spec as (B & ff & C).
  rewrite (C stdin t T), bind_ret_map in Bl |- *. simpl in Bl |- *.
  assert (Bl' : fst (prompt_run body ff last_writes s0 (reads stdin) t) = Blocked).
  { destruct (fst (prompt_run _ _ _ _ _ _)); simpl in Bl; congruence. }
  rewrite (C (more stdin _) t T), bind_ret_map, reads_more.
  now rewrite (run_idle_key _ _ _ B ff last_writes s0 _ r key t Bl' K Idle).
Qed.

End Prompts.

Lemma prompt_passes_over {S R} (call : Stdin -> M R) body restore next (s0 : S)
    finish last_writes stdin r key t :
  prompt_of call body restore next s0 finish last_writes ->
  isTerminal stdin = true ->
  fst (call stdin t) = Blocked ->
  reads_key r key ->
  (forall s t', body key s t' = (Returned (Continue s), t')) ->
  (forall s, next key s = s) ->
  passes_over call stdin r t.
Proof.
  intros P T B K Idle Same. split.
  - exact (prompt_idle_key _ _ _ _ _ _ _ P stdin r key t T B K Idle).
  - intro rest.
    destruct (prompt_same_state _ _ _ _ _ _ _ P (fun _ => True) stdin t
                (fun _ _ _ => I) I T B) as (s & _ & H).
    apply (H [r] [key] [] [] rest).
    + constructor; [exact K | constructor].
    + constructor.
    + simpl. apply Same.
Qed.

(* ------------------------------------------------------------------ *)
(** ** Further properties of the interactive path *)

(** X1. Keys a widget has no use for are passed over. While a call waits
    for a key, a read that is the escape key or decodes to [unknown] (so
    also an end of stream and an empty read), and for [select] backspace,
    left and right, for [input] the four arrows, for [rating] and [confirm]
    backspace, changes nothing: no frame is drawn, the call waits on, and
    the keys that follow have the outcome they would have had without it. *)
Theorem ignored_keys_are_passed_over :
  forall stdin question options defaultIndex defaultText min max defaultRate
         defaultAnswer r t,
    isTerminal stdin = true ->
    (In (keyOf r) [Some KEscape; Some KUnknown; Some KBackspace; Some KLeft;
                   Some KRight] ->
     fst (select stdin question options defaultIndex t) = Blocked ->
     passes_over (fun i => select i question options defaultIndex) stdin r t) /\
    (In (keyOf r) [Some KEscape; Some KUnknown; Some KUp; Some KDown; Some KLeft;
                   Some KRight] ->
     fst (input stdin question defaultText t) = Blocked ->
     passes_over (fun i => input i question defaultText) stdin r t) /\
    (In (keyOf r) [Some KEscape; Some KUnknown; Some KBackspace] ->
     fst (rating stdin question min max defaultRate t) = Blocked ->
     passes_over (fun i => rating i question min max defaultRate) stdin r t) /\
    (In (keyOf r) [Some KEscape; Some KUnknown; Some KBackspace] ->
     fst (confirm stdin question defaultAnswer t) = Blocked ->
     passes_over (fun i => confirm i question defaultAnswer) stdin r t).
Proof.
  intros stdin question options defaultIndex defaultText min max defaultRate
         defaultAnswer r t T.
  split; [|split; [|split]]; intros K B.
  - pose proof (select_prompt question options defaultIndex
                  (select_blocked_has_options _ _ _ _ _ B)) as P.
    simpl in K. decompose [or] K; try contradiction;
      match goal with
      | H : Some ?key = keyOf r |- _ =>
          apply (prompt_passes_over _ _ _ _ _ _ _ stdin r key t P T B);
            [repeat split; (symmetry; exact H) || discriminate
            | reflexivity | reflexivity]
      end.
  - pose proof (input_prompt question defaultText) as P.
    simpl in K. decompose [or] K; try contradiction;
      match goal with
      | H : Some ?key = keyOf r |- _ =>
          apply (prompt_passes_over _ _ _ _ _ _ _ stdin r key t P T B);
            [repeat split; (symmetry; exact H) || discriminate
            | reflexivity | reflexivity]
      end.
  - pose proof (rating_prompt question min max defaultRate) as P.
    simpl in K. decompose [or] K; try contradiction;
      match goal with
      | H : Some ?key = keyOf r |- _ =>
          apply (prompt_passes_over _ _ _ _ _ _ _ stdin r key t P T B);
            [repeat split; (symmetry; exact H) || discriminate
            | reflexivity | reflexivity]
      end.
  - pose proof (confirm_prompt question defaultAnswer) as P.
    simpl in K. decompose [or] K; try contradiction;
      match goal with
      | H : Some ?key = keyOf r |- _ =>
          apply (prompt_passes_over _ _ _ _ _ _ _ stdin r key t P T B);
            [repeat split; (symmetry; exact H) || discriminate
            | reflexivity | reflexivity]
      end.
Qed.

Lemma ignored_keys_are_passed_over_witness :
  isTerminal (tty [press_down]) = true /\
  In (keyOf ReadNull) [Some KEscape; Some KUnknown; Some KBackspace; Some KLeft;
                       Some KRight] /\
  fst (select (tty [press_down]) (lit "Pick") [lit "a"; lit "b"] 0 (mkTerm false []))
  = Blocked /\
  passes_over (fun i => select i (lit "Pick") [lit "a"; lit "b"] 0)
    (tty [press_down]) ReadNull (mkTerm false []) /\
  In (keyOf press_up) [Some KEscape; Some KUnknown; Some KUp; Some KDown; Some KLeft;
                       Some KRight] /\
  fst (input (tty [press_down]) (lit "Name") (lit "x") (mkTerm false [])) = Blocked /\
  passes_over (fun i => input i (lit "Name") (lit "x"))
    (tty [press_down]) press_up (mkTerm false []) /\
  In (keyOf (ReadBytes [])) [Some KEscape; Some KUnknown; Some KBackspace] /\
  fst (rating (tty [press_down]) (lit "Rate") 1 5 3 (mkTerm false [])) = Blocked /\
  passes_over (fun i => rating i (lit "Rate") 1 5 3)
    (tty [press_down]) (ReadBytes []) (mkTerm false []) /\
  In (keyOf press_backspace) [Some KEscape; Some KUnknown; Some KBackspace] /\
  fst (confirm (tty [press_down]) (lit "Sure") true (mkTerm false [])) = Blocked /\
  passes_over (fun i => confirm i (lit "Sure") true)
    (tty [press_down]) press_backspace (mkTerm false []).
Proof.
  split; [reflexivity|].
  split; [right; left; reflexivity|]. split; [reflexivity|].
  split.
  { exact (proj1 (ignored_keys_are_passed_over
                    (tty [press_down]) (lit "Pick") [lit "a"; lit "b"] 0 (lit "x")
                    1 5 3 true ReadNull (mkTerm false []) eq_refl)
             (or_intror (or_introl eq_refl)) eq_refl). }
  split; [right; right; left; reflexivity|]. split; [reflexivity|].
  split.
  { exact (proj1 (proj2 (ignored_keys_are_passed_over
                    (tty [press_down]) (lit "Name") [] 0 (lit "x")
                    1 5 3 true press_up (mkTerm false []) eq_refl))
             (or_intror (or_intror (or_introl eq_refl))) eq_refl). }
  split; [right; left; reflexivity|]. split; [reflexivity|].
  split.
  { exact (proj1 (proj2 (proj2 (ignored_keys_are_passed_over
                    (tty [press_down]) (lit "Rate") [] 0 (lit "x")
                    1 5 3 true (ReadBytes []) (mkTerm false []) eq_refl)))
             (or_intror (or_introl eq_refl)) eq_refl). }
  split; [right; right; left; reflexivity|]. split; [reflexivity|].
  exact (proj2 (proj2 (proj2 (ignored_keys_are_passed_over
                  (tty [press_down]) (lit "Sure") [] 0 (lit "x")
                  1 5 3 true press_backspace (mkTerm false []) eq_refl)))
           (or_intror (or_intror (or_introl eq_refl))) eq_refl).
Defined.

(** X2. A read that is rejected while a call waits for a key ends the call
    with the exception, after the [finally] block has run: the only effects
    after the read are the leaving of raw mode and, for [select], the
    showing of the cursor; reads that would follow are not consumed. *)
Theorem rejected_read_throws_after_cleanup :
  forall stdin question options defaultIndex defaultText min max defaultRate
         defaultAnswer rest t,
    isTerminal stdin = true ->
    (fst (select stdin question options defaultIndex t) = Blocked ->
     select (more stdin (ReadFails :: rest)) question options defaultIndex t =
     (Threw,
      mkTerm false
        (effects (snd (select stdin question options defaultIndex t))
           ++ [EvRead ReadFails; EvSetRaw false; EvWrite ansi.showCursor]))) /\
    (fst (input stdin question defaultText t) = Blocked ->
     input (more stdin (ReadFails :: rest)) question defaultText t =
     (Threw,
      mkTerm false
        (effects (snd (input stdin question defaultText t))
           ++ [EvRead ReadFails; EvSetRaw false]))) /\
    (fst (rating stdin question min max defaultRate t) = Blocked ->
     rating (more stdin (ReadFails :: rest)) question min max defaultRate t =
     (Threw,
      mkTerm false
        (effects (snd (rating stdin question min max defaultRate t))
           ++ [EvRead ReadFails; EvSetRaw false]))) /\
    (fst (confirm stdin question defaultAnswer t) = Blocked ->
     confirm (more stdin (ReadFails :: rest)) question defaultAnswer t =
     (Threw,
      mkTerm false
        (effects (snd (confirm stdin question defaultAnswer t))
           ++ [EvRead ReadFails; EvSetRaw false]))).
Proof.
  intros stdin question options defaultIndex defaultText min max defaultRate
         defaultAnswer rest t T.
  split; [|split; [|split]]; intro B.
  - exact (prompt_fails _ _ _ _ _ _ _
             (select_prompt question options defaultIndex
                (select_blocked_has_options _ _ _ _ _ B))
             stdin ReadFails rest t T B eq_refl).
  - exact (prompt_fails _ _ _ _ _ _ _ (input_prompt question defaultText)
             stdin ReadFails rest t T B eq_refl).
  - exact (prompt_fails _ _ _ _ _ _ _ (rating_prompt question min max defaultRate)
             stdin ReadFails rest t T B eq_refl).
  - exact (prompt_fails _ _ _ _ _ _ _ (confirm_prompt question defaultAnswer)
             stdin ReadFails rest t T B eq_refl).
Qed.

Lemma rejected_read_throws_after_cleanup_witness :
  isTerminal (tty [press_down]) = true /\
  fst (select (tty [press_down]) (lit "Pick") [lit "a"; lit "b"] 0 (mkTerm false []))
  = Blocked /\
  fst (select (tty [press_down; ReadFails; press_enter]) (lit "Pick")
         [lit "a"; lit "b"] 0 (mkTerm false [])) = Threw /\
  fst (input (tty [press_down]) (lit "Name") (lit "x") (mkTerm false [])) = Blocked /\
  fst (input (tty [press_down; ReadFails; press_enter]) (lit "Name") (lit "x")
         (mkTerm false [])) = Threw /\
  fst (rating (tty [press_down]) (lit "Rate") 1 5 3 (mkTerm false [])) = Blocked /\
  fst (rating (tty [press_down; ReadFails; press_enter]) (lit "Rate") 1 5 3
         (mkTerm false [])) = Threw /\
  fst (confirm (tty [press_down]) (lit "Sure") true (mkTerm false [])) = Blocked /\
  fst (confirm (tty [press_down; ReadFails; press_enter]) (lit "Sure") true
         (mkTerm false [])) = Threw.
Proof.
  pose proof (rejected_read_throws_after_cleanup
                (tty [press_down]) (lit "Pick") [lit "a"; lit "b"] 0 (lit "x")
                1 5 3 true [press_enter] (mkTerm false []) eq_refl) as Hs.
  pose proof (rejected_read_throws_after_cleanup
                (tty [press_down]) (lit "Name") [] 0 (lit "x")
                1 5 3 true [press_enter] (mkTerm false []) eq_refl) as Hi.
  pose proof (rejected_read_throws_after_cleanup
                (tty [press_down]) (lit "Rate") [] 0 (lit "x")
                1 5 3 true [press_enter] (mkTerm false []) eq_refl) as Hr.
  pose proof (rejected_read_throws_after_cleanup
                (tty [press_down]) (lit "Sure") [] 0 (lit "x")
                1 5 3 true [press_enter] (mkTerm false []) eq_refl) as Hc.
  split; [reflexivity|].
  split; [reflexivity|]. split; [exact (f_equal fst (proj1 Hs eq_refl))|].
  split; [reflexivity|]. split; [exact (f_equal fst (proj1 (proj2 Hi) eq_refl))|].
  split; [reflexivity|].
  split; [exact (f_equal fst (proj1 (proj2 (proj2 Hr)) eq_refl))|].
  split; [reflexivity|].
  exact (f_equal fst (proj2 (proj2 (proj2 Hc)) eq_refl)).
Defined.

(** X3. A call reads no further than the read that ends its loop. When a
    call waits for a key and the next read is enter, the interrupt key or a
    rejected read, the outcome and every effect of the call are the same
    whatever reads come after it: they stay in standard input for whoever
    reads next. *)
Theorem reads_after_the_ending_key_are_left_unread :
  forall stdin question options defaultIndex defaultText min max defaultRate
         defaultAnswer r rest t,
    isTerminal stdin = true ->
    ends_loop r ->
    (fst (select stdin question options defaultIndex t) = Blocked ->
     select (more stdin (r :: rest)) question options defaultIndex t
     = select (more stdin [r]) question options defaultIndex t) /\
    (fst (input stdin question defaultText t) = Blocked ->
     input (more stdin (r :: rest)) question defaultText t
     = input (more stdin [r]) question defaultText t) /\
    (fst (rating stdin question min max defaultRate t) = Blocked ->
     rating (more stdin (r :: rest)) question min max defaultRate t
     = rating (more stdin [r]) question min max defaultRate t) /\
    (fst (confirm stdin question defaultAnswer t) = Blocked ->
     confirm (more stdin (r :: rest)) question defaultAnswer t
     = confirm (more stdin [r]) question defaultAnswer t).
Proof.
  intros stdin question options defaultIndex defaultText min max defaultRate
         defaultAnswer r rest t T E.
  split; [|split; [|split]]; intro B.
  - exact (prompt_ends _ _ _ _ _ _ _
             (select_prompt question options defaultIndex
                (select_blocked_has_options _ _ _ _ _ B))
             stdin r rest t T B E).
  - exact (prompt_ends _ _ _ _ _ _ _ (input_prompt question defaultText)
             stdin r rest t T B E).
  - exact (prompt_ends _ _ _ _ _ _ _ (rating_prompt question min max defaultRate)
             stdin r rest t T B E).
  - exact (prompt_ends _ _ _ _ _ _ _ (confirm_prompt question defaultAnswer)
             stdin r rest t T B E).
Qed.

Lemma reads_after_the_ending_key_are_left_unread_witness :
  isTerminal (tty [press_down]) = true /\
  ends_loop press_enter /\
  fst (select (tty [press_down]) (lit "Pick") [lit "a"; lit "b"] 0 (mkTerm false []))
  = Blocked /\
  select (tty [press_down; press_enter; press_up; press_ctrl_c]) (lit "Pick")
    [lit "a"; lit "b"] 0 (mkTerm false [])
  = select (tty [press_down; press_enter]) (lit "Pick") [lit "a"; lit "b"] 0
      (mkTerm false []) /\
  fst (input (tty [press_down]) (lit "Name") (lit "x") (mkTerm false [])) = Blocked /\
  input (tty [press_down; press_enter; press_up; press_ctrl_c]) (lit "Name") (lit "x")
    (mkTerm false [])
  = input (tty [press_down; press_enter]) (lit "Name") (lit "x") (mkTerm false []) /\
  fst (rating (tty [press_down]) (lit "Rate") 1 5 3 (mkTerm false [])) = Blocked /\
  rating (tty [press_down; press_enter; press_up; press_ctrl_c]) (lit "Rate") 1 5 3
    (mkTerm false [])
  = rating (tty [press_down; press_enter]) (lit "Rate") 1 5 3 (mkTerm false []) /\
  fst (confirm (tty [press_down]) (lit "Sure") true (mkTerm false [])) = Blocked /\
  confirm (tty [press_down; press_enter; press_up; press_ctrl_c]) (lit "Sure") true
    (mkTerm false [])
  = confirm (tty [press_down; press_enter]) (lit "Sure") true (mkTerm false []).
Proof.
  assert (E : ends_loop press_enter) by (right; right; reflexivity).
  pose proof (reads_after_the_ending_key_are_left_unread
                (tty [press_down]) (lit "Pick") [lit "a"; lit "b"] 0 (lit "x")
                1 5 3 true press_enter [press_up; press_ctrl_c] (mkTerm false [])
                eq_refl E) as Hs.
  pose proof (reads_after_the_ending_key_are_left_unread
                (tty [press_down]) (lit "Name") [] 0 (lit "x")
                1 5 3 true press_enter [press_up; press_ctrl_c] (mkTerm false [])
                eq_refl E) as Hi.
  pose proof (reads_after_the_ending_key_are_left_unread
                (tty [press_down]) (lit "Rate") [] 0 (lit "x")
                1 5 3 true press_enter [press_up; press_ctrl_c] (mkTerm false [])
                eq_refl E) as Hr.
  pose proof (reads_after_the_ending_key_are_left_unread
                (tty [press_down]) (lit "Sure") [] 0 (lit "x")
                1 5 3 true press_enter [press_up; press_ctrl_c] (mkTerm false [])
                eq_refl E) as Hc.
  split; [reflexivity|]. split; [exact E|].
  split; [reflexivity|]. split; [exact (proj1 Hs eq_refl)|].
  split; [reflexivity|]. split; [exact (proj1 (proj2 Hi) eq_refl)|].
  split; [reflexivity|]. split; [exact (proj1 (proj2 (proj2 Hr)) eq_refl)|].
  split; [reflexivity|]. exact (proj2 (proj2 (proj2 Hc)) eq_refl).
Defined.

(* ------------------------------------------------------------------ *)
(** ** The fallback path *)

Lemma logger_ret {A} (a : A) : logger (ret a) a 0.
Proof.
  exists []. split; [reflexivity|]. split; [constructor|].
  intro t. unfold ret. now rewrite after_nil.
Qed.

Lemma logger_log text : logger (console_log text) tt 1.
Proof.
  exists [EvLog text]. split; [reflexivity|].
  split; [repeat constructor|]. reflexivity.
Qed.

Lemma logger_prompt stdin message :
  isTerminal stdin = false -> logger (prompt stdin message) None 1.
Proof.
  intro T. exists [EvPrompt message]. split; [reflexivity|].
  split; [repeat constructor|]. intro t. unfold prompt. now rewrite T.
Qed.

Lemma logger_bind {A B} (m : M A) (k : A -> M B) a b n1 n2 n :
  logger m a n1 -> logger (k a) b n2 -> n = (n1 + n2)%nat ->
  logger (bind m k) b n.
Proof.
  intros (e1 & L1 & F1 & E1) (e2 & L2 & F2 & E2) ->.
  exists (e1 ++ e2). split; [rewrite length_app; congruence|].
  split; [apply Forall_app; auto|].
  intro t. unfold bind. rewrite E1, E2, after_after. reflexivity.
Qed.

Lemma forEach_from_logger {A} (f : A -> Z -> M unit) xs :
  (forall x i, logger (f x i) tt 1) ->
  forall i, logger (forEach_from i xs f) tt (List.length xs).
Proof.
  intro Hf. induction xs as [|x xs IH]; intro i; simpl.
  - apply logger_ret.
  - eapply logger_bind; [apply Hf | apply IH | reflexivity].
Qed.

(** The fallback answers with the default: [prompt] yields no line. *)
Lemma select_fallback_eq stdin question options defaultIndex :
  isTerminal stdin = false -> options <> [] ->
  logger (select stdin question options defaultIndex) defaultIndex
    (List.length options + 2).
Proof.
  intros T N. unfold select. rewrite T.
  destruct options as [|o os]; [congruence|].
  cbv beta iota zeta.
  replace (Z.of_nat (List.length (o :: os)) =? 0) with false
    by (symmetry; apply Z.eqb_neq; simpl List.length; lia).
  simpl negb. cbv iota.
  eapply (logger_bind _ _ _ _ 1 (List.length (o :: os) + 1));
    [apply logger_log | | simpl; lia].
  eapply (logger_bind _ _ _ _ (List.length (o :: os)) 1);
    [apply (forEach_from_logger _ (o :: os)); intros; apply logger_log
    | | reflexivity].
  eapply (logger_bind _ _ _ _ 1 0);
    [apply (logger_prompt _ _ T) | apply logger_ret | reflexivity].
Qed.

Lemma input_fallback_eq stdin question defaultValue :
  isTerminal stdin = false ->
  logger (input stdin question defaultValue) defaultValue 1.
Proof.
  intros T. unfold input. rewrite T. simpl negb. cbv iota zeta.
  eapply (logger_bind _ _ _ _ 1 0);
    [apply (logger_prompt _ _ T) | apply logger_ret | reflexivity].
Qed.

Lemma rating_fallback_eq stdin question min max defaultValue :
  isTerminal stdin = false ->
  logger (rating stdin question min max defaultValue) defaultValue 1.
Proof.
  intros T. unfold rating. rewrite T. simpl negb. cbv iota.
  eapply (logger_bind _ _ _ _ 1 0);
    [apply (logger_prompt _ _ T) | apply logger_ret | reflexivity].
Qed.

Lemma confirm_fallback_eq stdin question defaultValue :
  isTerminal stdin = false ->
  logger (confirm stdin question defaultValue) defaultValue 1.
Proof.
  intros T. unfold confirm. rewrite T. simpl negb. cbv iota zeta.
  eapply (logger_bind _ _ _ _ 1 0);
    [apply (logger_prompt _ _ T) | apply logger_ret | reflexivity].
Qed.

Lemma logger_fst {A} (m : M A) a n t : logger m a n -> fst (m t) = Returned a.
Proof. intros (evs & _ & _ & E). now rewrite E. Qed.

Lemma jsstring_eqb_eq a b : jsstring_eqb a b = true <-> a = b.
Proof.
  unfold jsstring_eqb. destruct (list_eq_dec N.eq_dec a b); split; auto;
    discriminate.
Qed.

(** X4. When standard input is not a terminal no widget touches the
    terminal: the call returns (it never waits for a key, throws or ends
    the process), raw mode is left as it was, nothing is read with
    [Deno.stdin.read] or written with [write], and the only effects are
    console lines and one [prompt]: the question, a line per option and the
    prompt for [select] with options, the prompt alone for the others. *)
Theorem fallback_only_uses_the_console :
  forall stdin question options defaultIndex defaultText min max defaultRate
         defaultAnswer,
    isTerminal stdin = false ->
    (options <> [] ->
     exists v, logger (select stdin question options defaultIndex) v
                 (List.length options + 2)) /\
    (exists v, logger (input stdin question defaultText) v 1) /\
    (exists v, logger (rating stdin question min max defaultRate) v 1) /\
    (exists v, logger (confirm stdin question defaultAnswer) v 1).
Proof.
  intros stdin question options defaultIndex defaultText min max defaultRate
         defaultAnswer T.
  split; [|split; [|split]].
  - intro N. eexists. exact (select_fallback_eq _ _ _ _ T N).
  - eexists. exact (input_fallback_eq _ _ _ T).
  - eexists. exact (rating_fallback_eq _ _ _ _ _ T).
  - eexists. exact (confirm_fallback_eq _ _ _ T).
Qed.

Lemma fallback_only_uses_the_console_witness :
  isTerminal (mkStdin false [press_enter] (Some (lit "2"))) = false /\
  [lit "a"; lit "b"] <> [] /\
  (exists v, logger (select (mkStdin false [press_enter] (Some (lit "2"))) (lit "Pick")
                       [lit "a"; lit "b"] 0) v 4) /\
  (exists v, logger (input (mkStdin false [press_enter] (Some (lit "2"))) (lit "Pick")
                       (lit "x")) v 1).
Proof.
  split; [reflexivity|]. split; [discriminate|].
  destruct (fallback_only_uses_the_console
              (mkStdin false [press_enter] (Some (lit "2"))) (lit "Pick")
              [lit "a"; lit "b"] 0 (lit "x") 1 5 3 true eq_refl)
    as (Hs & Hi & _).
  split; [apply Hs; discriminate | exact Hi].
Defined.

(** X5. [select] returns an index of the option list. Whenever the default
    index is one, every call that returns, on a terminal after any keys or
    from the fallback after any line, returns an index between 0 and
    [len - 1]. *)
Theorem select_returns_an_index_of_the_list :
  forall stdin question options defaultIndex t v,
    0 <= defaultIndex <= Z.of_nat (List.length options) - 1 ->
    fst (select stdin question options defaultIndex t) = Returned v ->
    0 <= v <= Z.of_nat (List.length options) - 1.
Proof.
  intros stdin question options defaultIndex t v D Rv.
  assert (N : options <> []) by (intros ->; simpl in D; lia).
  destruct (isTerminal stdin) eqn:T.
  - destruct (prompt_returns_inv _ _ _ _ _ _ _
                (select_prompt question options defaultIndex N)
                (fun s => 0 <= s <= Z.of_nat (List.length options) - 1)
                stdin t v (select_next_in_range options) D T Rv)
      as (s & Is & ->). exact Is.
  - rewrite (logger_fst _ _ _ t (select_fallback_eq _ question _ defaultIndex T N))
      in Rv.
    injection Rv as <-. exact D.
Qed.

Lemma select_returns_an_index_of_the_list_witness :
  0 <= 1 <= Z.of_nat (List.length [lit "a"; lit "b"; lit "c"]) - 1 /\
  fst (select (tty [press_down; press_down; press_down; press_enter]) (lit "Pick")
         [lit "a"; lit "b"; lit "c"] 1 (mkTerm false [])) = Returned 2 /\
  0 <= 2 <= Z.of_nat (List.length [lit "a"; lit "b"; lit "c"]) - 1.
Proof.
  split; [simpl; lia|]. split; [reflexivity|].
  exact (select_returns_an_index_of_the_list
           (tty [press_down; press_down; press_down; press_enter]) (lit "Pick")
           [lit "a"; lit "b"; lit "c"] 1 (mkTerm false []) 2
           ltac:(simpl; lia) eq_refl).
Defined.

(** X6. [rating] returns a value of its scale. Whenever the default lies
    between [min] and [max], every call that returns, on a terminal after
    any keys or from the fallback after any line, returns a value between
    [min] and [max]. *)
Theorem rating_returns_a_value_of_the_scale :
  forall stdin question min max defaultValue t v,
    min <= defaultValue <= max ->
    fst (rating stdin question min max defaultValue t) = Returned v ->
    min <= v <= max.
Proof.
  intros stdin question min max defaultValue t v D Rv.
  destruct (isTerminal stdin) eqn:T.
  - destruct (prompt_returns_inv _ _ _ _ _ _ _
                (rating_prompt question min max defaultValue)
                (fun s => min <= s <= max)
                stdin t v (rating_next_in_range min max) D T Rv)
      as (s & Is & ->). exact Is.
  - rewrite (logger_fst _ _ _ t (rating_fallback_eq _ question _ _ defaultValue T))
      in Rv.
    injection Rv as <-. exact D.
Qed.

Lemma rating_returns_a_value_of_the_scale_witness :
  1 <= 3 <= 5 /\
  fst (rating (mkStdin false [] (Some (lit "9"))) (lit "Rate") 1 5 3 (mkTerm false []))
  = Returned 3 /\
  1 <= 3 <= 5.
Proof.
  split; [lia|]. split; [reflexivity|].
  exact (rating_returns_a_value_of_the_scale
           (mkStdin false [] (Some (lit "9"))) (lit "Rate") 1 5 3 (mkTerm false []) 3
           ltac:(lia) eq_refl).
Defined.





(* ------------------------------------------------------------------ *)
(** ** Whole runs of keys *)

Lemma reads_of_one_key key rs :
  key <> KCtrlC -> key <> KEnter ->
  Forall (fun r => keyOf r = Some key) rs ->
  Forall2 reads_key rs (repeat key (List.length rs)).
Proof.
  intros N1 N2. induction 1 as [|r rs K _ IH]; simpl; constructor; auto.
  repeat split; assumption.
Qed.

Lemma run_keys_cons {S} (next : Key -> S -> S) key keys s :
  run_keys next (key :: keys) s = run_keys next keys (next key s).
Proof. reflexivity. Qed.

Lemma run_keys_app {S} (next : Key -> S -> S) keys1 keys2 s :
  run_keys next (keys1 ++ keys2) s = run_keys next keys2 (run_keys next keys1 s).
Proof. apply fold_left_app. Qed.

Lemma select_run_down options n : forall s,
  0 <= s <= Z.of_nat (List.length options) - 1 ->
  run_keys (select_next options) (repeat KDown n) s
  = Z.min (Z.of_nat (List.length options) - 1) (s + Z.of_nat n).
Proof.
  induction n as [|n IH]; intros s H.
  - simpl. lia.
  - simpl repeat. rewrite run_keys_cons.
    rewrite IH by (apply select_next_in_range; exact H).
    simpl select_next.
    destruct (Z.ltb_spec s (Z.of_nat (List.length options) - 1)); lia.
Qed.

Lemma select_run_up options n : forall s,
  0 <= s <= Z.of_nat (List.length options) - 1 ->
  run_keys (select_next options) (repeat KUp n) s = Z.max 0 (s - Z.of_nat n).
Proof.
  induction n as [|n IH]; intros s H.
  - simpl. lia.
  - simpl repeat. rewrite run_keys_cons.
    rewrite IH by (apply select_next_in_range; exact H).
    simpl select_next.
    destruct (Z.gtb_spec s 0); lia.
Qed.

(** X11. Arrow keys in [select] add up and stop at the ends of the list.
    On a terminal, with a default that is an index of the list, [n] downs
    and enter return [default + n], and [n] ups and enter [default - n],
    cut off at [len - 1] and at 0: the selection never wraps around. *)
Theorem select_arrows_add_up_and_stop_at_the_ends :
  forall stdin question options defaultIndex rs e rest t,
    isTerminal stdin = true ->
    0 <= defaultIndex <= Z.of_nat (List.length options) - 1 ->
    reads stdin = rs ++ e :: rest ->
    keyOf e = Some KEnter ->
    (Forall (fun r => keyOf r = Some KDown) rs ->
     fst (select stdin question options defaultIndex t)
     = Returned (Z.min (Z.of_nat (List.length options) - 1)
                   (defaultIndex + Z.of_nat (List.length rs)))) /\
    (Forall (fun r => keyOf r = Some KUp) rs ->
     fst (select stdin question options defaultIndex t)
     = Returned (Z.max 0 (defaultIndex - Z.of_nat (List.length rs)))).
Proof.
  intros stdin question options defaultIndex rs e rest t T D E K.
  assert (N : options <> []) by (intros ->; simpl in D; lia).
  pose proof (select_prompt question options defaultIndex N) as P.
  split; intro F.
  - rewrite (prompt_keys_enter _ _ _ _ _ _ _ P stdin rs _ e rest t T E
               (reads_of_one_key KDown rs ltac:(discriminate) ltac:(discriminate) F) K).
    now rewrite select_run_down.
  - rewrite (prompt_keys_enter _ _ _ _ _ _ _ P stdin rs _ e rest t T E
               (reads_of_one_key KUp rs ltac:(discriminate) ltac:(discriminate) F) K).
    now rewrite select_run_up.
Qed.

Lemma select_arrows_add_up_and_stop_at_the_ends_witness :
  isTerminal (tty [press_down; press_down; press_down; press_enter]) = true /\
  0 <= 1 <= Z.of_nat (List.length [lit "a"; lit "b"; lit "c"]) - 1 /\
  keyOf press_enter = Some KEnter /\
  Forall (fun r => keyOf r = Some KDown) [press_down; press_down; press_down] /\
  fst (select (tty [press_down; press_down; press_down; press_enter]) (lit "Pick")
         [lit "a"; lit "b"; lit "c"] 1 (mkTerm false []))
  = Returned (Z.min (Z.of_nat (List.length [lit "a"; lit "b"; lit "c"]) - 1)
                (1 + Z.of_nat (List.length [press_down; press_down; press_down]))) /\
  Forall (fun r => keyOf r = Some KUp) [press_up; press_up] /\
  fst (select (tty [press_up; press_up; press_enter]) (lit "Pick")
         [lit "a"; lit "b"; lit "c"] 1 (mkTerm false []))
  = Returned (Z.max 0 (1 - Z.of_nat (List.length [press_up; press_up]))).
Proof.
  split; [reflexivity|]. split; [simpl; lia|]. split; [reflexivity|].
  assert (Fd : Forall (fun r => keyOf r = Some KDown)
                 [press_down; press_down; press_down])
    by (repeat constructor).
  assert (Fu : Forall (fun r => keyOf r = Some KUp) [press_up; press_up])
    by (repeat constructor).
  split; [exact Fd|]. split.
  - exact (proj1 (select_arrows_add_up_and_stop_at_the_ends
                    (tty [press_down; press_down; press_down; press_enter])
                    (lit "Pick") [lit "a"; lit "b"; lit "c"] 1
                    [press_down; press_down; press_down] press_enter []
                    (mkTerm false []) eq_refl ltac:(simpl; lia) eq_refl eq_refl) Fd).
  - split; [exact Fu|].
    exact (proj2 (select_arrows_add_up_and_stop_at_the_ends
                    (tty [press_up; press_up; press_enter])
                    (lit "Pick") [lit "a"; lit "b"; lit "c"] 1
                    [press_up; press_up] press_enter []
                    (mkTerm false []) eq_refl ltac:(simpl; lia) eq_refl eq_refl) Fu).
Defined.

Lemma reads_among allowed rs :
  ~ In None allowed -> ~ In (Some KCtrlC) allowed -> ~ In (Some KEnter) allowed ->
  Forall (fun r => In (keyOf r) allowed) rs ->
  exists keys,
    Forall2 reads_key rs keys /\
    Forall (fun key => In (Some key) allowed) keys /\
    List.length keys = List.length rs.
Proof.
  intros N0 N1 N2. induction 1 as [|r rs K _ (keys & F2 & F & L)].
  - exists []. repeat split; constructor.
  - destruct (keyOf r) as [key|] eqn:E; [|contradiction].
    exists (key :: keys). split; [|split].
    + constructor; [|exact F2]. repeat split; [exact E| |]; intros ->; contradiction.
    + constructor; assumption.
    + simpl. now rewrite L.
Qed.

Lemma rating_run_up min max keys : forall s,
  min <= s <= max ->
  Forall (fun key => In (Some key) [Some KRight; Some KUp]) keys ->
  run_keys (rating_next min max) keys s = Z.min max (s + Z.of_nat (List.length keys)).
Proof.
  induction keys as [|key keys IH]; intros s H F.
  - simpl. lia.
  - inversion F as [|? ? K F']; subst. rewrite run_keys_cons.
    rewrite IH by (auto using rating_next_in_range).
    assert (E : rating_next min max key s = if s <? max then s + 1 else s).
    { simpl in K. destruct K as [K|[K|[]]]; injection K as <-; reflexivity. }
    rewrite E. simpl List.length. destruct (Z.ltb_spec s max); lia.
Qed.

Lemma rating_run_down min max keys : forall s,
  min <= s <= max ->
  Forall (fun key => In (Some key) [Some KLeft; Some KDown]) keys ->
  run_keys (rating_next min max) keys s = Z.max min (s - Z.of_nat (List.length keys)).
Proof.
  induction keys as [|key keys IH]; intros s H F.
  - simpl. lia.
  - inversion F as [|? ? K F']; subst. rewrite run_keys_cons.
    rewrite IH by (auto using rating_next_in_range).
    assert (E : rating_next min max key s = if s >? min then s - 1 else s).
    { simpl in K. destruct K as [K|[K|[]]]; injection K as <-; reflexivity. }
    rewrite E. simpl List.length. destruct (Z.gtb_spec s min); lia.
Qed.

Ltac not_in_keys := simpl; intuition discriminate.

(** X12. Arrow keys in [rating] add up and stop at the ends of the scale.
    On a terminal, with a default between [min] and [max], [n] keys that
    are each right or up, then enter, return [default + n] cut off at
    [max], and [n] keys that are each left or down, then enter, return
    [default - n] cut off at [min]. *)
Theorem rating_arrows_add_up_and_stop_at_the_ends :
  forall stdin question min max defaultValue rs e rest t,
    isTerminal stdin = true ->
    min <= defaultValue <= max ->
    reads stdin = rs ++ e :: rest ->
    keyOf e = Some KEnter ->
    (Forall (fun r => In (keyOf r) [Some KRight; Some KUp]) rs ->
     fst (rating stdin question min max defaultValue t)
     = Returned (Z.min max (defaultValue + Z.of_nat (List.length rs)))) /\
    (Forall (fun r => In (keyOf r) [Some KLeft; Some KDown]) rs ->
     fst (rating stdin question min max defaultValue t)
     = Returned (Z.max min (defaultValue - Z.of_nat (List.length rs)))).
Proof.
  intros stdin question min max defaultValue rs e rest t T D E K.
  pose proof (rating_prompt question min max defaultValue) as P.
  split; intro F.
  - destruct (reads_among [Some KRight; Some KUp] rs ltac:(not_in_keys)
                ltac:(not_in_keys) ltac:(not_in_keys) F) as (keys & F2 & Fk & L).
    rewrite (prompt_keys_enter _ _ _ _ _ _ _ P stdin rs keys e rest t T E F2 K).
    now rewrite rating_run_up, L.
  - destruct (reads_among [Some KLeft; Some KDown] rs ltac:(not_in_keys)
                ltac:(not_in_keys) ltac:(not_in_keys) F) as (keys & F2 & Fk & L).
    rewrite (prompt_keys_enter _ _ _ _ _ _ _ P stdin rs keys e rest t T E F2 K).
    now rewrite rating_run_down, L.
Qed.

Lemma rating_arrows_add_up_and_stop_at_the_ends_witness :
  isTerminal (tty [press_right; press_up; press_up; press_enter]) = true /\
  1 <= 3 <= 5 /\
  keyOf press_enter = Some KEnter /\
  Forall (fun r => In (keyOf r) [Some KRight; Some KUp])
    [press_right; press_up; press_up] /\
  fst (rating (tty [press_right; press_up; press_up; press_enter]) (lit "Rate") 1 5 3
         (mkTerm false []))
  = Returned (Z.min 5 (3 + Z.of_nat (List.length [press_right; press_up; press_up]))) /\
  Forall (fun r => In (keyOf r) [Some KLeft; Some KDown]) [press_left; press_down] /\
  fst (rating (tty [press_left; press_down; press_enter]) (lit "Rate") 1 5 3
         (mkTerm false []))
  = Returned (Z.max 1 (3 - Z.of_nat (List.length [press_left; press_down]))).
Proof.
  split; [reflexivity|]. split; [lia|]. split; [reflexivity|].
  assert (Fu : Forall (fun r => In (keyOf r) [Some KRight; Some KUp])
                 [press_right; press_up; press_up]).
  { repeat first [apply Forall_nil | apply Forall_cons; [simpl; auto|]]. }
  assert (Fd : Forall (fun r => In (keyOf r) [Some KLeft; Some KDown])
                 [press_left; press_down]).
  { repeat first [apply Forall_nil | apply Forall_cons; [simpl; auto|]]. }
  split; [exact Fu|]. split.
  - exact (proj1 (rating_arrows_add_up_and_stop_at_the_ends
                    (tty [press_right; press_up; press_up; press_enter]) (lit "Rate")
                    1 5 3 [press_right; press_up; press_up] press_enter []
                    (mkTerm false []) eq_refl ltac:(lia) eq_refl eq_refl) Fu).
  - split; [exact Fd|].
    exact (proj2 (rating_arrows_add_up_and_stop_at_the_ends
                    (tty [press_left; press_down; press_enter]) (lit "Rate")
                    1 5 3 [press_left; press_down] press_enter []
                    (mkTerm false []) eq_refl ltac:(lia) eq_refl eq_refl) Fd).
Defined.

Lemma confirm_run_arrows keys : forall value,
  Forall (fun key => In (Some key) [Some KUp; Some KDown; Some KLeft; Some KRight]) keys ->
  run_keys confirm_next keys value
  = if Nat.even (List.length keys) then value else negb value.
Proof.
  induction keys as [|key keys IH]; intros value F; [reflexivity|].
  inversion F as [|? ? K F']; subst. rewrite run_keys_cons, IH by exact F'.
  assert (E : confirm_next key value = negb value).
  { simpl in K. destruct K as [K|[K|[K|[K|[]]]]]; injection K as <-; reflexivity. }
  rewrite E. cbn [List.length]. rewrite Nat.even_succ, <- Nat.negb_even.
  destruct (Nat.even (List.length keys)); simpl; [reflexivity|].
  apply negb_involutive.
Qed.

(** X13. Arrow keys in [confirm] toggle, so only their parity counts. On a
    terminal, any [n] arrow keys (up, down, left or right, in any mix) and
    enter return the default when [n] is even and its negation when [n] is
    odd. *)
Theorem confirm_arrows_count_by_parity :
  forall stdin question defaultValue rs e rest t,
    isTerminal stdin = true ->
    reads stdin = rs ++ e :: rest ->
    keyOf e = Some KEnter ->
    Forall (fun r => In (keyOf r) [Some KUp; Some KDown; Some KLeft; Some KRight]) rs ->
    fst (confirm stdin question defaultValue t)
    = Returned (if Nat.even (List.length rs) then defaultValue else negb defaultValue).
Proof.
  intros stdin question defaultValue rs e rest t T E K F.
  destruct (reads_among [Some KUp; Some KDown; Some KLeft; Some KRight] rs
              ltac:(not_in_keys) ltac:(not_in_keys) ltac:(not_in_keys) F)
    as (keys & F2 & Fk & L).
  rewrite (prompt_keys_enter _ _ _ _ _ _ _ (confirm_prompt question defaultValue)
             stdin rs keys e rest t T E F2 K).
  now rewrite confirm_run_arrows, L.
Qed.

Lemma confirm_arrows_count_by_parity_witness :
  isTerminal (tty [press_left; press_up; press_right; press_enter]) = true /\
  keyOf press_enter = Some KEnter /\
  Forall (fun r => In (keyOf r) [Some KUp; Some KDown; Some KLeft; Some KRight])
    [press_left; press_up; press_right] /\
  fst (confirm (tty [press_left; press_up; press_right; press_enter]) (lit "Sure") false
         (mkTerm false []))
  = Returned (if Nat.even (List.length [press_left; press_up; press_right])
              then false else negb false).
Proof.
  split; [reflexivity|]. split; [reflexivity|].
  assert (F : Forall (fun r => In (keyOf r)
                                 [Some KUp; Some KDown; Some KLeft; Some KRight])
                [press_left; press_up; press_right]).
  { repeat first [apply Forall_nil | apply Forall_cons; [simpl; auto|]]. }
  split; [exact F|].
  exact (confirm_arrows_count_by_parity
           (tty [press_left; press_up; press_right; press_enter]) (lit "Sure") false
           [press_left; press_up; press_right] press_enter [] (mkTerm false [])
           eq_refl eq_refl eq_refl F).
Defined.

Lemma input_run_typed texts : forall value,
  run_keys input_next (map KChar texts) value = value ++ List.concat texts.
Proof.
  induction texts as [|text texts IH]; intro value.
  - simpl. now rewrite app_nil_r.
  - simpl map. rewrite run_keys_cons, IH. simpl. now rewrite app_assoc.
Qed.

Lemma reads_of_texts rs texts :
  Forall2 (fun r text => keyOf r = Some (KChar text)) rs texts ->
  Forall2 reads_key rs (map KChar texts).
Proof.
  induction 1; simpl; constructor; auto. repeat split; [assumption| |]; discriminate.
Qed.

Lemma input_typed stdin question defaultValue rs texts e rest t :
  isTerminal stdin = true ->
  reads stdin = rs ++ e :: rest ->
  keyOf e = Some KEnter ->
  Forall2 (fun r text => keyOf r = Some (KChar text)) rs texts ->
  fst (input stdin question defaultValue t)
  = Returned (match List.concat texts with
              | [] => defaultValue
              | _ => List.concat texts
              end).
Proof.
  intros T E K F.
  rewrite (prompt_keys_enter _ _ _ _ _ _ _ (input_prompt question defaultValue)
             stdin rs _ e rest t T E (reads_of_texts _ _ F) K).
  rewrite input_run_typed. simpl. now destruct (List.concat texts).
Qed.

(** X14. [input] returns what was typed. On a terminal, when the reads
    before enter are char keys carrying the texts [texts] (single
    characters or pasted chunks), the call returns their concatenation in
    the order typed; only when nothing was typed does it return the
    default. *)
Theorem input_returns_what_was_typed :
  forall stdin question defaultValue rs texts e rest t,
    isTerminal stdin = true ->
    reads stdin = rs ++ e :: rest ->
    keyOf e = Some KEnter ->
    Forall2 (fun r text => keyOf r = Some (KChar text)) rs texts ->
    fst (input stdin question defaultValue t)
    = Returned (match List.concat texts with [] => defaultValue | _ => List.concat texts end).
Proof.
  intros stdin question defaultValue rs texts e rest t. apply input_typed.
Qed.

Lemma input_returns_what_was_typed_witness :
  isTerminal (tty [type_text "my"; type_text "-"; type_text "exp"; press_enter]) = true /\
  keyOf press_enter = Some KEnter /\
  Forall2 (fun r text => keyOf r = Some (KChar text))
    [type_text "my"; type_text "-"; type_text "exp"] [lit "my"; lit "-"; lit "exp"] /\
  fst (input (tty [type_text "my"; type_text "-"; type_text "exp"; press_enter])
         (lit "Name") (lit "x") (mkTerm false []))
  = Returned (lit "my-exp").
Proof.
  split; [reflexivity|]. split; [reflexivity|].
  assert (F : Forall2 (fun r text => keyOf r = Some (KChar text))
                [type_text "my"; type_text "-"; type_text "exp"]
                [lit "my"; lit "-"; lit "exp"])
    by (repeat constructor).
  split; [exact F|].
  exact (input_returns_what_was_typed
           (tty [type_text "my"; type_text "-"; type_text "exp"; press_enter])
           (lit "Name") (lit "x") [type_text "my"; type_text "-"; type_text "exp"]
           [lit "my"; lit "-"; lit "exp"] press_enter [] (mkTerm false [])
           eq_refl eq_refl eq_refl F).
Defined.

Lemma code_points_ascii bs :
  Forall (fun b => (b <= 127)%N) bs -> TextDecoder.code_points None bs = bs.
Proof.
  induction 1 as [|b bs H _ IH]; [reflexivity|].
  cbn [TextDecoder.code_points]. unfold TextDecoder.lead.
  destruct (N.leb_spec b 127); [|lia]. now rewrite IH.
Qed.

Lemma utf16_small bs :
  Forall (fun b => (b <= 127)%N) bs -> flat_map TextDecoder.utf16 bs = bs.
Proof.
  induction 1 as [|b bs H _ IH]; [reflexivity|].
  cbn [flat_map]. rewrite IH. unfold TextDecoder.utf16.
  destruct (N.ltb_spec b 65536); [reflexivity|lia].
Qed.

Lemma stripBOM_small bs :
  Forall (fun b => (b <= 127)%N) bs -> TextDecoder.stripBOM bs = bs.
Proof.
  intros F. destruct bs as [|b bs]; [reflexivity|].
  inversion F as [|? ? H _]; subst.
  unfold TextDecoder.stripBOM.
  destruct b as [|p]; [reflexivity|].
  repeat (destruct p as [p|p|]; try reflexivity); lia.
Qed.

(** [TextDecoder.decode] leaves ASCII as it is. *)
Lemma decode_ascii_bytes bs :
  Forall (fun b => (Byte.to_N b <= 127)%N) bs ->
  TextDecoder.decode bs = map Byte.to_N bs.
Proof.
  intro F. unfold TextDecoder.decode.
  assert (F' : Forall (fun b => (b <= 127)%N) (map Byte.to_N bs)).
  { induction F; simpl; constructor; auto. }
  now rewrite code_points_ascii, stripBOM_small, utf16_small.
Qed.

Lemma printable_first b rest :
  printable b = true ->
  decodeKey (Some (b :: rest)) = KChar (TextDecoder.decode (b :: rest)).
Proof. destruct b; intro H; try discriminate H; reflexivity. Qed.

Lemma printable_chunk bs :
  bs <> [] -> forallb printable bs = true ->
  decodeKey (Some bs) = KChar (map Byte.to_N bs).
Proof.
  intros N F. destruct bs as [|b rest]; [congruence|].
  assert (Fb : printable b = true) by (simpl in F; now apply andb_prop in F).
  rewrite (printable_first b rest Fb). f_equal. apply decode_ascii_bytes.
  rewrite forallb_forall in F. apply Forall_forall. intros x Hx.
  specialize (F x Hx). unfold printable in F.
  apply andb_prop in F. destruct F as [_ F]. apply N.leb_le in F. lia.
Qed.

(** X15. Printable ASCII is read as typed. A read of one or more bytes
    that are all printable ASCII (space to tilde) is decoded as one char
    key carrying exactly those characters; and when every read before
    enter is such a chunk, [input] on a terminal returns the bytes typed,
    in order, as its text (the default when there was no chunk). *)
Theorem printable_ascii_is_read_as_typed :
  (forall bs t,
      bs <> [] -> forallb printable bs = true ->
      fst (readKey (ReadBytes bs) t) = Returned (KChar (map Byte.to_N bs))) /\
  (forall stdin question defaultValue chunks e rest t,
      isTerminal stdin = true ->
      reads stdin = map ReadBytes chunks ++ e :: rest ->
      keyOf e = Some KEnter ->
      Forall (fun bs => bs <> [] /\ forallb printable bs = true) chunks ->
      fst (input stdin question defaultValue t)
      = Returned (match chunks with
                  | [] => defaultValue
                  | _ => map Byte.to_N (List.concat chunks)
                  end)).
Proof.
  split.
  - intros bs t N F. rewrite readKey_eq. unfold keyOf.
    now rewrite printable_chunk.
  - intros stdin question defaultValue chunks e rest t T E K F.
    assert (F2 : Forall2 (fun r text => keyOf r = Some (KChar text))
                   (map ReadBytes chunks) (map (map Byte.to_N) chunks)).
    { clear E. induction F as [|bs chunks [N P] _ IH]; cbn [map]; constructor; auto.
      unfold keyOf. now rewrite printable_chunk. }
    rewrite (input_typed stdin question defaultValue _ _ e rest t T E K F2).
    rewrite <- concat_map.
    destruct chunks as [|bs chunks]; [reflexivity|].
    inversion F as [|? ? [N _] _]; subst.
    destruct bs as [|b bs]; [congruence|]. reflexivity.
Qed.

Lemma printable_ascii_is_read_as_typed_witness :
  [x61; x62] <> [] /\ forallb printable [x61; x62] = true /\
  fst (readKey (ReadBytes [x61; x62]) (mkTerm false [])) = Returned (KChar (lit "ab")) /\
  isTerminal (tty [ReadBytes [x61; x62]; ReadBytes [x63]; press_enter]) = true /\
  keyOf press_enter = Some KEnter /\
  Forall (fun bs => bs <> [] /\ forallb printable bs = true) [[x61; x62]; [x63]] /\
  fst (input (tty [ReadBytes [x61; x62]; ReadBytes [x63]; press_enter]) (lit "Name")
         (lit "x") (mkTerm false []))
  = Returned (lit "abc").
Proof.
  split; [discriminate|]. split; [reflexivity|].
  split.
  { exact (proj1 printable_ascii_is_read_as_typed [x61; x62] (mkTerm false [])
             ltac:(discriminate) eq_refl). }
  split; [reflexivity|]. split; [reflexivity|].
  assert (F : Forall (fun bs => bs <> [] /\ forallb printable bs = true)
                [[x61; x62]; [x63]]).
  { repeat first [apply Forall_nil
                 | apply Forall_cons; [split; [discriminate | reflexivity]|]]. }
  split; [exact F|].
  exact (proj2 printable_ascii_is_read_as_typed
           (tty [ReadBytes [x61; x62]; ReadBytes [x63]; press_enter]) (lit "Name")
           (lit "x") [[x61; x62]; [x63]] press_enter [] (mkTerm false [])
           eq_refl eq_refl eq_refl F).
Defined.

Lemma input_run_backspaces text : forall value,
  run_keys input_next (repeat KBackspace (List.length text)) (value ++ text) = value.
Proof.
  induction text as [|c text IH] using rev_ind; intro value.
  - simpl. now rewrite app_nil_r.
  - rewrite length_app, Nat.add_comm. cbn [List.length Nat.add repeat].
    rewrite run_keys_cons.
    assert (E : input_next KBackspace (value ++ text ++ [c]) = value ++ text).
    { unfold input_next, slice_0_m1.
      replace (Z.of_nat (List.length (value ++ text ++ [c])) >? 0) with true
        by (symmetry; apply Z.gtb_lt; rewrite !length_app; simpl; lia).
      now rewrite app_assoc, removelast_last. }
    rewrite E. apply IH.
Qed.

(** X16. Backspace undoes typing, one code unit at a time. While [input]
    waits for a key, a char key carrying [text] followed by as many
    backspaces as [text] has code units leaves the call where it was: the
    keys that follow have the outcome they would have had without them. *)
Theorem input_backspaces_undo_typing :
  forall stdin question defaultValue c text bs rest t,
    isTerminal stdin = true ->
    fst (input stdin question defaultValue t) = Blocked ->
    keyOf c = Some (KChar text) ->
    Forall (fun b => keyOf b = Some KBackspace) bs ->
    List.length bs = List.length text ->
    fst (input (more stdin (c :: bs ++ rest)) question defaultValue t)
    = fst (input (more stdin rest) question defaultValue t).
Proof.
  intros stdin question defaultValue c text bs rest t T B Kc Fb L.
  destruct (prompt_same_state _ _ _ _ _ _ _ (input_prompt question defaultValue)
              (fun _ => True) stdin t (fun _ _ _ => I) I T B) as (s & _ & H).
  apply (H (c :: bs) (KChar text :: repeat KBackspace (List.length bs)) [] [] rest).
  - constructor.
    + repeat split; [exact Kc| |]; discriminate.
    + apply reads_of_one_key; [discriminate|discriminate|exact Fb].
  - constructor.
  - rewrite run_keys_cons, L. simpl input_next. apply input_run_backspaces.
Qed.

Lemma input_backspaces_undo_typing_witness :
  isTerminal (tty [type_text "a"]) = true /\
  fst (input (tty [type_text "a"]) (lit "Name") (lit "x") (mkTerm false [])) = Blocked /\
  keyOf (type_text "bc") = Some (KChar (lit "bc")) /\
  Forall (fun b => keyOf b = Some KBackspace) [press_backspace; press_backspace] /\
  List.length [press_backspace; press_backspace] = List.length (lit "bc") /\
  fst (input (tty [type_text "a"; type_text "bc"; press_backspace; press_backspace;
                   press_enter])
         (lit "Name") (lit "x") (mkTerm false []))
  = fst (input (tty [type_text "a"; press_enter]) (lit "Name") (lit "x")
           (mkTerm false [])).
Proof.
  split; [reflexivity|]. split; [reflexivity|]. split; [reflexivity|].
  assert (F : Forall (fun b => keyOf b = Some KBackspace)
                [press_backspace; press_backspace])
    by (repeat constructor).
  split; [exact F|]. split; [reflexivity|].
  exact (input_backspaces_undo_typing
           (tty [type_text "a"]) (lit "Name") (lit "x") (type_text "bc") (lit "bc")
           [press_backspace; press_backspace] [press_enter] (mkTerm false [])
           eq_refl eq_refl eq_refl F eq_refl).
Defined.

(** X17. Text a widget cannot use is passed over. While the call waits for
    a key, a char key is ignored, without a redraw, by [select] when its
    text does not start with a number between 1 and [len], by [rating]
    when it does not start with a number between [min] and [max], and by
    [confirm] when it is not [y] or [n] in either case. *)
Theorem unusable_text_is_passed_over :
  forall stdin question options defaultIndex min max defaultRate defaultAnswer
         r text t,
    isTerminal stdin = true ->
    keyOf r = Some (KChar text) ->
    (match parseInt text with
     | Some num => num < 1 \/ Z.of_nat (List.length options) < num
     | None => True
     end ->
     fst (select stdin question options defaultIndex t) = Blocked ->
     passes_over (fun i => select i question options defaultIndex) stdin r t) /\
    (match parseInt text with
     | Some num => num < min \/ max < num
     | None => True
     end ->
     fst (rating stdin question min max defaultRate t) = Blocked ->
     passes_over (fun i => rating i question min max defaultRate) stdin r t) /\
    (toLowerCase text <> lit "y" -> toLowerCase text <> lit "n" ->
     fst (confirm stdin question defaultAnswer t) = Blocked ->
     passes_over (fun i => confirm i question defaultAnswer) stdin r t).
Proof.
  intros stdin question options defaultIndex min max defaultRate defaultAnswer
         r text t T K.
  assert (RK : reads_key r (KChar text))
    by (repeat split; [exact K| |]; discriminate).
  split; [|split].
  - intros P B.
    assert (E : match parseInt text with
                | Some num =>
                    (num >=? 1) && (num <=? Z.of_nat (List.length options)) = false
                | None => True
                end).
    { destruct (parseInt text) as [num|]; [|exact I].
      destruct (Z.geb_spec num 1); simpl; [|reflexivity].
      destruct (Z.leb_spec num (Z.of_nat (List.length options))); [lia|reflexivity]. }
    apply (prompt_passes_over _ _ _ _ _ _ _ stdin r (KChar text) t
             (select_prompt question options defaultIndex
                (select_blocked_has_options _ _ _ _ _ B)) T B RK).
    + intros s t'. unfold select_onKey. simpl.
      destruct (parseInt text) as [num|]; [rewrite E|]; reflexivity.
    + intro s. simpl. destruct (parseInt text) as [num|]; [rewrite E|]; reflexivity.
  - intros P B.
    assert (E : match parseInt text with
                | Some num => (num >=? min) && (num <=? max) = false
                | None => True
                end).
    { destruct (parseInt text) as [num|]; [|exact I].
      destruct (Z.geb_spec num min); simpl; [|reflexivity].
      destruct (Z.leb_spec num max); [lia|reflexivity]. }
    apply (prompt_passes_over _ _ _ _ _ _ _ stdin r (KChar text) t
             (rating_prompt question min max defaultRate) T B RK).
    + intros s t'. unfold rating_onKey. simpl.
      destruct (parseInt text) as [num|]; [rewrite E|]; reflexivity.
    + intro s. simpl. destruct (parseInt text) as [num|]; [rewrite E|]; reflexivity.
  - intros Ny Nn B.
    assert (Ey : jsstring_eqb (toLowerCase text) (lit "y") = false).
    { destruct (jsstring_eqb (toLowerCase text) (lit "y")) eqn:E; [|reflexivity].
      apply jsstring_eqb_eq in E. contradiction. }
    assert (En : jsstring_eqb (toLowerCase text) (lit "n") = false).
    { destruct (jsstring_eqb (toLowerCase text) (lit "n")) eqn:E; [|reflexivity].
      apply jsstring_eqb_eq in E. contradiction. }
    apply (prompt_passes_over _ _ _ _ _ _ _ stdin r (KChar text) t
             (confirm_prompt question defaultAnswer) T B RK).
    + intros s t'. unfold confirm_onKey. cbn [has_type Key_type String.eqb Ascii.eqb Bool.eqb when orb].
      rewrite Ey, En. reflexivity.
    + intro s. unfold confirm_next. now rewrite Ey, En.
Qed.

Lemma unusable_text_is_passed_over_witness :
  isTerminal (tty [press_down]) = true /\
  keyOf (type_text "7") = Some (KChar (lit "7")) /\
  fst (select (tty [press_down]) (lit "Pick") [lit "a"; lit "b"] 0 (mkTerm false []))
  = Blocked /\
  passes_over (fun i => select i (lit "Pick") [lit "a"; lit "b"] 0)
    (tty [press_down]) (type_text "7") (mkTerm false []) /\
  fst (rating (tty [press_down]) (lit "Rate") 1 5 3 (mkTerm false [])) = Blocked /\
  passes_over (fun i => rating i (lit "Rate") 1 5 3)
    (tty [press_down]) (type_text "7") (mkTerm false []) /\
  toLowerCase (lit "7") <> lit "y" /\ toLowerCase (lit "7") <> lit "n" /\
  fst (confirm (tty [press_down]) (lit "Sure") true (mkTerm false [])) = Blocked /\
  passes_over (fun i => confirm i (lit "Sure") true)
    (tty [press_down]) (type_text "7") (mkTerm false []).
Proof.
  split; [reflexivity|]. split; [reflexivity|].
  split; [reflexivity|]. split.
  { exact (proj1 (unusable_text_is_passed_over
                    (tty [press_down]) (lit "Pick") [lit "a"; lit "b"] 0 1 5 3 true
                    (type_text "7") (lit "7") (mkTerm false []) eq_refl eq_refl)
             ltac:(right; simpl; lia) eq_refl). }
  split; [reflexivity|]. split.
  { exact (proj1 (proj2 (unusable_text_is_passed_over
                    (tty [press_down]) (lit "Rate") [] 0 1 5 3 true
                    (type_text "7") (lit "7") (mkTerm false []) eq_refl eq_refl))
             ltac:(right; simpl; lia) eq_refl). }
  split; [discriminate|]. split; [discriminate|]. split; [reflexivity|].
  exact (proj2 (proj2 (unusable_text_is_passed_over
                  (tty [press_down]) (lit "Sure") [] 0 1 5 3 true
                  (type_text "7") (lit "7") (mkTerm false []) eq_refl eq_refl))
           ltac:(discriminate) ltac:(discriminate) eq_refl).
Defined.

Lemma select_try_hides_cursor question options defaultIndex :
  exists ws,
    forall rs t,
      select_try question options defaultIndex rs t =
      readKey_loop (select_onKey question options) rs defaultIndex
        (mkTerm true
           (effects t ++ EvSetRaw true :: EvWrite ansi.hideCursor :: map EvWrite ws)).
Proof.
  destruct (select_render_writer question options defaultIndex) as (ws & _ & E).
  exists ws. intros rs t.
  unfold select_try, bind at 1 2 3. simpl. rewrite E.
  unfold after. simpl. f_equal. f_equal. same_effects.
Qed.

(** X18. [select] hides the cursor for the time of the prompt. On a
    terminal and with options, the call first engages raw mode and hides
    the cursor; and whenever it returns, or throws because a read was
    rejected, its last two effects are the leaving of raw mode and the
    showing of the cursor, everything in between being reads and writes. *)
Theorem select_hides_the_cursor_and_shows_it_again :
  forall stdin question options defaultIndex t,
    isTerminal stdin = true ->
    options <> [] ->
    exists middle,
      effects (snd (select stdin question options defaultIndex t))
      = effects t ++ EvSetRaw true :: EvWrite ansi.hideCursor :: middle /\
      (fst (select stdin question options defaultIndex t) = Threw \/
       (exists v, fst (select stdin question options defaultIndex t) = Returned v) ->
       exists loop,
         Forall is_io loop /\
         middle = loop ++ [EvSetRaw false; EvWrite ansi.showCursor]).
Proof.
  intros stdin question options defaultIndex t T N.
  rewrite (select_interactive _ _ _ _ T N).
  destruct (select_try_hides_cursor question options defaultIndex) as (ws & P).
  unfold try_finally. rewrite P.
  set (t1 := mkTerm true _).
  destruct (loop_trace _ _ _ (select_body_ok question options) (reads stdin)
              defaultIndex t1) as (evs & F & H).
  destruct (readKey_loop _ (reads stdin) defaultIndex t1) as [[v|c| |] t'] eqn:E;
    simpl in H.
  - subst t'. unfold bind. rewrite select_finally_spec. simpl.
    exists ((map EvWrite ws ++ evs) ++ [EvSetRaw false; EvWrite ansi.showCursor]).
    split; [same_effects|]. intros _.
    exists (map EvWrite ws ++ evs). split; [|reflexivity].
    apply Forall_app. split; [apply Forall_is_io_map | exact F].
  - destruct H as [-> ->]. simpl.
    exists ((map EvWrite ws ++ evs) ++ [EvSetRaw false; EvExit 130]).
    split; [same_effects|]. intros [H|[v H]]; discriminate H.
  - subst t'. unfold bind. rewrite select_finally_spec. simpl.
    exists ((map EvWrite ws ++ evs) ++ [EvSetRaw false; EvWrite ansi.showCursor]).
    split; [same_effects|]. intros _.
    exists (map EvWrite ws ++ evs). split; [|reflexivity].
    apply Forall_app. split; [apply Forall_is_io_map | exact F].
  - subst t'. simpl.
    exists (map EvWrite ws ++ evs).
    split; [same_effects|]. intros [H|[v H]]; discriminate H.
Qed.

Lemma select_hides_the_cursor_and_shows_it_again_witness :
  isTerminal (tty [press_down; press_enter]) = true /\
  [lit "a"; lit "b"] <> [] /\
  exists middle,
    effects (snd (select (tty [press_down; press_enter]) (lit "Pick")
                    [lit "a"; lit "b"] 0 (mkTerm false [])))
    = effects (mkTerm false []) ++ EvSetRaw true :: EvWrite ansi.hideCursor :: middle /\
    exists loop,
      Forall is_io loop /\
      middle = loop ++ [EvSetRaw false; EvWrite ansi.showCursor].
Proof.
  split; [reflexivity|]. split; [discriminate|].
  destruct (select_hides_the_cursor_and_shows_it_again
              (tty [press_down; press_enter]) (lit "Pick") [lit "a"; lit "b"] 0
              (mkTerm false []) eq_refl ltac:(discriminate)) as (middle & E & H).
  exists middle. split; [exact E|].
  apply H. right. exists 1. reflexivity.
Defined.

(* ------------------------------------------------------------------ *)
(** ** The lines of a frame *)

Lemma line_feeds_app e1 e2 :
  line_feeds (e1 ++ e2) = (line_feeds e1 + line_feeds e2)%nat.
Proof.
  induction e1 as [|e e1 IH]; simpl; [reflexivity|].
  destruct e; rewrite IH; lia.
Qed.

Lemma feeds_ret : feeds (ret tt) 0.
Proof. exists []. split; [reflexivity|]. intro t. unfold ret. now rewrite after_nil. Qed.

Lemma feeds_write text : feeds (write text) (count_occ N.eq_dec text 10%N).
Proof. exists [EvWrite text]. split; [simpl; lia|]. reflexivity. Qed.

Lemma feeds_bind (m : M unit) (k : unit -> M unit) n1 n2 n :
  feeds m n1 -> feeds (k tt) n2 -> n = (n1 + n2)%nat -> feeds (bind m k) n.
Proof.
  intros (e1 & L1 & E1) (e2 & L2 & E2) ->.
  exists (e1 ++ e2). split; [rewrite line_feeds_app; congruence|].
  intro t. unfold bind. rewrite E1, E2, after_after. reflexivity.
Qed.

Lemma forEach_from_feeds {A} (f : A -> Z -> M unit) (g : A -> nat) xs :
  (forall x i, feeds (f x i) (g x)) ->
  forall i, feeds (forEach_from i xs f) (list_sum (map g xs)).
Proof.
  intro Hf. induction xs as [|x xs IH]; intro i; simpl.
  - apply feeds_ret.
  - eapply feeds_bind; [apply Hf | apply IH | reflexivity].
Qed.

Lemma feeds_run m n t :
  feeds m n ->
  line_feeds (effects (snd (m t))) = (line_feeds (effects t) + n)%nat.
Proof.
  intros (evs & L & E). rewrite E. simpl. now rewrite line_feeds_app, L.
Qed.

Lemma feeds_eq m n n' : feeds m n' -> n = n' -> feeds m n.
Proof. now intros H ->. Qed.

Lemma select_render_feeds question options selected :
  feeds (select_render question options selected)
    (count_occ N.eq_dec question 10%N + 1
     + list_sum (map (fun opt => count_occ N.eq_dec opt 10%N + 1) options))%nat.
Proof.
  unfold select_render, forEach.
  apply (feeds_bind _ _ 0
           (count_occ N.eq_dec question 10%N + 1
            + list_sum (map (fun opt => count_occ N.eq_dec opt 10%N + 1) options))%nat);
    [apply (feeds_eq _ _ _ (feeds_write _)); reflexivity | | reflexivity].
  apply (feeds_bind _ _ (count_occ N.eq_dec question 10%N + 1)
           (list_sum (map (fun opt => count_occ N.eq_dec opt 10%N + 1) options))%nat);
    [apply (feeds_eq _ _ _ (feeds_write _)); rewrite count_occ_app; reflexivity
    | | reflexivity].
  apply (forEach_from_feeds _ (fun opt => count_occ N.eq_dec opt 10%N + 1)%nat).
  intros opt i.
  apply (feeds_bind _ _ 0 (count_occ N.eq_dec opt 10%N + 1)%nat);
    [apply (feeds_eq _ _ _ (feeds_write _)); reflexivity | | reflexivity].
  destruct (i =? selected);
    apply (feeds_eq _ _ _ (feeds_write _)); rewrite !count_occ_app; reflexivity.
Qed.

(** X19. A redraw of [select] goes up by the lines of its frame. The frame
    writes one line feed after the question and one after each option,
    besides those inside the texts; the cursor movement before a redraw
    goes up by [len + 1] lines. So the movement goes up by as many lines as
    the frame has line feeds exactly when neither the question nor an
    option holds a line feed. *)
Theorem select_frame_has_one_line_per_option :
  forall question options selected t,
    line_feeds (effects (snd (select_render question options selected t)))
    = (line_feeds (effects t) + (List.length options + 1)
       + count_occ N.eq_dec question 10%N
       + list_sum (map (fun opt => count_occ N.eq_dec opt 10%N) options))%nat /\
    select_moveUp options t
    = (Returned tt,
       after t [EvWrite (CSI ++ Number_toString (Z.of_nat (List.length options + 1))
                           ++ lit "A")]).
Proof.
  intros question options selected t. split.
  - rewrite (feeds_run _ _ t (select_render_feeds question options selected)).
    assert (E : forall os : list jsstring,
               list_sum (map (fun opt => count_occ N.eq_dec opt 10%N + 1)%nat os)
               = (List.length os
                  + list_sum (map (fun opt => count_occ N.eq_dec opt 10%N) os))%nat).
    { induction os as [|o os IH]; simpl; [reflexivity|]. rewrite IH. lia. }
    rewrite E. lia.
  - unfold select_moveUp, write, emit, after, ansi.cursorUp.
    now rewrite Nat2Z.inj_add.
Qed.

(* ------------------------------------------------------------------ *)
(** ** What the decoder tells apart *)

Ltac iff_no :=
  split;
  [ let H := fresh in intro H; discriminate H
  | let H := fresh in
    first [ intros [? [H|H]]; discriminate H
          | intros [? H]; discriminate H
          | intro H; discriminate H ] ].

Ltac iff_yes :=
  split;
  [ intros _;
    first [ reflexivity
          | eexists; reflexivity
          | eexists; left; reflexivity
          | eexists; right; reflexivity ]
  | intros _; reflexivity ].

Ltac five_parts := split; [|split; [|split; [|split]]].

(** X20. The control keys are recognised by the first byte of a read and
    by nothing else. A read decodes to the interrupt key exactly when its
    first byte is 0x03, to enter exactly when it is 13 (a line feed, 10, is
    not enter), to backspace exactly when it is 127 or 8, and to escape
    exactly when the read is the single byte 27; a control byte further
    inside a read is not seen. And a read that decodes to a char key never
    starts with one of these bytes, so that no escape sequence reaches the
    text. *)
Theorem control_keys_are_recognised_by_the_first_byte :
  forall bs,
    (decodeKey (Some bs) = KCtrlC <-> exists rest, bs = x03 :: rest) /\
    (decodeKey (Some bs) = KEnter <-> exists rest, bs = x0d :: rest) /\
    (decodeKey (Some bs) = KBackspace <->
     exists rest, bs = x7f :: rest \/ bs = x08 :: rest) /\
    (decodeKey (Some bs) = KEscape <-> bs = [x1b]) /\
    (forall text,
        decodeKey (Some bs) = KChar text ->
        text = TextDecoder.decode bs /\
        exists first rest,
          bs = first :: rest /\ ~ In first [x03; x0d; x7f; x08; x1b]).
Proof.
  intros [|first rest].
  - five_parts; try iff_no. intros text H. discriminate H.
  - assert (Char :
      ~ In first [x03; x0d; x7f; x08; x1b] ->
      decodeKey (Some (first :: rest)) = KChar (TextDecoder.decode (first :: rest))).
    { destruct first; intro H; try reflexivity; exfalso; apply H; simpl; tauto. }
    assert (Esc : forall c tail,
      In (decodeKey (Some (x1b :: c :: tail))) [KUp; KDown; KRight; KLeft; KUnknown]).
    { intros c tail. destruct c; try (simpl; tauto).
      destruct tail as [|c2 tail]; [simpl; tauto|].
      destruct c2; simpl; tauto. }
    destruct (in_dec Byte.byte_eq_dec first [x03; x0d; x7f; x08; x1b]) as [I|N].
    + simpl in I.
      destruct I as [<-|[<-|[<-|[<-|[<-|[]]]]]];
        try (five_parts; try first [iff_yes | iff_no];
             intros text H; discriminate H).
      destruct rest as [|c tail].
      * five_parts; try first [iff_yes | iff_no]. intros text H. discriminate H.
      * pose proof (Esc c tail) as E.
        five_parts.
        -- split; [intro H; rewrite H in E; simpl in E; intuition discriminate
                  | intros [? H]; discriminate H].
        -- split; [intro H; rewrite H in E; simpl in E; intuition discriminate
                  | intros [? H]; discriminate H].
        -- split; [intro H; rewrite H in E; simpl in E; intuition discriminate
                  | intros [? [H|H]]; discriminate H].
        -- split; [intro H; rewrite H in E; simpl in E; intuition discriminate
                  | intro H; discriminate H].
        -- intros text H. rewrite H in E. simpl in E. intuition discriminate.
    + rewrite (Char N).
      five_parts.
      * split; [intro H; discriminate H
               | intros [? H]; injection H as -> _; exfalso; apply N; simpl; tauto].
      * split; [intro H; discriminate H
               | intros [? H]; injection H as -> _; exfalso; apply N; simpl; tauto].
      * split; [intro H; discriminate H
               | intros [? [H|H]]; injection H as -> _; exfalso; apply N; simpl; tauto].
      * split; [intro H; discriminate H
               | intro H; injection H as -> _; exfalso; apply N; simpl; tauto].
      * intros text H. split; [congruence|].
        exists first, rest. split; [reflexivity|exact N].
Qed.

Lemma control_keys_are_recognised_by_the_first_byte_witness :
  decodeKey (Some [x61; x03]) = KChar [97%N; 3%N] /\
  [97%N; 3%N] = TextDecoder.decode [x61; x03] /\
  (exists first rest,
      [x61; x03] = first :: rest /\ ~ In first [x03; x0d; x7f; x08; x1b]) /\
  decodeKey (Some [x0a]) <> KEnter.
Proof.
  split; [reflexivity|].
  destruct (control_keys_are_recognised_by_the_first_byte [x61; x03])
    as (_ & _ & _ & _ & H).
  destruct (H [97%N; 3%N] eq_refl) as (E & F).
  split; [exact E|]. split; [exact F|].
  intro K.
  destruct (proj1 (proj1 (proj2 (control_keys_are_recognised_by_the_first_byte [x0a])))
              K) as (rest & R).
  discriminate R.
Defined.

(* ------------------------------------------------------------------ *)
(** ** The frame on the terminal *)

Lemma frame_of_writer (m : M unit) n t :
  writer m tt n -> m t = (Returned tt, after t (frame_of m)).
Proof.
  intros (ws & _ & E). unfold frame_of. rewrite !E. reflexivity.
Qed.

Section Frames.

Context {S : Type} (body : Key -> S -> M (Ctl S)).
Context (restore : list jsstring) (next : Key -> S -> S).
Context (up : list Event) (shown : S -> list Event).
Hypothesis body_spec : body_ok body restore next.

(** An iteration either leaves everything as it is or does [up] and draws
    the frame of the new state. *)
Hypothesis body_shows : forall key s,
  key <> KCtrlC -> key <> KEnter ->
  (next key s = s /\ forall t, body key s t = (Returned (Continue s), t)) \/
  (forall t,
      body key s t = (Returned (Continue (next key s)),
                      after t (up ++ shown (next key s)))).

Lemma loop_shows rs : forall s t before tail,
  effects t = before ++ shown s ++ tail ->
  Forall is_read tail ->
  fst (readKey_loop body rs s t) = Blocked ->
  exists s' before' tail',
    effects (snd (readKey_loop body rs s t)) = before' ++ shown s' ++ tail' /\
    Forall is_read tail' /\
    forall rest,
      readKey_loop body (rs ++ rest) s t =
      readKey_loop body rest s' (snd (readKey_loop body rs s t)).
Proof.
  induction rs as [|r rs IH]; intros s t before tail E F B.
  - exists s, before, tail. repeat split; assumption.
  - destruct (keyOf r) as [key|] eqn:K.
    + destruct (Key_cases key) as [-> | [-> | [N1 N2]]].
      * rewrite (loop_interrupt _ _ _ body_spec _ _ _ _ K) in B. discriminate.
      * destruct (loop_enter _ _ _ body_spec r rs s t K) as (ws & H).
        rewrite H in B. discriminate.
      * assert (Step : exists t1 before1 tail1,
                  effects t1 = before1 ++ shown (next key s) ++ tail1 /\
                  Forall is_read tail1 /\
                  forall rest,
                    readKey_loop body (r :: rest) s t =
                    readKey_loop body rest (next key s) t1).
        { destruct (body_shows key s N1 N2) as [[Same Idle]|Draw].
          - exists (after t [EvRead r]), before, (tail ++ [EvRead r]).
            rewrite Same. split; [simpl; rewrite E; now rewrite <- !app_assoc|].
            split; [apply Forall_app; split; [exact F|repeat constructor]|].
            intro rest. simpl. unfold bind.
            rewrite readKey_eq, K, Idle. reflexivity.
          - exists (after (after t [EvRead r]) (up ++ shown (next key s))),
              (effects t ++ [EvRead r] ++ up), [].
            split; [simpl; now rewrite app_nil_r, <- !app_assoc|].
            split; [constructor|].
            intro rest. simpl. unfold bind.
            rewrite readKey_eq, K, Draw. reflexivity. }
        destruct Step as (t1 & before1 & tail1 & E1 & F1 & R1).
        rewrite R1 in B.
        destruct (IH (next key s) t1 before1 tail1 E1 F1 B)
          as (s' & before' & tail' & E' & F' & R').
        exists s', before', tail'. rewrite R1. split; [exact E'|].
        split; [exact F'|]. intro rest.
        rewrite <- app_comm_cons, R1. apply R'.
    + rewrite (loop_fails body _ _ _ _ K) in B. discriminate.
Qed.

Context (prog : list ReadResult -> M S) (fin : M unit) (s0 : S).
Context (pre0 : list Event).

Hypothesis prog_shows : forall rs t,
  prog rs t = readKey_loop body rs s0 (mkTerm true (effects t ++ pre0 ++ shown s0)).

Hypothesis fin_returns : forall t, exists t', fin t = (Returned tt, t').

Lemma call_shows rs t :
  fst (try_finally (prog rs) fin t) = Blocked ->
  exists s before tail,
    effects (snd (try_finally (prog rs) fin t)) = before ++ shown s ++ tail /\
    Forall is_read tail /\
    forall e rest,
      keyOf e = Some KEnter ->
      fst (try_finally (prog (rs ++ e :: rest)) fin t) = Returned s.
Proof.
  intro B.
  assert (B1 : fst (prog rs t) = Blocked /\ try_finally (prog rs) fin t = prog rs t).
  { revert B. unfold try_finally, bind.
    destruct (prog rs t) as [[v|c| |] t'] eqn:E; simpl;
      try (destruct (fin_returns t') as (t'' & ->)); simpl;
        intro; try discriminate; auto. }
  destruct B1 as [B1 E1]. rewrite E1. rewrite prog_shows in B1 |- *.
  assert (E0 : effects (mkTerm true (effects t ++ pre0 ++ shown s0))
               = (effects t ++ pre0) ++ shown s0 ++ [])
    by (simpl; now rewrite app_nil_r, <- app_assoc).
  destruct (loop_shows rs s0 _ _ [] E0 (Forall_nil _) B1)
    as (s & before & tail & E & F & R).
  exists s, before, tail. split; [exact E|]. split; [exact F|].
  intros e rest K. unfold try_finally. rewrite prog_shows, R.
  match goal with
  | |- context [readKey_loop body (e :: rest) ?s1 ?t1] =>
      destruct (loop_enter _ _ _ body_spec e rest s1 t1 K) as (ws & ->)
  end.
  unfold bind.
  match goal with
  | |- context [fin ?t1] => destruct (fin_returns t1) as (t'' & ->)
  end.
  reflexivity.
Qed.

(** One key while the call waits: nothing but the read, or the read and
    one redraw. *)
Lemma call_one_key rs r key t :
  fst (try_finally (prog rs) fin t) = Blocked ->
  reads_key r key ->
  try_finally (prog (rs ++ [r])) fin t
  = (Blocked, after (snd (try_finally (prog rs) fin t)) [EvRead r]) \/
  exists s,
    try_finally (prog (rs ++ [r])) fin t
    = (Blocked,
       after (snd (try_finally (prog rs) fin t)) (EvRead r :: up ++ shown s)).
Proof.
  intros B (K & N1 & N2).
  assert (B1 : fst (prog rs t) = Blocked /\ try_finally (prog rs) fin t = prog rs t).
  { revert B. unfold try_finally, bind.
    destruct (prog rs t) as [[v|c| |] t'] eqn:E; simpl;
      try (destruct (fin_returns t') as (t'' & ->)); simpl;
        intro; try discriminate; auto. }
  destruct B1 as [B1 E1]. rewrite E1. rewrite prog_shows in B1 |- *.
  destruct (loop_resume _ _ _ body_spec (fun _ => True) rs (fun _ _ _ => I) s0 _ I B1)
    as (s & _ & R).
  unfold try_finally. rewrite prog_shows, R.
  destruct (body_shows key s N1 N2) as [[Same Idle]|Draw].
  - left. simpl. unfold bind. rewrite readKey_eq, K, Idle. reflexivity.
  - right. exists (next key s). simpl. unfold bind.
    rewrite readKey_eq, K, Draw, after_after. reflexivity.
Qed.

End Frames.

Lemma select_body_shows question options key s :
  key <> KCtrlC -> key <> KEnter ->
  (select_next options key s = s /\
   forall t, select_onKey question options key s t = (Returned (Continue s), t)) \/
  (forall t,
      select_onKey question options key s t =
      (Returned (Continue (select_next options key s)),
       after t (frame_of (select_moveUp options)
                  ++ frame_of (select_render question options
                                 (select_next options key s))))).
Proof.
  intros N1 N2.
  assert (Redraw : forall s' t,
             (select_moveUp options ;; select_render question options s' ;; ret s') t
             = (Returned s',
                after t (frame_of (select_moveUp options)
                           ++ frame_of (select_render question options s')))).
  { intros s' t. unfold bind.
    rewrite (frame_of_writer _ _ t (select_moveUp_writer options)).
    rewrite (frame_of_writer _ _ _ (select_render_writer question options s')).
    unfold ret. now rewrite after_after. }
  unfold select_onKey, select_next.
  destruct key; try congruence; simpl; repeat (rewrite bind_ret_l; cbv beta);
    try (left; split; [reflexivity | intro; reflexivity]).
  - destruct (parseInt char) as [num|];
      [destruct ((num >=? 1) && (num <=? Z.of_nat (List.length options)))|];
      try (left; split; [reflexivity | intro; reflexivity]).
    right. intro t. unfold bind at 1. rewrite Redraw. reflexivity.
  - destruct (s >? 0); [|left; split; [reflexivity | intro; reflexivity]].
    right. intro t. unfold bind at 1. rewrite Redraw. reflexivity.
  - destruct (s <? Z.of_nat (List.length options) - 1);
      [|left; split; [reflexivity | intro; reflexivity]].
    right. intro t. unfold bind at 1. rewrite Redraw. reflexivity.
Qed.

Ltac key_is_idle := left; split; [reflexivity | intro; reflexivity].

Lemma input_body_shows question defaultValue key value :
  key <> KCtrlC -> key <> KEnter ->
  (input_next key value = value /\
   forall t,
     input_onKey question defaultValue key value t = (Returned (Continue value), t)) \/
  (forall t,
      input_onKey question defaultValue key value t =
      (Returned (Continue (input_next key value)),
       after t ([] ++ frame_of (input_render question defaultValue
                                  (input_next key value))))).
Proof.
  intros N1 N2.
  assert (Redraw : forall v t,
             (input_render question defaultValue v ;; ret (Continue v)) t
             = (Returned (Continue v),
                after t ([] ++ frame_of (input_render question defaultValue v)))).
  { intros v t. unfold bind.
    rewrite (frame_of_writer _ _ t (input_render_writer question defaultValue v)).
    reflexivity. }
  unfold input_onKey, input_next.
  destruct key; try congruence; simpl; repeat (rewrite bind_ret_l; cbv beta);
    try key_is_idle.
  - right. intro t. apply Redraw.
  - destruct (Z.of_nat (List.length value) >? 0); [|key_is_idle].
    right. intro t. apply Redraw.
Qed.

Lemma rating_body_shows question min max key value :
  key <> KCtrlC -> key <> KEnter ->
  (rating_next min max key value = value /\
   forall t,
     rating_onKey question min max key value t = (Returned (Continue value), t)) \/
  (forall t,
      rating_onKey question min max key value t =
      (Returned (Continue (rating_next min max key value)),
       after t ([] ++ frame_of (rating_render question min max
                                  (rating_next min max key value))))).
Proof.
  intros N1 N2.
  assert (Redraw : forall v t,
             (rating_render question min max v ;; ret v) t
             = (Returned v,
                after t ([] ++ frame_of (rating_render question min max v)))).
  { intros v t. unfold bind.
    rewrite (frame_of_writer _ _ t (rating_render_writer question min max v)).
    reflexivity. }
  unfold rating_onKey, rating_next.
  destruct key; try congruence; simpl; repeat (rewrite bind_ret_l; cbv beta);
    try key_is_idle.
  - destruct (parseInt char) as [num|];
      [destruct ((num >=? min) && (num <=? max))|]; try key_is_idle.
    right. intro t. unfold bind at 1. rewrite Redraw. reflexivity.
  - destruct (value <? max); [|key_is_idle].
    right. intro t. unfold bind at 1. rewrite Redraw. reflexivity.
  - destruct (value >? min); [|key_is_idle].
    right. intro t. unfold bind at 1. rewrite Redraw.
    simpl. destruct (value - 1 <? max); reflexivity.
  - destruct (value >? min); [|key_is_idle].
    right. intro t. unfold bind at 1. rewrite Redraw. reflexivity.
  - destruct (value <? max); [|key_is_idle].
    right. intro t. unfold bind at 1. rewrite Redraw. reflexivity.
Qed.

Lemma confirm_body_shows question key value :
  key <> KCtrlC -> key <> KEnter ->
  (confirm_next key value = value /\
   forall t, confirm_onKey question key value t = (Returned (Continue value), t)) \/
  (forall t,
      confirm_onKey question key value t =
      (Returned (Continue (confirm_next key value)),
       after t ([] ++ frame_of (confirm_render question (confirm_next key value))))).
Proof.
  intros N1 N2.
  assert (Redraw : forall v t,
             (confirm_render question v ;; ret v) t
             = (Returned v, after t ([] ++ frame_of (confirm_render question v)))).
  { intros v t. unfold bind.
    rewrite (frame_of_writer _ _ t (confirm_render_writer question v)).
    reflexivity. }
  unfold confirm_onKey, confirm_next.
  destruct key; try congruence;
    cbn [has_type Key_type String.eqb Ascii.eqb Bool.eqb when orb];
    repeat (rewrite bind_ret_l; cbv beta);
    try key_is_idle;
    try (right; intro t; unfold bind at 1; rewrite Redraw; reflexivity).
  destruct (jsstring_eqb (toLowerCase char) (lit "y"));
    [|destruct (jsstring_eqb (toLowerCase char) (lit "n"))];
    try key_is_idle;
    right; intro t; unfold bind at 1; rewrite Redraw; reflexivity.
Qed.

Lemma select_try_shows question options defaultIndex rs t :
  select_try question options defaultIndex rs t =
  readKey_loop (select_onKey question options) rs defaultIndex
    (mkTerm true
       (effects t ++ [EvSetRaw true; EvWrite ansi.hideCursor]
          ++ frame_of (select_render question options defaultIndex))).
Proof.
  unfold select_try, bind at 1 2 3. simpl.
  rewrite (frame_of_writer _ _ _ (select_render_writer question options defaultIndex)).
  unfold after. simpl. f_equal. f_equal. same_effects.
Qed.

Lemma input_try_shows question defaultValue rs t :
  input_try question defaultValue rs t =
  readKey_loop (input_onKey question defaultValue) rs (lit "")
    (mkTerm true
       (effects t ++ [EvSetRaw true]
          ++ frame_of (input_render question defaultValue (lit "")))).
Proof.
  unfold input_try, bind at 1 2, setRaw. cbv beta iota.
  rewrite (frame_of_writer _ _ _ (input_render_writer question defaultValue (lit ""))).
  unfold after. simpl. f_equal. f_equal. same_effects.
Qed.

Lemma rating_try_shows question min max defaultValue rs t :
  rating_try question min max defaultValue rs t =
  readKey_loop (rating_onKey question min max) rs defaultValue
    (mkTerm true
       (effects t ++ [EvSetRaw true]
          ++ frame_of (rating_render question min max defaultValue))).
Proof.
  unfold rating_try, bind at 1 2, setRaw. cbv beta iota.
  rewrite (frame_of_writer _ _ _ (rating_render_writer question min max defaultValue)).
  unfold after. simpl. f_equal. f_equal. same_effects.
Qed.

Lemma confirm_try_shows question defaultValue rs t :
  confirm_try question defaultValue rs t =
  readKey_loop (confirm_onKey question) rs defaultValue
    (mkTerm true
       (effects t ++ [EvSetRaw true]
          ++ frame_of (confirm_render question defaultValue))).
Proof.
  unfold confirm_try, bind at 1 2, setRaw. cbv beta iota.
  rewrite (frame_of_writer _ _ _ (confirm_render_writer question defaultValue)).
  unfold after. simpl. f_equal. f_equal. same_effects.
Qed.

Lemma select_finally_returns t : exists t', select_finally t = (Returned tt, t').
Proof. eexists. apply select_finally_spec. Qed.

Lemma setRaw_false_returns t : exists t', setRaw false t = (Returned tt, t').
Proof. eexists. reflexivity. Qed.

(** X21. What is on the terminal is what enter returns. While a call
    waits for a key, the last frame it has written is the frame of its
    current state, nothing but reads of ignored keys came after it, and
    enter returns exactly that state: the highlighted index of [select],
    the buffer of [input] (the default when the buffer is empty, which the
    frame then shows dimmed), the highlighted value of [rating], the
    highlighted answer of [confirm]. *)
Theorem the_frame_shown_is_what_enter_returns :
  forall stdin question options defaultIndex defaultText min max defaultRate
         defaultAnswer t,
    isTerminal stdin = true ->
    (fst (select stdin question options defaultIndex t) = Blocked ->
     exists selected before tail,
       effects (snd (select stdin question options defaultIndex t))
       = before ++ frame_of (select_render question options selected) ++ tail /\
       Forall is_read tail /\
       forall e rest,
         keyOf e = Some KEnter ->
         fst (select (more stdin (e :: rest)) question options defaultIndex t)
         = Returned selected) /\
    (fst (input stdin question defaultText t) = Blocked ->
     exists buffer before tail,
       effects (snd (input stdin question defaultText t))
       = before ++ frame_of (input_render question defaultText buffer) ++ tail /\
       Forall is_read tail /\
       forall e rest,
         keyOf e = Some KEnter ->
         fst (input (more stdin (e :: rest)) question defaultText t)
         = Returned (match buffer with [] => defaultText | _ => buffer end)) /\
    (fst (rating stdin question min max defaultRate t) = Blocked ->
     exists value before tail,
       effects (snd (rating stdin question min max defaultRate t))
       = before ++ frame_of (rating_render question min max value) ++ tail /\
       Forall is_read tail /\
       forall e rest,
         keyOf e = Some KEnter ->
         fst (rating (more stdin (e :: rest)) question min max defaultRate t)
         = Returned value) /\
    (fst (confirm stdin question defaultAnswer t) = Blocked ->
     exists value before tail,
       effects (snd (confirm stdin question defaultAnswer t))
       = before ++ frame_of (confirm_render question value) ++ tail /\
       Forall is_read tail /\
       forall e rest,
         keyOf e = Some KEnter ->
         fst (confirm (more stdin (e :: rest)) question defaultAnswer t)
         = Returned value).
Proof.
  intros stdin question options defaultIndex defaultText min max defaultRate
         defaultAnswer t T.
  split; [|split; [|split]]; intro B.
  - pose proof (select_blocked_has_options _ _ _ _ _ B) as N.
    rewrite (select_interactive _ _ _ _ T N) in B |- *.
    destruct (call_shows _ _ _ (frame_of (select_moveUp options))
                (fun s => frame_of (select_render question options s))
                (select_body_ok question options)
                (select_body_shows question options)
                (select_try question options defaultIndex) select_finally
                defaultIndex _ (select_try_shows question options defaultIndex)
                select_finally_returns (reads stdin) t B)
      as (s & before & tail & E & F & R).
    exists s, before, tail. split; [exact E|]. split; [exact F|].
    intros e rest K.
    rewrite (select_interactive (more stdin _) _ _ _ T N), reads_more. now apply R.
  - rewrite (input_interactive _ _ _ T), bind_ret_map in B |- *. simpl in B |- *.
    assert (B' : fst (try_finally (input_try question defaultText (reads stdin))
                        (setRaw false) t) = Blocked).
    { destruct (fst (try_finally _ _ t)); simpl in B; congruence. }
    destruct (call_shows _ _ _ []
                (fun s => frame_of (input_render question defaultText s))
                (input_body_ok question defaultText)
                (input_body_shows question defaultText)
                (input_try question defaultText) (setRaw false)
                (lit "") _ (input_try_shows question defaultText)
                setRaw_false_returns (reads stdin) t B')
      as (s & before & tail & E & F & R).
    exists s, before, tail. split; [exact E|]. split; [exact F|].
    intros e rest K.
    rewrite (input_interactive (more stdin _) _ _ T), bind_ret_map, reads_more.
    simpl. rewrite (R e rest K). simpl. now destruct s.
  - rewrite (rating_interactive _ _ _ _ _ T) in B |- *.
    destruct (call_shows _ _ _ []
                (fun s => frame_of (rating_render question min max s))
                (rating_body_ok question min max)
                (rating_body_shows question min max)
                (rating_try question min max defaultRate) (setRaw false)
                defaultRate _ (rating_try_shows question min max defaultRate)
                setRaw_false_returns (reads stdin) t B)
      as (s & before & tail & E & F & R).
    exists s, before, tail. split; [exact E|]. split; [exact F|].
    intros e rest K.
    rewrite (rating_interactive (more stdin _) _ _ _ _ T), reads_more. now apply R.
  - rewrite (confirm_interactive _ _ _ T) in B |- *.
    destruct (call_shows _ _ _ []
                (fun s => frame_of (confirm_render question s))
                (confirm_body_ok question)
                (confirm_body_shows question)
                (confirm_try question defaultAnswer) (setRaw false)
                defaultAnswer _ (confirm_try_shows question defaultAnswer)
                setRaw_false_returns (reads stdin) t B)
      as (s & before & tail & E & F & R).
    exists s, before, tail. split; [exact E|]. split; [exact F|].
    intros e rest K.
    rewrite (confirm_interactive (more stdin _) _ _ T), reads_more. now apply R.
Qed.

Lemma the_frame_shown_is_what_enter_returns_witness :
  isTerminal (tty [press_down; ReadNull]) = true /\
  fst (select (tty [press_down; ReadNull]) (lit "Pick") [lit "a"; lit "b"] 0
         (mkTerm false [])) = Blocked /\
  (exists selected before tail,
      effects (snd (select (tty [press_down; ReadNull]) (lit "Pick") [lit "a"; lit "b"] 0
                      (mkTerm false [])))
      = before ++ frame_of (select_render (lit "Pick") [lit "a"; lit "b"] selected)
          ++ tail /\
      Forall is_read tail /\
      fst (select (tty [press_down; ReadNull; press_enter]) (lit "Pick")
             [lit "a"; lit "b"] 0 (mkTerm false [])) = Returned selected) /\
  fst (input (tty [press_down; ReadNull]) (lit "Name") (lit "x") (mkTerm false []))
  = Blocked /\
  fst (rating (tty [press_down; ReadNull]) (lit "Rate") 1 5 3 (mkTerm false []))
  = Blocked /\
  fst (confirm (tty [press_down; ReadNull]) (lit "Sure") true (mkTerm false []))
  = Blocked /\
  (exists value before tail,
      effects (snd (confirm (tty [press_down; ReadNull]) (lit "Sure") true
                      (mkTerm false [])))
      = before ++ frame_of (confirm_render (lit "Sure") value) ++ tail /\
      Forall is_read tail /\
      fst (confirm (tty [press_down; ReadNull; press_enter]) (lit "Sure") true
             (mkTerm false [])) = Returned value).
Proof.
  destruct (the_frame_shown_is_what_enter_returns
              (tty [press_down; ReadNull]) (lit "Pick") [lit "a"; lit "b"] 0 (lit "x")
              1 5 3 true (mkTerm false []) eq_refl) as (Hs & _).
  destruct (the_frame_shown_is_what_enter_returns
              (tty [press_down; ReadNull]) (lit "Sure") [] 0 (lit "x")
              1 5 3 true (mkTerm false []) eq_refl) as (_ & _ & _ & Hc).
  split; [reflexivity|]. split; [reflexivity|]. split.
  { destruct (Hs eq_refl) as (s & before & tail & E & F & R).
    exists s, before, tail. split; [exact E|]. split; [exact F|].
    exact (R press_enter [] eq_refl). }
  split; [reflexivity|]. split; [reflexivity|]. split; [reflexivity|].
  destruct (Hc eq_refl) as (s & before & tail & E & F & R).
  exists s, before, tail. split; [exact E|]. split; [exact F|].
  exact (R press_enter [] eq_refl).
Defined.

Lemma not_ending_is_a_key r :
  ~ ends_loop r -> exists key, reads_key r key.
Proof.
  intro N. unfold ends_loop in N. destruct (keyOf r) as [key|] eqn:K.
  - exists key. unfold reads_key. rewrite K.
    repeat split; intros ->; tauto.
  - tauto.
Qed.

(** One key while a widget waits: the read alone, or the read and one
    redraw. *)
Lemma select_one_key stdin question options defaultIndex r t :
  isTerminal stdin = true -> ~ ends_loop r ->
  fst (select stdin question options defaultIndex t) = Blocked ->
  goes_on_with (fun i => select i question options defaultIndex) stdin r t [] \/
  exists selected,
    goes_on_with (fun i => select i question options defaultIndex) stdin r t
      (frame_of (select_moveUp options)
         ++ frame_of (select_render question options selected)).
Proof.
  intros T N B. destruct (not_ending_is_a_key r N) as (key & K).
  unfold goes_on_with.
  pose proof (select_blocked_has_options _ _ _ _ _ B) as Ne.
  rewrite (select_interactive _ _ _ _ T Ne) in B |- *.
  rewrite (select_interactive (more stdin _) _ _ _ T Ne), reads_more.
  exact (call_one_key _ _ _ (frame_of (select_moveUp options))
           (fun s => frame_of (select_render question options s))
           (select_body_ok question options)
           (select_body_shows question options)
           (select_try question options defaultIndex) select_finally
           defaultIndex _ (select_try_shows question options defaultIndex)
           select_finally_returns (reads stdin) r key t B K).
Qed.

Lemma input_one_key stdin question defaultText r t :
  isTerminal stdin = true -> ~ ends_loop r ->
  fst (input stdin question defaultText t) = Blocked ->
  goes_on_with (fun i => input i question defaultText) stdin r t [] \/
  exists buffer,
    goes_on_with (fun i => input i question defaultText) stdin r t
      (frame_of (input_render question defaultText buffer)).
Proof.
  intros T N B. destruct (not_ending_is_a_key r N) as (key & K).
  unfold goes_on_with.
  rewrite (input_interactive _ _ _ T), bind_ret_map in B |- *. simpl in B.
  assert (B' : fst (try_finally (input_try question defaultText (reads stdin))
                      (setRaw false) t) = Blocked).
  { destruct (fst (try_finally _ _ t)); simpl in B; congruence. }
  rewrite (input_interactive (more stdin _) _ _ T), bind_ret_map, reads_more.
  destruct (call_one_key _ _ _ []
              (fun s => frame_of (input_render question defaultText s))
              (input_body_ok question defaultText)
              (input_body_shows question defaultText)
              (input_try question defaultText) (setRaw false)
              (lit "") _ (input_try_shows question defaultText)
              setRaw_false_returns (reads stdin) r key t B' K) as [H|(s & H)].
  - left. now rewrite H.
  - right. exists s. now rewrite H.
Qed.

Lemma rating_one_key stdin question min max defaultRate r t :
  isTerminal stdin = true -> ~ ends_loop r ->
  fst (rating stdin question min max defaultRate t) = Blocked ->
  goes_on_with (fun i => rating i question min max defaultRate) stdin r t [] \/
  exists value,
    goes_on_with (fun i => rating i question min max defaultRate) stdin r t
      (frame_of (rating_render question min max value)).
Proof.
  intros T N B. destruct (not_ending_is_a_key r N) as (key & K).
  unfold goes_on_with.
  rewrite (rating_interactive _ _ _ _ _ T) in B |- *.
  rewrite (rating_interactive (more stdin _) _ _ _ _ T), reads_more.
  exact (call_one_key _ _ _ []
           (fun s => frame_of (rating_render question min max s))
           (rating_body_ok question min max)
           (rating_body_shows question min max)
           (rating_try question min max defaultRate) (setRaw false)
           defaultRate _ (rating_try_shows question min max defaultRate)
           setRaw_false_returns (reads stdin) r key t B K).
Qed.

Lemma confirm_one_key stdin question defaultAnswer r t :
  isTerminal stdin = true -> ~ ends_loop r ->
  fst (confirm stdin question defaultAnswer t) = Blocked ->
  goes_on_with (fun i => confirm i question defaultAnswer) stdin r t [] \/
  exists value,
    goes_on_with (fun i => confirm i question defaultAnswer) stdin r t
      (frame_of (confirm_render question value)).
Proof.
  intros T N B. destruct (not_ending_is_a_key r N) as (key & K).
  unfold goes_on_with.
  rewrite (confirm_interactive _ _ _ T) in B |- *.
  rewrite (confirm_interactive (more stdin _) _ _ T), reads_more.
  exact (call_one_key _ _ _ []
           (fun s => frame_of (confirm_render question s))
           (confirm_body_ok question)
           (confirm_body_shows question)
           (confirm_try question defaultAnswer) (setRaw false)
           defaultAnswer _ (confirm_try_shows question defaultAnswer)
           setRaw_false_returns (reads stdin) r key t B K).
Qed.

(** X22. A key costs at most one redraw, and the redraw comes before the
    next read. While a call waits for a key, a read that does not end the
    loop is followed either by nothing or by exactly one frame (for
    [select], after the cursor movement), and the call then waits again:
    no key makes a widget draw twice, and none leaves a frame half
    written. *)
Theorem a_key_costs_at_most_one_redraw :
  forall stdin question options defaultIndex defaultText min max defaultRate
         defaultAnswer r t,
    isTerminal stdin = true ->
    ~ ends_loop r ->
    (fst (select stdin question options defaultIndex t) = Blocked ->
     select (more stdin [r]) question options defaultIndex t
     = (Blocked,
        after (snd (select stdin question options defaultIndex t)) [EvRead r]) \/
     exists selected,
       select (more stdin [r]) question options defaultIndex t
       = (Blocked,
          after (snd (select stdin question options defaultIndex t))
            (EvRead r :: frame_of (select_moveUp options)
               ++ frame_of (select_render question options selected)))) /\
    (fst (input stdin question defaultText t) = Blocked ->
     input (more stdin [r]) question defaultText t
     = (Blocked, after (snd (input stdin question defaultText t)) [EvRead r]) \/
     exists buffer,
       input (more stdin [r]) question defaultText t
       = (Blocked,
          after (snd (input stdin question defaultText t))
            (EvRead r :: frame_of (input_render question defaultText buffer)))) /\
    (fst (rating stdin question min max defaultRate t) = Blocked ->
     rating (more stdin [r]) question min max defaultRate t
     = (Blocked, after (snd (rating stdin question min max defaultRate t)) [EvRead r]) \/
     exists value,
       rating (more stdin [r]) question min max defaultRate t
       = (Blocked,
          after (snd (rating stdin question min max defaultRate t))
            (EvRead r :: frame_of (rating_render question min max value)))) /\
    (fst (confirm stdin question defaultAnswer t) = Blocked ->
     confirm (more stdin [r]) question defaultAnswer t
     = (Blocked, after (snd (confirm stdin question defaultAnswer t)) [EvRead r]) \/
     exists value,
       confirm (more stdin [r]) question defaultAnswer t
       = (Blocked,
          after (snd (confirm stdin question defaultAnswer t))
            (EvRead r :: frame_of (confirm_render question value)))).
Proof.
  intros stdin question options defaultIndex defaultText min max defaultRate
         defaultAnswer r t T N.
  split; [|split; [|split]]; intro B.
  - exact (select_one_key _ _ _ _ _ _ T N B).
  - exact (input_one_key _ _ _ _ _ T N B).
  - exact (rating_one_key _ _ _ _ _ _ _ T N B).
  - exact (confirm_one_key _ _ _ _ _ T N B).
Qed.

Lemma a_key_costs_at_most_one_redraw_witness :
  isTerminal (tty [press_down]) = true /\
  ~ ends_loop press_up /\
  fst (select (tty [press_down]) (lit "Pick") [lit "a"; lit "b"] 0 (mkTerm false []))
  = Blocked /\
  (select (tty [press_down; press_up]) (lit "Pick") [lit "a"; lit "b"] 0
     (mkTerm false [])
   = (Blocked,
      after (snd (select (tty [press_down]) (lit "Pick") [lit "a"; lit "b"] 0
                    (mkTerm false []))) [EvRead press_up]) \/
   exists selected,
     select (tty [press_down; press_up]) (lit "Pick") [lit "a"; lit "b"] 0
       (mkTerm false [])
     = (Blocked,
        after (snd (select (tty [press_down]) (lit "Pick") [lit "a"; lit "b"] 0
                      (mkTerm false [])))
          (EvRead press_up :: frame_of (select_moveUp [lit "a"; lit "b"])
             ++ frame_of (select_render (lit "Pick") [lit "a"; lit "b"] selected)))) /\
  fst (input (tty [press_down]) (lit "Name") (lit "x") (mkTerm false [])) = Blocked /\
  (input (tty [press_down; press_up]) (lit "Name") (lit "x") (mkTerm false [])
   = (Blocked,
      after (snd (input (tty [press_down]) (lit "Name") (lit "x") (mkTerm false [])))
        [EvRead press_up]) \/
   exists buffer,
     input (tty [press_down; press_up]) (lit "Name") (lit "x") (mkTerm false [])
     = (Blocked,
        after (snd (input (tty [press_down]) (lit "Name") (lit "x") (mkTerm false [])))
          (EvRead press_up :: frame_of (input_render (lit "Name") (lit "x") buffer)))) /\
  fst (rating (tty [press_down]) (lit "Rate") 1 5 3 (mkTerm false [])) = Blocked /\
  (rating (tty [press_down; press_up]) (lit "Rate") 1 5 3 (mkTerm false [])
   = (Blocked,
      after (snd (rating (tty [press_down]) (lit "Rate") 1 5 3 (mkTerm false [])))
        [EvRead press_up]) \/
   exists value,
     rating (tty [press_down; press_up]) (lit "Rate") 1 5 3 (mkTerm false [])
     = (Blocked,
        after (snd (rating (tty [press_down]) (lit "Rate") 1 5 3 (mkTerm false [])))
          (EvRead press_up :: frame_of (rating_render (lit "Rate") 1 5 value)))) /\
  fst (confirm (tty [press_down]) (lit "Sure") true (mkTerm false [])) = Blocked /\
  (confirm (tty [press_down; press_up]) (lit "Sure") true (mkTerm false [])
   = (Blocked,
      after (snd (confirm (tty [press_down]) (lit "Sure") true (mkTerm false [])))
        [EvRead press_up]) \/
   exists value,
     confirm (tty [press_down; press_up]) (lit "Sure") true (mkTerm false [])
     = (Blocked,
        after (snd (confirm (tty [press_down]) (lit "Sure") true (mkTerm false [])))
          (EvRead press_up :: frame_of (confirm_render (lit "Sure") value)))).
Proof.
  assert (N : ~ ends_loop press_up).
  { intros [H|[H|H]]; vm_compute in H; discriminate H. }
  destruct (a_key_costs_at_most_one_redraw
              (tty [press_down]) (lit "Pick") [lit "a"; lit "b"] 0 (lit "x")
              1 5 3 true press_up (mkTerm false []) eq_refl N) as (Hs & _).
  destruct (a_key_costs_at_most_one_redraw
              (tty [press_down]) (lit "Name") [] 0 (lit "x")
              1 5 3 true press_up (mkTerm false []) eq_refl N) as (_ & Hi & _).
  destruct (a_key_costs_at_most_one_redraw
              (tty [press_down]) (lit "Rate") [] 0 (lit "x")
              1 5 3 true press_up (mkTerm false []) eq_refl N) as (_ & _ & Hr & _).
  destruct (a_key_costs_at_most_one_redraw
              (tty [press_down]) (lit "Sure") [] 0 (lit "x")
              1 5 3 true press_up (mkTerm false []) eq_refl N) as (_ & _ & _ & Hc).
  split; [reflexivity|]. split; [exact N|].
  split; [reflexivity|]. split; [exact (Hs eq_refl)|].
  split; [reflexivity|]. split; [exact (Hi eq_refl)|].
  split; [reflexivity|]. split; [exact (Hr eq_refl)|].
  split; [reflexivity|]. exact (Hc eq_refl).
Defined.

(* ------------------------------------------------------------------ *)
(** ** The fragments of a frame *)

Lemma select_lines_written selected options : forall i,
  exists lines,
    List.length lines = List.length options /\
    forall t,
      forEach_from i options
        (fun opt i =>
           write ansi.clearLine ;;
           if i =? selected
           then write (ansi.cyan ++ [10095%N] ++ lit " " ++ opt ++ ansi.reset ++ LF)
           else write (lit "  " ++ ansi.dim ++ opt ++ ansi.reset ++ LF)) t
      = (Returned tt,
         after t (flat_map (fun l => [EvWrite ansi.clearLine; EvWrite l]) lines)).
Proof.
  induction options as [|opt options IH]; intro i.
  - exists []. split; [reflexivity|]. intro t. simpl. unfold ret. now rewrite after_nil.
  - destruct (IH (i + 1)) as (lines & L & E).
    exists ((if i =? selected
             then ansi.cyan ++ [10095%N] ++ lit " " ++ opt ++ ansi.reset ++ LF
             else lit "  " ++ ansi.dim ++ opt ++ ansi.reset ++ LF) :: lines).
    split; [simpl; now rewrite L|].
    intro t. cbn [forEach_from flat_map]. unfold bind at 1 2. unfold write at 1.
    cbv beta iota.
    destruct (i =? selected); unfold write at 1; cbv beta iota; rewrite E;
      unfold after, emit; simpl; f_equal; f_equal; now rewrite <- !app_assoc.
Qed.

Lemma select_frame_fragments question options selected :
  exists lines,
    List.length lines = List.length options /\
    frame_of (select_render question options selected)
    = EvWrite (CR ++ ansi.clearLine) :: EvWrite (question ++ LF)
        :: flat_map (fun l => [EvWrite ansi.clearLine; EvWrite l]) lines.
Proof.
  destruct (select_lines_written selected options 0) as (lines & L & E).
  exists lines. split; [exact L|].
  unfold frame_of, select_render, forEach. unfold bind at 1 2, write at 1 2.
  cbv beta iota. rewrite E. reflexivity.
Qed.

Lemma input_frame_fragments question defaultValue value :
  exists content,
    frame_of (input_render question defaultValue value)
    = [EvWrite (CR ++ ansi.clearLine); EvWrite content].
Proof.
  unfold frame_of, input_render. unfold bind, write at 1. cbv beta iota.
  destruct (truthy value); [|destruct (truthy defaultValue)];
    eexists; reflexivity.
Qed.

Lemma confirm_frame_fragments question value :
  exists content,
    frame_of (confirm_render question value)
    = [EvWrite (CR ++ ansi.clearLine); EvWrite content].
Proof. eexists. reflexivity. Qed.

(** C9, as the code has it. A frame is written fragment by fragment, one
    write call each, not in one write. The frame of [select] is the reset
    of the line, the question, and for each option a clearing of the line
    and the line of the option: 2 + 2 len writes. The frame of [input],
    [rating] and [confirm] is two writes, the reset of the line and the
    content. On a terminal each call draws its first frame in this way
    before it waits for a key; and every key that makes a waiting call
    redraw is followed by exactly the writes of one frame, which [select],
    and only [select], precedes by one more write, the cursor movement up by
    len + 1 lines. *)
Theorem frame_is_written_in_fragments :
  (forall question options selected,
      exists lines,
        List.length lines = List.length options /\
        frame_of (select_render question options selected)
        = EvWrite (CR ++ ansi.clearLine) :: EvWrite (question ++ LF)
            :: flat_map (fun l => [EvWrite ansi.clearLine; EvWrite l]) lines) /\
  (forall options,
      frame_of (select_moveUp options)
      = [EvWrite (ansi.cursorUp (Z.of_nat (List.length options) + 1))]) /\
  (forall question defaultValue value,
      exists content,
        frame_of (input_render question defaultValue value)
        = [EvWrite (CR ++ ansi.clearLine); EvWrite content]) /\
  (forall question min max value,
      frame_of (rating_render question min max value)
      = [EvWrite (CR ++ ansi.clearLine);
         EvWrite (question ++ lit ": " ++ renderScale min max value)]) /\
  (forall question value,
      exists content,
        frame_of (confirm_render question value)
        = [EvWrite (CR ++ ansi.clearLine); EvWrite content]) /\
  (forall question options selected defaultValue value min max rate yes t,
      count_writes (effects (snd (select_render question options selected t)))
      = (count_writes (effects t) + (2 + 2 * List.length options))%nat /\
      count_writes (effects (snd (select_moveUp options t)))
      = (count_writes (effects t) + 1)%nat /\
      count_writes (effects (snd (input_render question defaultValue value t)))
      = (count_writes (effects t) + 2)%nat /\
      count_writes (effects (snd (rating_render question min max rate t)))
      = (count_writes (effects t) + 2)%nat /\
      count_writes (effects (snd (confirm_render question yes t)))
      = (count_writes (effects t) + 2)%nat) /\
  (forall stdin question options defaultIndex defaultText min max defaultRate
          defaultAnswer t,
      isTerminal stdin = true ->
      reads stdin = [] ->
      (options <> [] ->
       select stdin question options defaultIndex t
       = (Blocked,
          mkTerm true
            (effects t ++ [EvSetRaw true; EvWrite ansi.hideCursor]
               ++ frame_of (select_render question options defaultIndex)))) /\
      input stdin question defaultText t
      = (Blocked,
         mkTerm true
           (effects t ++ [EvSetRaw true]
              ++ frame_of (input_render question defaultText (lit "")))) /\
      rating stdin question min max defaultRate t
      = (Blocked,
         mkTerm true
           (effects t ++ [EvSetRaw true]
              ++ frame_of (rating_render question min max defaultRate))) /\
      confirm stdin question defaultAnswer t
      = (Blocked,
         mkTerm true
           (effects t ++ [EvSetRaw true]
              ++ frame_of (confirm_render question defaultAnswer)))) /\
  (forall stdin question options defaultIndex defaultText min max defaultRate
          defaultAnswer r t,
      isTerminal stdin = true ->
      ~ ends_loop r ->
      (fst (select stdin question options defaultIndex t) = Blocked ->
       goes_on_with (fun i => select i question options defaultIndex) stdin r t [] \/
       exists selected,
         goes_on_with (fun i => select i question options defaultIndex) stdin r t
           (frame_of (select_moveUp options)
              ++ frame_of (select_render question options selected))) /\
      (fst (input stdin question defaultText t) = Blocked ->
       goes_on_with (fun i => input i question defaultText) stdin r t [] \/
       exists buffer,
         goes_on_with (fun i => input i question defaultText) stdin r t
           (frame_of (input_render question defaultText buffer))) /\
      (fst (rating stdin question min max defaultRate t) = Blocked ->
       goes_on_with (fun i => rating i question min max defaultRate) stdin r t [] \/
       exists value,
         goes_on_with (fun i => rating i question min max defaultRate) stdin r t
           (frame_of (rating_render question min max value))) /\
      (fst (confirm stdin question defaultAnswer t) = Blocked ->
       goes_on_with (fun i => confirm i question defaultAnswer) stdin r t [] \/
       exists value,
         goes_on_with (fun i => confirm i question defaultAnswer) stdin r t
           (frame_of (confirm_render question value)))).
Proof.
  split; [exact select_frame_fragments|].
  split; [reflexivity|].
  split; [exact input_frame_fragments|].
  split; [reflexivity|].
  split; [exact confirm_frame_fragments|].
  split.
  { intros. repeat split.
    - apply (writer_count _ tt), select_render_writer.
    - apply (writer_count _ tt), select_moveUp_writer.
    - apply (writer_count _ tt), input_render_writer.
    - apply (writer_count _ tt), rating_render_writer.
    - apply (writer_count _ tt), confirm_render_writer. }
  split.
  { intros stdin question options defaultIndex defaultText min max defaultRate
           defaultAnswer t T R.
    split; [|split; [|split]].
    - intro Ne. rewrite (select_interactive _ _ _ _ T Ne), R.
      unfold try_finally. rewrite select_try_shows. reflexivity.
    - rewrite (input_interactive _ _ _ T), R, bind_ret_map.
      unfold try_finally. rewrite input_try_shows. reflexivity.
    - rewrite (rating_interactive _ _ _ _ _ T), R.
      unfold try_finally. rewrite rating_try_shows. reflexivity.
    - rewrite (confirm_interactive _ _ _ T), R.
      unfold try_finally. rewrite confirm_try_shows. reflexivity. }
  intros stdin question options defaultIndex defaultText min max defaultRate
         defaultAnswer r t T N.
  split; [|split; [|split]]; intro B.
  - exact (select_one_key _ _ _ _ _ _ T N B).
  - exact (input_one_key _ _ _ _ _ T N B).
  - exact (rating_one_key _ _ _ _ _ _ _ T N B).
  - exact (confirm_one_key _ _ _ _ _ T N B).
Qed.

Lemma frame_is_written_in_fragments_witness :
  isTerminal (tty []) = true /\
  reads (tty []) = [] /\
  [lit "a"; lit "b"] <> [] /\
  select (tty []) (lit "Pick") [lit "a"; lit "b"] 0 (mkTerm false [])
  = (Blocked,
     mkTerm true
       ([EvSetRaw true; EvWrite ansi.hideCursor]
          ++ frame_of (select_render (lit "Pick") [lit "a"; lit "b"] 0))) /\
  confirm (tty []) (lit "Sure") true (mkTerm false [])
  = (Blocked,
     mkTerm true ([EvSetRaw true] ++ frame_of (confirm_render (lit "Sure") true))) /\
  isTerminal (tty [press_down]) = true /\
  ~ ends_loop press_up /\
  fst (select (tty [press_down]) (lit "Pick") [lit "a"; lit "b"] 0 (mkTerm false []))
  = Blocked /\
  (goes_on_with (fun i => select i (lit "Pick") [lit "a"; lit "b"] 0)
     (tty [press_down]) press_up (mkTerm false []) [] \/
   exists selected,
     goes_on_with (fun i => select i (lit "Pick") [lit "a"; lit "b"] 0)
       (tty [press_down]) press_up (mkTerm false [])
       (frame_of (select_moveUp [lit "a"; lit "b"])
          ++ frame_of (select_render (lit "Pick") [lit "a"; lit "b"] selected))) /\
  fst (input (tty [press_down]) (lit "Name") (lit "x") (mkTerm false [])) = Blocked /\
  (goes_on_with (fun i => input i (lit "Name") (lit "x"))
     (tty [press_down]) press_up (mkTerm false []) [] \/
   exists buffer,
     goes_on_with (fun i => input i (lit "Name") (lit "x"))
       (tty [press_down]) press_up (mkTerm false [])
       (frame_of (input_render (lit "Name") (lit "x") buffer))) /\
  fst (rating (tty [press_down]) (lit "Rate") 1 5 3 (mkTerm false [])) = Blocked /\
  (goes_on_with (fun i => rating i (lit "Rate") 1 5 3)
     (tty [press_down]) press_up (mkTerm false []) [] \/
   exists value,
     goes_on_with (fun i => rating i (lit "Rate") 1 5 3)
       (tty [press_down]) press_up (mkTerm false [])
       (frame_of (rating_render (lit "Rate") 1 5 value))) /\
  fst (confirm (tty [press_down]) (lit "Sure") true (mkTerm false [])) = Blocked /\
  (goes_on_with (fun i => confirm i (lit "Sure") true)
     (tty [press_down]) press_up (mkTerm false []) [] \/
   exists value,
     goes_on_with (fun i => confirm i (lit "Sure") true)
       (tty [press_down]) press_up (mkTerm false [])
       (frame_of (confirm_render (lit "Sure") value))).
Proof.
  assert (N : ~ ends_loop press_up).
  { intros [H|[H|H]]; vm_compute in H; discriminate H. }
  pose proof frame_is_written_in_fragments as (_ & _ & _ & _ & _ & _ & First & Redraw).
  destruct (First (tty []) (lit "Pick") [lit "a"; lit "b"] 0 (lit "x") 1 5 3 true
              (mkTerm false []) eq_refl eq_refl) as (Fs & _).
  destruct (First (tty []) (lit "Sure") [] 0 (lit "x") 1 5 3 true
              (mkTerm false []) eq_refl eq_refl) as (_ & _ & _ & Fc).
  destruct (Redraw (tty [press_down]) (lit "Pick") [lit "a"; lit "b"] 0 (lit "x")
              1 5 3 true press_up (mkTerm false []) eq_refl N) as (Hs & _).
  destruct (Redraw (tty [press_down]) (lit "Name") [] 0 (lit "x")
              1 5 3 true press_up (mkTerm false []) eq_refl N) as (_ & Hi & _).
  destruct (Redraw (tty [press_down]) (lit "Rate") [] 0 (lit "x")
              1 5 3 true press_up (mkTerm false []) eq_refl N) as (_ & _ & Hr & _).
  destruct (Redraw (tty [press_down]) (lit "Sure") [] 0 (lit "x")
              1 5 3 true press_up (mkTerm false []) eq_refl N) as (_ & _ & _ & Hc).
  split; [reflexivity|]. split; [reflexivity|]. split; [discriminate|].
  split; [exact (Fs ltac:(discriminate))|]. split; [exact Fc|].
  split; [reflexivity|]. split; [exact N|].
  split; [reflexivity|]. split; [exact (Hs eq_refl)|].
  split; [reflexivity|]. split; [exact (Hi eq_refl)|].
  split; [reflexivity|]. split; [exact (Hr eq_refl)|].
  split; [reflexivity|]. exact (Hc eq_refl).
Defined.

(** C9 as stated fails: the frame of [confirm] takes two write calls, and
    the redraw of a one-option [select] five. *)
Lemma confirm_frame_is_not_one_write :
  count_writes
    (effects (snd (confirm_render (lit "Proceed?") true (mkTerm false []))))
  <> 1%nat /\
  count_writes
    (effects (snd ((select_moveUp [lit "a"] ;; select_render (lit "Pick") [lit "a"] 0)
                     (mkTerm false []))))
  = 5%nat.
Proof. split; [vm_compute; discriminate | reflexivity]. Qed.
